(** * Chat-vis: the answer sanitizer, the JSON extractor and the canvas evaluator

    A shallow embedding of
    - [safeNumber], [clamp], [sanitizeAnswer], [extractJSON] and the tolerant
      parsing of [askOllama] (server side, llm.js), and
    - the [draw] callback of [VisualizationCanvas] (client side, App.tsx),
    and, around them, of [mockAnswer] and [callLLMService] (llm.js), of the
    store, the handlers and the event stream of the server (index.js), and
    of the listeners, [sendQuestion] and the animation loop of the client
    (App.tsx).

    JavaScript values are modelled as a tagged union of the JSON-shaped
    values the two programs exchange.  A JavaScript number is one of NaN,
    +Infinity, -Infinity or a finite number; finite numbers are exact
    rationals (every finite double is one), arithmetic on them is exact, and
    every operation returns its result in lowest terms, so that equal
    numbers have equal representations.  Rounding, overflow and the sign of
    zero are not modelled by these numbers: the statements that depend on
    them are made of the inputs, described in [Domain], on which the double
    precision arithmetic of the engine is exact or stays finite, and
    [Doubles] evaluates the rule of the Linear animations in binary64 itself
    where it is not. *)

From Stdlib Require Import ZArith QArith Qround Qreduction Qminmax Lqa Lia.
From Stdlib Require Import List String Ascii Bool DecimalString DecimalNat.
From Stdlib Require DecimalN PrimFloat.
Import ListNotations.

Set Warnings "-register-all,-inexact-float".

Local Open Scope string_scope.
Local Open Scope Q_scope.

(** ** JavaScript numbers *)

Module JSNumber.

Inductive num : Type :=
| NaN
| PInf
| NInf
| Fin (q : Q).

(** A finite result, in lowest terms. *)
Definition fin (q : Q) : num := Fin (Qred q).

Definition Qltb (x y : Q) : bool := negb (Qle_bool y x).

Definition is_finite (n : num) : bool :=
  match n with Fin _ => true | _ => false end.

Definition is_nan (n : num) : bool :=
  match n with NaN => true | _ => false end.

(** [n === 0] on numbers. *)
Definition is_zero (n : num) : bool :=
  match n with Fin q => Qeq_bool q 0 | _ => false end.

(** [a < b] and [a <= b]; false as soon as one side is NaN. *)
Definition n_lt (a b : num) : bool :=
  match a, b with
  | NaN, _ | _, NaN => false
  | PInf, _ => false
  | _, NInf => false
  | NInf, _ => true
  | _, PInf => true
  | Fin x, Fin y => Qltb x y
  end.

Definition n_le (a b : num) : bool :=
  match a, b with
  | NaN, _ | _, NaN => false
  | NInf, _ => true
  | _, PInf => true
  | PInf, _ => false
  | _, NInf => false
  | Fin x, Fin y => Qle_bool x y
  end.

Definition n_neg (a : num) : num :=
  match a with
  | NaN => NaN
  | PInf => NInf
  | NInf => PInf
  | Fin x => fin (- x)
  end.

(** [a + b] *)
Definition n_add (a b : num) : num :=
  match a, b with
  | NaN, _ | _, NaN => NaN
  | PInf, NInf | NInf, PInf => NaN
  | PInf, _ | _, PInf => PInf
  | NInf, _ | _, NInf => NInf
  | Fin x, Fin y => fin (x + y)
  end.

(** [a - b] *)
Definition n_sub (a b : num) : num :=
  match a, b with
  | NaN, _ | _, NaN => NaN
  | PInf, PInf | NInf, NInf => NaN
  | PInf, _ | _, NInf => PInf
  | NInf, _ | _, PInf => NInf
  | Fin x, Fin y => fin (x - y)
  end.

(** The infinity whose sign is the product of the signs of a non-zero
    finite [x] and of [pos] (true for +Infinity). *)
Definition signed_inf (x : Q) (pos : bool) : num :=
  if Bool.eqb (Qltb 0 x) pos then PInf else NInf.

(** [a * b] *)
Definition n_mul (a b : num) : num :=
  match a, b with
  | NaN, _ | _, NaN => NaN
  | Fin x, Fin y => fin (x * y)
  | PInf, PInf | NInf, NInf => PInf
  | PInf, NInf | NInf, PInf => NInf
  | Fin x, PInf | PInf, Fin x => if Qeq_bool x 0 then NaN else signed_inf x true
  | Fin x, NInf | NInf, Fin x => if Qeq_bool x 0 then NaN else signed_inf x false
  end.

(** [a / b]; a zero divisor is read as +0. *)
Definition n_div (a b : num) : num :=
  match a, b with
  | NaN, _ | _, NaN => NaN
  | Fin x, Fin y =>
      if Qeq_bool y 0
      then (if Qeq_bool x 0 then NaN else signed_inf x true)
      else fin (x / y)
  | Fin _, PInf | Fin _, NInf => Fin 0
  | PInf, Fin y => if Qeq_bool y 0 then PInf else signed_inf y true
  | NInf, Fin y => if Qeq_bool y 0 then NInf else signed_inf y false
  | _, _ => NaN
  end.

(** Rounding toward zero. *)
Definition Qtrunc (q : Q) : Z := Z.quot (Qnum q) (Zpos (Qden q)).

(** [a % b]: the remainder has the sign of the dividend. *)
Definition n_rem (a b : num) : num :=
  match a, b with
  | NaN, _ | _, NaN => NaN
  | PInf, _ | NInf, _ => NaN
  | Fin x, PInf | Fin x, NInf => fin x
  | Fin x, Fin y =>
      if Qeq_bool y 0 then NaN
      else fin (x - y * inject_Z (Qtrunc (x / y)))
  end.

(** [Math.max(a, b)] and [Math.min(a, b)] on numbers. *)
Definition Math_max (a b : num) : num :=
  match a, b with
  | NaN, _ | _, NaN => NaN
  | PInf, _ | _, PInf => PInf
  | NInf, NInf => NInf
  | NInf, Fin x | Fin x, NInf => fin x
  | Fin x, Fin y => fin (if Qle_bool x y then y else x)
  end.

Definition Math_min (a b : num) : num :=
  match a, b with
  | NaN, _ | _, NaN => NaN
  | NInf, _ | _, NInf => NInf
  | PInf, PInf => PInf
  | PInf, Fin x | Fin x, PInf => fin x
  | Fin x, Fin y => fin (if Qle_bool x y then x else y)
  end.

(** [Number.isFinite] on a number. *)
Definition Number_isFinite (n : num) : bool := is_finite n.

End JSNumber.
Export JSNumber.

(** ** JavaScript values *)

Module JSValue.

(** The values that reach the two programs: what [JSON.parse] builds, the
    object literals of the source, and [undefined]. *)
Inductive value : Type :=
| VUndef
| VNull
| VBool (b : bool)
| VNum (n : num)
| VStr (s : string)
| VArr (xs : list value)
| VObj (fields : list (string * value)).

Definition vnum (q : Q) : value := VNum (Fin q).

(** Own property [k] of an object, in insertion order. *)
Fixpoint lookup (k : string) (fs : list (string * value)) : value :=
  match fs with
  | [] => VUndef
  | (k', v) :: rest => if String.eqb k k' then v else lookup k rest
  end.

(** [o?.k]: [undefined] when [o] is null or undefined, and the property
    otherwise.  None of the property names read by the source is defined on
    a prototype with a value the source would accept, so a value that is not
    an object has [undefined] there. *)
Definition get (o : value) (k : string) : value :=
  match o with
  | VObj fs => lookup k fs
  | _ => VUndef
  end.

(** [o.k]: a TypeError ([None]) when [o] is null or undefined. *)
Definition getp (o : value) (k : string) : option value :=
  match o with
  | VUndef | VNull => None
  | _ => Some (get o k)
  end.

(** ToBoolean. *)
Definition truthy (v : value) : bool :=
  match v with
  | VUndef | VNull => false
  | VBool b => b
  | VNum n => negb (is_zero n || is_nan n)
  | VStr s => negb (String.eqb s EmptyString)
  | VArr _ | VObj _ => true
  end.

(** [a || b] and [a ?? b]. *)
Definition js_or (a b : value) : value := if truthy a then a else b.

Definition js_nullish (a b : value) : value :=
  match a with
  | VUndef | VNull => b
  | _ => a
  end.

(** [typeof v === "string"] and [Array.isArray(v)]. *)
Definition is_string (v : value) : bool :=
  match v with VStr _ => true | _ => false end.

Definition Array_isArray (v : value) : bool :=
  match v with VArr _ => true | _ => false end.

(** [v === s] for a string literal [s]. *)
Definition str_eq (v : value) (s : string) : bool :=
  match v with VStr s' => String.eqb s' s | _ => false end.

(** Strings are the UTF-8 encoding of the text.  The white space of
    [String.prototype.trim] and of [\s] is, in one byte, TAB, LF, VT, FF, CR
    and space; *)
Definition is_space (c : ascii) : bool :=
  let n := nat_of_ascii c in
  ((9 <=? n) && (n <=? 13) || (n =? 32))%nat.

(** in two bytes U+00A0; *)
Definition is_space2 (a b : ascii) : bool :=
  ((nat_of_ascii a =? 194) && (nat_of_ascii b =? 160))%nat.

(** and in three bytes U+1680, U+2000 to U+200A, U+2028, U+2029, U+202F,
    U+205F, U+3000 and U+FEFF. *)
Definition is_space3 (a b c : ascii) : bool :=
  let x := nat_of_ascii a in
  let y := nat_of_ascii b in
  let z := nat_of_ascii c in
  ((x =? 225) && (y =? 154) && (z =? 128)
   || (x =? 226) && (y =? 128)
      && ((128 <=? z) && (z <=? 138) || (z =? 168) || (z =? 169) || (z =? 175))
   || (x =? 226) && (y =? 129) && (z =? 159)
   || (x =? 227) && (y =? 128) && (z =? 128)
   || (x =? 239) && (y =? 187) && (z =? 191))%nat.

(** The number of bytes of the white space character a text starts with,
    0 when it starts with none; with [back] the text is read from its end,
    last byte first. *)
Definition space_len (back : bool) (s : string) : nat :=
  match s with
  | EmptyString => 0
  | String a r1 =>
      if is_space a then 1
      else match r1 with
           | EmptyString => 0
           | String b r2 =>
               if (if back then is_space2 b a else is_space2 a b) then 2
               else match r2 with
                    | EmptyString => 0
                    | String c _ =>
                        if (if back then is_space3 c b a else is_space3 a b c)
                        then 3 else 0
                    end
           end
  end%nat.

(** The text without the white space it starts with. *)
Fixpoint strip (back : bool) (s : string) {struct s} : string :=
  match s with
  | EmptyString => EmptyString
  | String a r1 =>
      if is_space a then strip back r1
      else match r1 with
           | EmptyString => s
           | String b r2 =>
               if (if back then is_space2 b a else is_space2 a b) then strip back r2
               else match r2 with
                    | EmptyString => s
                    | String c r3 =>
                        if (if back then is_space3 c b a else is_space3 a b c)
                        then strip back r3 else s
                    end
           end
  end.

Definition trim_start (s : string) : string := strip false s.

Definition rev_string (s : string) : string :=
  string_of_list_ascii (rev (list_ascii_of_string s)).

Definition trim_end (s : string) : string :=
  rev_string (strip true (rev_string s)).

Definition trim (s : string) : string := trim_end (trim_start s).

(** The decimal digits of an array index, as a template literal prints it. *)
Definition index_to_string (i : nat) : string :=
  NilEmpty.string_of_uint (Nat.to_uint i).

Fixpoint join (sep : string) (parts : list string) : string :=
  match parts with
  | [] => EmptyString
  | [p] => p
  | p :: rest => p ++ sep ++ join sep rest
  end.

(** The exception monad of the embedding: [None] is a thrown exception. *)
Definition bind {A B : Type} (m : option A) (k : A -> option B) : option B :=
  match m with
  | Some a => k a
  | None => None
  end.

Fixpoint mapM {A B : Type} (f : A -> option B) (xs : list A) : option (list B) :=
  match xs with
  | [] => Some []
  | x :: rest =>
      bind (f x) (fun y => bind (mapM f rest) (fun ys => Some (y :: ys)))
  end.

(** [xs.map((x, i) => f(x, i))], the index counted from [start]. *)
Fixpoint mapi_from {A B : Type} (start : nat) (f : A -> nat -> B) (xs : list A) : list B :=
  match xs with
  | [] => []
  | x :: rest => f x start :: mapi_from (S start) f rest
  end.

End JSValue.
Export JSValue.

Notation "x <- m ;; k" := (bind m (fun x => k))
  (at level 61, m at next level, right associativity).

(** ** Coercions, over the two conversions the language defines on strings *)

(** [o] has an own property named [k]. *)
Definition has_key (k : string) (fs : list (string * value)) : bool :=
  existsb (fun kv => String.eqb (fst kv) k) fs.

Section Coercions.

(** StringToNumber and Number::toString of the language. *)
Variable StringToNumber : string -> num.
Variable NumberToString : num -> string.

(** ToString.  An array prints its elements joined by commas, [null] and
    [undefined] elements as the empty string.  An object is converted by the
    methods [valueOf] and [toString] it has or inherits: the inherited
    [valueOf] returns the object itself and the inherited [toString] returns
    a fixed string, while an own property of these values is never a
    function and is skipped.  So an object with an own property [toString]
    has no method left that returns a primitive: a TypeError ([None]).
    The recursion follows the structure of the value: the stack of the
    engine, which overflows on arrays nested some thousands deep (a
    RangeError), is not modelled, and [shallow] bounds the nesting where a
    statement depends on it. *)
Fixpoint ToString (v : value) : option string :=
  match v with
  | VUndef => Some "undefined"
  | VNull => Some "null"
  | VBool true => Some "true"
  | VBool false => Some "false"
  | VNum n => Some (NumberToString n)
  | VStr s => Some s
  | VArr xs =>
      parts <- mapM (fun x => match x with
                              | VUndef | VNull => Some EmptyString
                              | _ => ToString x
                              end) xs ;;
      Some (join "," parts)
  | VObj fs => if has_key "toString" fs then None else Some "[object Object]"
  end.

(** ToPrimitive: arrays and objects become their string. *)
Definition ToPrimitive (v : value) : option value :=
  match v with
  | VArr _ | VObj _ => s <- ToString v ;; Some (VStr s)
  | _ => Some v
  end.

(** ToNumber, which is what [Number(v)] and the arithmetic operators apply
    to these values; the string of an object reads as NaN. *)
Definition ToNumber (v : value) : option num :=
  match v with
  | VUndef => Some NaN
  | VNull => Some (Fin 0)
  | VBool true => Some (Fin 1)
  | VBool false => Some (Fin 0)
  | VNum n => Some n
  | VStr s => Some (StringToNumber s)
  | VArr _ => s <- ToString v ;; Some (StringToNumber s)
  | VObj fs => if has_key "toString" fs then None else Some NaN
  end.

(** [a + b]: concatenation as soon as one primitive is a string. *)
Definition js_add (a b : value) : option value :=
  pa <- ToPrimitive a ;;
  pb <- ToPrimitive b ;;
  if is_string pa || is_string pb
  then sa <- ToString pa ;;
       sb <- ToString pb ;;
       Some (VStr (sa ++ sb))
  else na <- ToNumber pa ;;
       nb <- ToNumber pb ;;
       Some (VNum (n_add na nb)).

End Coercions.

(** ** The sanitizer (llm.js) *)

Section Sanitizer.

Variable StringToNumber : string -> num.
Variable NumberToString : num -> string.

(** [function safeNumber(n, def)]; [Number(n)] throws on a value that has
    no primitive. *)
Definition safeNumber (n : value) (def : num) : option num :=
  x <- ToNumber StringToNumber NumberToString n ;;
  Some (if Number_isFinite x then x else def).

(** [function clamp(n, min, max)] *)
Definition clamp (n min max : num) : num :=
  Math_max min (Math_min max n).

Definition fallback_text : string :=
  "Here’s a concise explanation with a simple visualization.".

(** [s.trim()] for the receiver the source has checked to be a string. *)
Definition call_trim (v : value) : option value :=
  match v with
  | VStr s => Some (VStr (trim s))
  | _ => None
  end.

(** The [text] of [sanitizeAnswer]:
    [typeof ans?.text === "string" && ans.text.trim() ? ans.text.trim() : "..."] *)
Definition sanitize_text (ans : value) : option value :=
  if is_string (get ans "text")
  then t <- getp ans "text" ;;
       s <- call_trim t ;;
       if truthy s
       then t' <- getp ans "text" ;; call_trim t'
       else Some (VStr fallback_text)
  else Some (VStr fallback_text).

(** The callback mapped over [l.animations]. *)
Definition sanitize_animation (duration : num) (a : value) : option value :=
  if str_eq (get a "property") "orbit"
  then
    cx <- getp a "centerX" ;;
    ncx <- safeNumber cx (Fin 320) ;;
    cy <- getp a "centerY" ;;
    ncy <- safeNumber cy (Fin 200) ;;
    rad <- getp a "radius" ;;
    nrad <- safeNumber rad (Fin 100) ;;
    d <- getp a "duration" ;;
    nd <- safeNumber d duration ;;
    Some (VObj [ ("property", VStr "orbit");
                 ("centerX", VNum (clamp ncx (Fin 0) (Fin 640)));
                 ("centerY", VNum (clamp ncy (Fin 0) (Fin 400)));
                 ("radius", VNum (clamp nrad (Fin 10) (Fin 250)));
                 ("duration", VNum (clamp nd (Fin 500) (Fin 10000))) ])
  else
    ns <- safeNumber (get a "start") (Fin 0) ;;
    let start := clamp ns (Fin 0) (n_sub duration (Fin 100)) in
    ne <- safeNumber (get a "end") duration ;;
    let end_ := clamp ne (n_add start (Fin 100)) duration in
    nfrom <- safeNumber (get a "from") (Fin 100) ;;
    nto <- safeNumber (get a "to") (Fin 500) ;;
    Some (VObj [ ("property",
                  VStr (if str_eq (get a "property") "y" then "y"
                        else if str_eq (get a "property") "r" then "r"
                        else "x"));
                 ("from", VNum nfrom);
                 ("to", VNum nto);
                 ("start", VNum start);
                 ("end", VNum end_) ]).

(** [Array.isArray(l.animations) ? l.animations.map(...) : []] *)
Definition sanitize_animations (duration : num) (la : value) : option (list value) :=
  match la with
  | VArr xs => mapM (sanitize_animation duration) xs
  | _ => Some []
  end.

(** The callback mapped over the layers: [(l, i) => ...]; an entry of
    unknown type becomes [null]. *)
Definition sanitize_layer (duration : num) (l : value) (i : nat) : option value :=
  let id := js_or (get l "id") (VStr ("layer_" ++ index_to_string i)) in
  let type := get l "type" in
  if str_eq type "circle" then
    lp <- getp l "props" ;;
    let p := js_or lp (VObj []) in
    px <- getp p "x" ;;
    nx <- safeNumber px (Fin 160) ;;
    py <- getp p "y" ;;
    ny <- safeNumber py (Fin 200) ;;
    pr <- getp p "r" ;;
    nr <- safeNumber pr (Fin 16) ;;
    pfill <- getp p "fill" ;;
    la <- getp l "animations" ;;
    anims <- sanitize_animations duration la ;;
    Some (VObj [ ("id", id); ("type", type);
                 ("props",
                  VObj [ ("x", VNum (clamp nx (Fin 0) (Fin 640)));
                         ("y", VNum (clamp ny (Fin 0) (Fin 400)));
                         ("r", VNum (clamp nr (Fin 1) (Fin 120)));
                         ("fill", if is_string pfill then pfill else VStr "#3498db") ]);
                 ("animations", VArr anims) ])
  else if str_eq type "arrow" then
    lp <- getp l "props" ;;
    let p := js_or lp (VObj []) in
    px <- getp p "x" ;;
    nx <- safeNumber px (Fin 90) ;;
    py <- getp p "y" ;;
    ny <- safeNumber py (Fin 220) ;;
    pdx <- getp p "dx" ;;
    ndx <- safeNumber pdx (Fin 40) ;;
    pdy <- getp p "dy" ;;
    ndy <- safeNumber pdy (Fin 0) ;;
    pcolor <- getp p "color" ;;
    Some (VObj [ ("id", id); ("type", type);
                 ("props",
                  VObj [ ("x", VNum (clamp nx (Fin 0) (Fin 640)));
                         ("y", VNum (clamp ny (Fin 0) (Fin 400)));
                         ("dx", VNum (clamp ndx (Fin (-640)) (Fin 640)));
                         ("dy", VNum (clamp ndy (Fin (-400)) (Fin 400)));
                         ("color", if is_string pcolor then pcolor else VStr "#e74c3c") ]);
                 ("animations", VArr []) ])
  else if str_eq type "lottie" then
    lp <- getp l "props" ;;
    let p := js_or lp (VObj []) in
    purl <- getp p "url" ;;
    px <- getp p "x" ;;
    nx <- safeNumber px (Fin 430) ;;
    py <- getp p "y" ;;
    ny <- safeNumber py (Fin 140) ;;
    pw <- getp p "width" ;;
    nw <- safeNumber pw (Fin 180) ;;
    ph <- getp p "height" ;;
    nh <- safeNumber ph (Fin 180) ;;
    ploop <- getp p "loop" ;;
    Some (VObj [ ("id", id); ("type", type);
                 ("props",
                  VObj [ ("url", if is_string purl then purl else VStr "/animations/dna.json");
                         ("x", VNum (clamp nx (Fin 0) (Fin 640)));
                         ("y", VNum (clamp ny (Fin 0) (Fin 400)));
                         ("width", VNum (clamp nw (Fin 40) (Fin 640)));
                         ("height", VNum (clamp nh (Fin 40) (Fin 400)));
                         ("loop", VBool (truthy (js_nullish ploop (VBool true)))) ]);
                 ("animations", VArr []) ])
  else Some VNull.

(** [xs.map((l, i) => ...)] for a callback that may throw. *)
Fixpoint map_layers (duration : num) (start : nat) (xs : list value) : option (list value) :=
  match xs with
  | [] => Some []
  | l :: rest =>
      r <- sanitize_layer duration l start ;;
      rs <- map_layers duration (S start) rest ;;
      Some (r :: rs)
  end.

(** The layers kept from the input: mapped, then [.filter(Boolean)]. *)
Definition kept_layers (duration : num) (ls : value) : option (list value) :=
  mapped <- map_layers duration 0 (match ls with VArr xs => xs | _ => [] end) ;;
  Some (filter truthy mapped).

(** The scene installed when nothing valid is left. *)
Definition default_layers (duration : num) : list value :=
  [ VObj [ ("id", VStr "ball"); ("type", VStr "circle");
           ("props", VObj [ ("x", vnum 120); ("y", vnum 220); ("r", vnum 18);
                            ("fill", VStr "#3498db") ]);
           ("animations",
            VArr [ VObj [ ("property", VStr "x"); ("from", vnum 120); ("to", vnum 520);
                          ("start", vnum 0);
                          ("end", VNum (n_sub duration (Fin 1000))) ] ]) ];
    VObj [ ("id", VStr "arrow"); ("type", VStr "arrow");
           ("props", VObj [ ("x", vnum 90); ("y", vnum 220); ("dx", vnum 40);
                            ("dy", vnum 0); ("color", VStr "#e74c3c") ]);
           ("animations", VArr []) ] ].

(** [function sanitizeAnswer(ans)] *)
Definition sanitizeAnswer (ans : value) : option value :=
  text <- sanitize_text ans ;;
  let vis := js_or (get ans "visualization") (VObj []) in
  vd <- getp vis "duration" ;;
  nd <- safeNumber vd (Fin 5000) ;;
  let duration := clamp nd (Fin 1000) (Fin 10000) in
  vf <- getp vis "fps" ;;
  nf <- safeNumber vf (Fin 30) ;;
  let fps := clamp nf (Fin 1) (Fin 60) in
  vl <- getp vis "layers" ;;
  kept <- kept_layers duration vl ;;
  let layers := match kept with [] => default_layers duration | _ => kept end in
  vid <- getp vis "id" ;;
  Some (VObj [ ("text", text);
               ("visualization",
                VObj [ ("id", js_or vid (VStr "vis_safe"));
                       ("duration", VNum duration);
                       ("fps", VNum fps);
                       ("layers", VArr layers) ]) ]).

End Sanitizer.

(** ** [JSON.parse] *)

Module JSON.

Local Open Scope list_scope.
Local Open Scope char_scope.

Definition dquote : ascii := ascii_of_nat 34.

Definition is_ws (c : ascii) : bool :=
  let n := nat_of_ascii c in
  ((n =? 32) || (n =? 9) || (n =? 10) || (n =? 13))%nat.

Fixpoint skip_ws (s : list ascii) : list ascii :=
  match s with
  | c :: rest => if is_ws c then skip_ws rest else s
  | [] => []
  end.

Definition is_digit (c : ascii) : bool :=
  let n := nat_of_ascii c in ((48 <=? n) && (n <=? 57))%nat.

Definition digit_val (c : ascii) : Z := Z.of_nat (nat_of_ascii c - 48).

Fixpoint take_digits (s : list ascii) : list ascii * list ascii :=
  match s with
  | c :: rest =>
      if is_digit c
      then let (ds, r) := take_digits rest in (c :: ds, r)
      else ([], s)
  | [] => ([], [])
  end.

Definition digits_to_Z (ds : list ascii) : Z :=
  fold_left (fun acc c => (acc * 10 + digit_val c)%Z) ds 0%Z.

(** [10^e] as a rational. *)
Definition pow10 (e : Z) : Q :=
  match e with
  | Z0 => 1
  | Zpos p => inject_Z (Z.pow_pos 10 p)
  | Zneg p => 1 # (Pos.pow 10 p)
  end.

(** A literal at or beyond [2^1024 - 2^970], half a unit in the last place
    above the largest double, reads as an infinity; a smaller one keeps its
    exact decimal value. *)
Definition overflow_threshold : Q := inject_Z (2 ^ 1024 - 2 ^ 970).

(** A JSON number: an optional minus sign; the digit 0 or a digit 1-9
    followed by digits; an optional fraction (a dot and one digit or more);
    an optional exponent (e or E, an optional sign, one digit or more). *)
Definition parse_number (s : list ascii) : option (num * list ascii) :=
  let (neg, s1) := match s with
                   | c :: r => if Ascii.eqb c "-" then (true, r) else (false, s)
                   | [] => (false, s)
                   end in
  let (int, s2) := match s1 with
                   | c :: r => if Ascii.eqb c "0" then ([c], r) else take_digits s1
                   | [] => ([], [])
                   end in
  match int with
  | [] => None
  | _ =>
      let frac_part :=
        match s2 with
        | c :: r =>
            if Ascii.eqb c "."
            then let (fs, r') := take_digits r in
                 match fs with [] => None | _ => Some (fs, r') end
            else Some ([], s2)
        | [] => Some ([], s2)
        end in
      match frac_part with
      | None => None
      | Some (frac, s3) =>
          let exp_part :=
            match s3 with
            | c :: r =>
                if Ascii.eqb c "e" || Ascii.eqb c "E"
                then
                  let (eneg, r1) := match r with
                                    | d :: r' =>
                                        if Ascii.eqb d "-" then (true, r')
                                        else if Ascii.eqb d "+" then (false, r')
                                        else (false, r)
                                    | [] => (false, r)
                                    end in
                  let (es, r2) := take_digits r1 in
                  match es with
                  | [] => None
                  | _ => Some ((if eneg then - digits_to_Z es else digits_to_Z es)%Z, r2)
                  end
                else Some (0%Z, s3)
            | [] => Some (0%Z, s3)
            end in
          match exp_part with
          | None => None
          | Some (e, s4) =>
              let mant := inject_Z (digits_to_Z (int ++ frac)) in
              let q := mant * pow10 (e - Z.of_nat (List.length frac))%Z in
              Some (if Qle_bool overflow_threshold q
                    then (if neg then NInf else PInf)
                    else fin (if neg then - q else q), s4)
          end
      end
  end.

Definition hex_val (c : ascii) : option nat :=
  let n := nat_of_ascii c in
  if ((48 <=? n) && (n <=? 57))%nat then Some (n - 48)%nat
  else if ((97 <=? n) && (n <=? 102))%nat then Some (n - 87)%nat
  else if ((65 <=? n) && (n <=? 70))%nat then Some (n - 55)%nat
  else None.

(** The UTF-8 bytes of a code unit below 0x10000. *)
Definition utf8 (n : nat) : list ascii :=
  if (n <? 128)%nat then [ascii_of_nat n]
  else if (n <? 2048)%nat
       then [ascii_of_nat (192 + n / 64)%nat; ascii_of_nat (128 + n mod 64)%nat]
       else [ascii_of_nat (224 + n / 4096)%nat;
             ascii_of_nat (128 + (n / 64) mod 64)%nat;
             ascii_of_nat (128 + n mod 64)%nat].

(** The characters of a string literal after its opening quote. *)
Fixpoint parse_chars (s : list ascii) : option (list ascii * list ascii) :=
  match s with
  | [] => None
  | c :: rest =>
      if Ascii.eqb c dquote then Some ([], rest)
      else if Ascii.eqb c "\" then
        match rest with
        | [] => None
        | e :: rest' =>
            let simple (x : ascii) :=
              match parse_chars rest' with
              | Some (cs, r) => Some (x :: cs, r)
              | None => None
              end in
            if Ascii.eqb e dquote then simple dquote
            else if Ascii.eqb e "\" then simple "\"
            else if Ascii.eqb e "/" then simple "/"
            else if Ascii.eqb e "b" then simple (ascii_of_nat 8)
            else if Ascii.eqb e "f" then simple (ascii_of_nat 12)
            else if Ascii.eqb e "n" then simple (ascii_of_nat 10)
            else if Ascii.eqb e "r" then simple (ascii_of_nat 13)
            else if Ascii.eqb e "t" then simple (ascii_of_nat 9)
            else if Ascii.eqb e "u" then
              match rest' with
              | h1 :: h2 :: h3 :: h4 :: rest'' =>
                  match hex_val h1, hex_val h2, hex_val h3, hex_val h4 with
                  | Some a, Some b, Some c', Some d =>
                      match parse_chars rest'' with
                      | Some (cs, r) =>
                          Some (utf8 (((a * 16 + b) * 16 + c') * 16 + d)%nat ++ cs, r)
                      | None => None
                      end
                  | _, _, _, _ => None
                  end
              | _ => None
              end
            else None
        end
      else if (nat_of_ascii c <? 32)%nat then None
      else match parse_chars rest with
           | Some (cs, r) => Some (c :: cs, r)
           | None => None
           end
  end.

(** Defining a property: a repeated key keeps its place and takes the
    last value. *)
Fixpoint set_field (k : string) (v : value) (fs : list (string * value)) : list (string * value) :=
  match fs with
  | [] => [(k, v)]
  | (k', v') :: rest =>
      if String.eqb k k' then (k, v) :: rest else (k', v') :: set_field k v rest
  end.

Fixpoint starts_with (p s : list ascii) : option (list ascii) :=
  match p, s with
  | [], _ => Some s
  | a :: p', b :: s' => if Ascii.eqb a b then starts_with p' s' else None
  | _ :: _, [] => None
  end.

Fixpoint parse_value (fuel : nat) (s : list ascii) : option (value * list ascii) :=
  match fuel with
  | O => None
  | S fuel' =>
      match skip_ws s with
      | [] => None
      | c :: r =>
          if Ascii.eqb c "{" then
            match skip_ws r with
            | c' :: r' =>
                if Ascii.eqb c' "}" then Some (VObj [], r')
                else parse_members fuel' r []
            | [] => None
            end
          else if Ascii.eqb c "[" then
            match skip_ws r with
            | c' :: r' =>
                if Ascii.eqb c' "]" then Some (VArr [], r')
                else parse_elements fuel' r []
            | [] => None
            end
          else if Ascii.eqb c dquote then
            match parse_chars r with
            | Some (cs, r') => Some (VStr (string_of_list_ascii cs), r')
            | None => None
            end
          else if Ascii.eqb c "t" then
            match starts_with (list_ascii_of_string "rue") r with
            | Some r' => Some (VBool true, r')
            | None => None
            end
          else if Ascii.eqb c "f" then
            match starts_with (list_ascii_of_string "alse") r with
            | Some r' => Some (VBool false, r')
            | None => None
            end
          else if Ascii.eqb c "n" then
            match starts_with (list_ascii_of_string "ull") r with
            | Some r' => Some (VNull, r')
            | None => None
            end
          else
            match parse_number (c :: r) with
            | Some (n, r') => Some (VNum n, r')
            | None => None
            end
      end
  end
with parse_elements (fuel : nat) (s : list ascii) (acc : list value)
  : option (value * list ascii) :=
  match fuel with
  | O => None
  | S fuel' =>
      match parse_value fuel' s with
      | None => None
      | Some (v, r) =>
          match skip_ws r with
          | c :: r' =>
              if Ascii.eqb c "," then parse_elements fuel' r' (acc ++ [v])
              else if Ascii.eqb c "]" then Some (VArr (acc ++ [v]), r')
              else None
          | [] => None
          end
      end
  end
with parse_members (fuel : nat) (s : list ascii) (acc : list (string * value))
  : option (value * list ascii) :=
  match fuel with
  | O => None
  | S fuel' =>
      match skip_ws s with
      | q :: r0 =>
          if Ascii.eqb q dquote then
            match parse_chars r0 with
            | None => None
            | Some (ks, r1) =>
                match skip_ws r1 with
                | colon :: r2 =>
                    if Ascii.eqb colon ":" then
                      match parse_value fuel' r2 with
                      | None => None
                      | Some (v, r3) =>
                          let acc' := set_field (string_of_list_ascii ks) v acc in
                          match skip_ws r3 with
                          | c :: r4 =>
                              if Ascii.eqb c "," then parse_members fuel' r4 acc'
                              else if Ascii.eqb c "}" then Some (VObj acc', r4)
                              else None
                          | [] => None
                          end
                      end
                    else None
                | [] => None
                end
            end
          else None
      | [] => None
      end
  end.

(** [JSON.parse(text)]; [None] is its SyntaxError.  Between two calls of
    the parser on the way down at most one consumes no character, so twice
    the length of the text bounds the depth. *)
Definition parse (text : string) : option value :=
  let s := list_ascii_of_string text in
  match parse_value (2 * List.length s + 2) s with
  | Some (v, r) => match skip_ws r with [] => Some v | _ => None end
  | None => None
  end.

End JSON.

(** ** The extractor (llm.js) *)

Section Extractor.

Local Open Scope char_scope.

(** [text.match(/\{[\s\S]*\}$/)]: the match starts at the first opening
    brace and runs to the end of the text, which must be a closing brace
    ([$] without the m flag is the end of the input only). *)
Fixpoint from_first_brace (s : list ascii) : option (list ascii) :=
  match s with
  | [] => None
  | c :: rest => if Ascii.eqb c "{" then Some s else from_first_brace rest
  end.

Definition match_braces (text : string) : option string :=
  match from_first_brace (list_ascii_of_string text) with
  | Some m =>
      match rev m with
      | c :: _ => if Ascii.eqb c "}" then Some (string_of_list_ascii m) else None
      | [] => None
      end
  | None => None
  end.

(** [function extractJSON(text)] *)
Definition extractJSON (text : value) : value :=
  if negb (truthy text) || negb (is_string text) then VNull
  else
    match text with
    | VStr s =>
        match JSON.parse s with
        | Some v => v
        | None =>
            match match_braces s with
            | Some m =>
                match JSON.parse m with
                | Some v => v
                | None => VNull
                end
            | None => VNull
            end
        end
    | _ => VNull
    end.

Definition lower (c : ascii) : ascii :=
  let n := nat_of_ascii c in
  if ((65 <=? n) && (n <=? 90))%nat then ascii_of_nat (n + 32) else c.

Fixpoint starts_with_ci (p s : list ascii) : option (list ascii) :=
  match p, s with
  | [], _ => Some s
  | a :: p', b :: s' => if Ascii.eqb a (lower b) then starts_with_ci p' s' else None
  | _ :: _, [] => None
  end.

(** [raw.replace(/^```json\s*/i, empty)]: a leading fence marker with the
    json tag, in any letter case, and the white space after it. *)
Definition strip_fence_head (raw : string) : string :=
  match starts_with_ci (list_ascii_of_string "```json") (list_ascii_of_string raw) with
  | Some rest => trim_start (string_of_list_ascii rest)
  | None => raw
  end.

(** [s.replace(/```$/, empty)]: a fence marker that ends the text. *)
Definition strip_fence_tail (s : string) : string :=
  match rev (list_ascii_of_string s) with
  | a :: b :: c :: rest =>
      if Ascii.eqb a "`" && Ascii.eqb b "`" && Ascii.eqb c "`"
      then string_of_list_ascii (rev rest)
      else s
  | _ => s
  end.

(** The tolerant parsing of [askOllama], from the body [data] of the
    response on; [None] is [throw new Error("Bad JSON from Ollama")]. *)
Definition askOllama_parse (data : value) : option value :=
  let raw :=
    if truthy data && is_string (get data "response")
    then match get data "response" with
         | VStr s => trim s
         | _ => EmptyString
         end
    else EmptyString in
  let parsed := extractJSON (VStr raw) in
  let parsed :=
    if negb (truthy parsed)
    then extractJSON (VStr (strip_fence_tail (strip_fence_head raw)))
    else parsed in
  if negb (truthy parsed) then None else Some parsed.

End Extractor.

(** ** The evaluator: the [draw] callback of [VisualizationCanvas] (App.tsx) *)

(** The calls [draw] makes on the 2D context, with the arguments as the
    context receives them (converted to numbers).  What the canvas then does
    with a call is outside the model: the calls are recorded as made.  Of
    these calls only [arc] can throw, on a negative radius; [accepted] says
    which calls the canvas accepts, and the statements about the frames
    that are shown are made of calls it accepts. *)
Inductive cmd : Type :=
| clearRect (x y w h : num)
| beginPath
| set_fillStyle (v : value)
| set_strokeStyle (v : value)
| set_lineWidth (n : num)
| arc (x y r a0 a1 : num)
| moveTo (x y : num)
| lineTo (x y : num)
| stroke
| closePath
| fill.

(** The resolved properties of a layer that is drawn. *)
Inductive RenderState : Type :=
| RCircle (x y r fillv : value)
| RArrow (x y dx dy color : value).

Section Evaluator.

Variable StringToNumber : string -> num.
Variable NumberToString : num -> string.

(** [Math.cos], [Math.sin] and [Math.PI] on finite numbers, and
    [Math.atan2]: the language leaves their values to the implementation. *)
Variable cos sin : Q -> Q.
Variable PI : Q.
Variable atan2 : num -> num -> num.

Let Number_ (v : value) : option num := ToNumber StringToNumber NumberToString v.
Let add_ (a b : value) : option value := js_add StringToNumber NumberToString a b.

Definition Math_cos (n : num) : num :=
  match n with Fin q => fin (cos q) | _ => NaN end.

Definition Math_sin (n : num) : num :=
  match n with Fin q => fin (sin q) | _ => NaN end.

(** [const orbitDur = (a as OrbitAnim).duration || dur] *)
Definition orbit_period (aduration dur : value) : value := js_or aduration dur.

(** [const p = ((t % orbitDur) / orbitDur) || 0] *)
Definition orbit_phase (t : num) (orbitDur : value) : option value :=
  n1 <- Number_ orbitDur ;;
  n2 <- Number_ orbitDur ;;
  Some (js_or (VNum (n_div (n_rem t n1) n2)) (vnum 0)).

(** [const ang = p * Math.PI * 2] *)
Definition orbit_angle (p : value) : option num :=
  np <- Number_ p ;;
  Some (n_mul (n_mul np (Fin PI)) (Fin 2)).

(** [const span = Math.max(end - start, 1)] and
    [const prog = Math.min(Math.max((t - start) / span, 0), 1)] *)
Definition linear_progress (t : num) (start end_ : value) : option num :=
  ne <- Number_ end_ ;;
  ns <- Number_ start ;;
  let span := Math_max (n_sub ne ns) (Fin 1) in
  ns' <- Number_ start ;;
  Some (Math_min (Math_max (n_div (n_sub t ns') span) (Fin 0)) (Fin 1)).

(** One turn of [for (const a of anims)] on the variables [x], [y], [r]. *)
Definition apply_animation (dur : value) (t : num) (st : value * value * value)
           (a : value) : option (value * value * value) :=
  let '(x, y, r) := st in
  prop <- getp a "property" ;;
  if str_eq prop "orbit" then
    ad <- getp a "duration" ;;
    let orbitDur := orbit_period ad dur in
    p <- orbit_phase t orbitDur ;;
    ang <- orbit_angle p ;;
    cx <- getp a "centerX" ;;
    rad <- getp a "radius" ;;
    nrad <- Number_ rad ;;
    x' <- add_ cx (VNum (n_mul nrad (Math_cos ang))) ;;
    cy <- getp a "centerY" ;;
    rad' <- getp a "radius" ;;
    nrad' <- Number_ rad' ;;
    y' <- add_ cy (VNum (n_mul nrad' (Math_sin ang))) ;;
    Some (x', y', r)
  else
    astart <- getp a "start" ;;
    let start := js_nullish astart (vnum 0) in
    aend <- getp a "end" ;;
    let end_ := js_nullish aend dur in
    prog <- linear_progress t start end_ ;;
    afrom <- getp a "from" ;;
    ato <- getp a "to" ;;
    afrom' <- getp a "from" ;;
    nto <- Number_ ato ;;
    nfrom <- Number_ afrom' ;;
    val <- add_ afrom (VNum (n_mul (n_sub nto nfrom) prog)) ;;
    prop' <- getp a "property" ;;
    Some (if str_eq prop' "x" then val else x,
          if str_eq prop' "y" then val else y,
          if str_eq prop' "r" then val else r).

Fixpoint run_animations (dur : value) (t : num) (anims : list value)
         (st : value * value * value) : option (value * value * value) :=
  match anims with
  | [] => Some st
  | a :: rest =>
      st' <- apply_animation dur t st a ;;
      run_animations dur t rest st'
  end.

(** What [for ... of] iterates: the elements of an array, the characters
    of a string; anything else is not iterable. *)
Definition iterate (v : value) : option (list value) :=
  match v with
  | VArr xs => Some xs
  | VStr s => Some (map (fun c => VStr (String c EmptyString)) (list_ascii_of_string s))
  | _ => None
  end.

(** The properties one layer is drawn with at time [t]; [Some None] for a
    layer the callback passes over. *)
Definition resolve_layer (dur : value) (t : num) (layer : value)
  : option (option RenderState) :=
  ty <- getp layer "type" ;;
  if str_eq ty "circle" then
    props <- getp layer "props" ;;
    x <- getp props "x" ;;
    y <- getp props "y" ;;
    r <- getp props "r" ;;
    fillv <- getp props "fill" ;;
    la <- getp layer "animations" ;;
    anims <- iterate (js_nullish la (VArr [])) ;;
    st <- run_animations dur t anims (x, y, r) ;;
    let '(x', y', r') := st in
    Some (Some (RCircle x' y' r' fillv))
  else if str_eq ty "arrow" then
    props <- getp layer "props" ;;
    x <- getp props "x" ;;
    y <- getp props "y" ;;
    dx <- getp props "dx" ;;
    dy <- getp props "dy" ;;
    color <- getp props "color" ;;
    Some (Some (RArrow x y dx dy color))
  else Some None.

(** The context calls that draw one resolved layer; the context converts
    the arguments of its methods to numbers. *)
Definition paint (s : RenderState) : option (list cmd) :=
  match s with
  | RCircle x y r fillv =>
      nx <- Number_ x ;;
      ny <- Number_ y ;;
      nr <- Number_ r ;;
      Some [ beginPath;
             set_fillStyle (js_or fillv (VStr "#3498db"));
             arc nx ny nr (Fin 0) (n_mul (Fin PI) (Fin 2));
             fill ]
  | RArrow x y dx dy color =>
      nx <- Number_ x ;;
      ny <- Number_ y ;;
      xdx <- add_ x dx ;;
      nxdx <- Number_ xdx ;;
      ydy <- add_ y dy ;;
      nydy <- Number_ ydy ;;
      ndy <- Number_ dy ;;
      ndx <- Number_ dx ;;
      let ang := atan2 ndy ndx in
      x2 <- add_ x dx ;;
      y2 <- add_ y dy ;;
      nx2 <- Number_ x2 ;;
      ny2 <- Number_ y2 ;;
      let L := Fin 10 in
      let sixth := n_div (Fin PI) (Fin 6) in
      Some [ set_strokeStyle (js_or color (VStr "#e74c3c"));
             set_lineWidth (Fin (5 # 2));
             beginPath;
             moveTo nx ny;
             lineTo nxdx nydy;
             stroke;
             beginPath;
             moveTo nx2 ny2;
             lineTo (n_sub nx2 (n_mul L (Math_cos (n_sub ang sixth))))
                    (n_sub ny2 (n_mul L (Math_sin (n_sub ang sixth))));
             lineTo (n_sub nx2 (n_mul L (Math_cos (n_add ang sixth))))
                    (n_sub ny2 (n_mul L (Math_sin (n_add ang sixth))));
             closePath;
             set_fillStyle (js_or color (VStr "#e74c3c"));
             fill ]
  end.

(** [const dur = spec.duration || 4000] *)
Definition spec_dur (spec : value) : option value :=
  sd <- getp spec "duration" ;;
  Some (js_or sd (vnum 4000)).

(** What [(spec.layers ?? []).forEach] visits; only an array has the method. *)
Definition spec_layers (spec : value) : option (list value) :=
  sl <- getp spec "layers" ;;
  match js_nullish sl (VArr []) with
  | VArr xs => Some xs
  | _ => None
  end.

Definition drawn (per_layer : list (option RenderState)) : list RenderState :=
  flat_map (fun o => match o with Some s => [s] | None => [] end) per_layer.

(** The render states of [spec] at elapsed time [elapsed] (the
    [now - startTime] of the callback): one per layer that is drawn, in
    the order of [spec.layers]. *)
Definition evaluate (spec : value) (elapsed : num) : option (list RenderState) :=
  dur <- spec_dur spec ;;
  nd <- Number_ dur ;;
  let t := Math_min elapsed nd in
  layers <- spec_layers spec ;;
  per_layer <- mapM (resolve_layer dur t) layers ;;
  Some (drawn per_layer).

(** All the context calls of one frame. *)
Definition frame (spec : value) (elapsed : num) : option (list cmd) :=
  states <- evaluate spec elapsed ;;
  calls <- mapM paint states ;;
  Some (clearRect (Fin 0) (Fin 0) (Fin 700) (Fin 400) :: List.concat calls).

(** [const draw = (now) => ...] with its captured [startTime]: the new
    [startTime], the calls made, and whether another frame is requested. *)
Definition draw (spec : value) (isPlaying : bool) (startTime now : num)
  : option (num * list cmd * bool) :=
  let startTime' := if negb (truthy (VNum startTime)) then now else startTime in
  dur <- spec_dur spec ;;
  nd <- Number_ dur ;;
  let t := Math_min (n_sub now startTime') nd in
  cmds <- frame spec (n_sub now startTime') ;;
  nd' <- Number_ dur ;;
  Some (startTime', cmds, n_lt t nd' && isPlaying).

End Evaluator.

(** ** The invariants of a visualization spec, as decidable predicates *)

Module Invariants.

(** A finite number within [lo, hi]. *)
Definition in_range (v : value) (lo hi : Q) : bool :=
  match v with
  | VNum (Fin q) => Qle_bool lo q && Qle_bool q hi
  | _ => false
  end.

Definition finite_value (v : value) : bool :=
  match v with
  | VNum (Fin _) => true
  | _ => false
  end.

Definition is_bool (v : value) : bool :=
  match v with VBool _ => true | _ => false end.

Definition elements (v : value) : list value :=
  match v with VArr xs => xs | _ => [] end.

(** The props of a layer within their clamp ranges, by variant. *)
Definition props_ok (layer : value) : bool :=
  let p := get layer "props" in
  if str_eq (get layer "type") "circle" then
    in_range (get p "x") 0 640 && in_range (get p "y") 0 400
    && in_range (get p "r") 1 120 && is_string (get p "fill")
  else if str_eq (get layer "type") "arrow" then
    in_range (get p "x") 0 640 && in_range (get p "y") 0 400
    && in_range (get p "dx") (-640 # 1) 640 && in_range (get p "dy") (-400 # 1) 400
    && is_string (get p "color")
  else if str_eq (get layer "type") "lottie" then
    in_range (get p "x") 0 640 && in_range (get p "y") 0 400
    && in_range (get p "width") 40 640 && in_range (get p "height") 40 400
    && is_string (get p "url") && is_bool (get p "loop")
  else false.

(** The window of a Linear animation: [0 <= start] and
    [start + 100 <= end <= durationMs]. *)
Definition window_ok (D : Q) (a : value) : bool :=
  match get a "start", get a "end" with
  | VNum (Fin s), VNum (Fin e) =>
      Qle_bool 0 s && Qle_bool (s + 100) e && Qle_bool e D
  | _, _ => false
  end.

Definition is_orbit (a : value) : bool := str_eq (get a "property") "orbit".

(** An animation of a sanitized layer: an Orbit within its ranges, or a
    Linear one on x, y or r with finite targets and a valid window. *)
Definition animation_ok (D : Q) (a : value) : bool :=
  if is_orbit a then
    in_range (get a "centerX") 0 640 && in_range (get a "centerY") 0 400
    && in_range (get a "radius") 10 250 && in_range (get a "duration") 500 10000
  else
    (str_eq (get a "property") "x" || str_eq (get a "property") "y"
     || str_eq (get a "property") "r")
    && finite_value (get a "from") && finite_value (get a "to")
    && window_ok D a.

(** Only circles carry animations. *)
Definition animations_ok (D : Q) (layer : value) : bool :=
  match get layer "animations" with
  | VArr anims =>
      if str_eq (get layer "type") "circle"
      then forallb (animation_ok D) anims
      else match anims with [] => true | _ => false end
  | _ => false
  end.

Definition layer_ok (D : Q) (layer : value) : bool :=
  props_ok layer && animations_ok D layer.

Definition nonempty_string (v : value) : bool :=
  match v with
  | VStr s => negb (String.eqb s EmptyString)
  | _ => false
  end.

Definition layers_of (spec : value) : list value := elements (get spec "layers").

(** Every invariant the data model lists for a spec: a non-empty string
    id, the duration and fps ranges, layers that are not empty, props
    within their ranges and valid animations. *)
Definition spec_ok (spec : value) : bool :=
  nonempty_string (get spec "id")
  && in_range (get spec "duration") 1000 10000
  && in_range (get spec "fps") 1 60
  && match layers_of spec with [] => false | _ => true end
  && match get spec "duration" with
     | VNum (Fin D) => forallb (layer_ok D) (layers_of spec)
     | _ => false
     end.

Definition layer_ids (spec : value) : list value :=
  map (fun l => get l "id") (layers_of spec).

(** Every numeric field of a layer and of its animations is finite. *)
Definition numbers_finite (layer : value) : bool :=
  let p := get layer "props" in
  (if str_eq (get layer "type") "circle" then
     finite_value (get p "x") && finite_value (get p "y") && finite_value (get p "r")
   else if str_eq (get layer "type") "arrow" then
     finite_value (get p "x") && finite_value (get p "y")
     && finite_value (get p "dx") && finite_value (get p "dy")
   else
     finite_value (get p "x") && finite_value (get p "y")
     && finite_value (get p "width") && finite_value (get p "height"))
  && forallb (fun a =>
                if is_orbit a then
                  finite_value (get a "centerX") && finite_value (get a "centerY")
                  && finite_value (get a "radius") && finite_value (get a "duration")
                else
                  finite_value (get a "from") && finite_value (get a "to")
                  && finite_value (get a "start") && finite_value (get a "end"))
             (elements (get layer "animations")).

Definition spec_numbers_finite (spec : value) : bool :=
  finite_value (get spec "duration") && finite_value (get spec "fps")
  && forallb numbers_finite (layers_of spec).

(** A value every part of which converts to a primitive: no object in it
    has an own property named [toString]. *)
Fixpoint plain (v : value) : bool :=
  match v with
  | VArr xs => forallb plain xs
  | VObj fs =>
      negb (has_key "toString" fs)
      && forallb (fun kv => plain (snd kv)) fs
  | _ => true
  end.

(** The answer the sanitizer returned: its [visualization]. *)
Definition visualization (answer : value) : value := get answer "visualization".

(** The sanitizer returned, and what it returned satisfies every invariant. *)
Definition returned_ok (result : option value) : bool :=
  match result with
  | Some answer => spec_ok (visualization answer)
  | None => false
  end.

End Invariants.
Export Invariants.

(** ** Values in the layout the sanitizer writes, and the inputs of the examples *)

Module Scenes.

Definition obj_spec (id : value) (duration fps : num) (layers : list value) : value :=
  VObj [ ("id", id); ("duration", VNum duration); ("fps", VNum fps);
         ("layers", VArr layers) ].

Definition circle_layer (id : value) (x y r : Q) (fillv : string) (anims : list value) : value :=
  VObj [ ("id", id); ("type", VStr "circle");
         ("props", VObj [ ("x", vnum x); ("y", vnum y); ("r", vnum r);
                          ("fill", VStr fillv) ]);
         ("animations", VArr anims) ].

(** The three properties a Linear animation can target. *)
Inductive target : Type := TX | TY | TR.

Definition target_name (p : target) : string :=
  match p with TX => "x" | TY => "y" | TR => "r" end.

Definition linear_anim (p : target) (from to start end_ : Q) : value :=
  VObj [ ("property", VStr (target_name p)); ("from", vnum from); ("to", vnum to);
         ("start", vnum start); ("end", vnum end_) ].

(** An Orbit animation; [period] is its [duration] field, possibly missing
    or invalid. *)
Definition orbit_anim (cx cy rad : Q) (period : value) : value :=
  VObj [ ("property", VStr "orbit"); ("centerX", vnum cx); ("centerY", vnum cy);
         ("radius", vnum rad); ("duration", period) ].

(** [{visualization: {id: []}}] *)
Definition input_array_id : value :=
  VObj [ ("visualization", VObj [ ("id", VArr []) ]) ].

(** [{visualization: {duration: 1000}}] *)
Definition input_short : value :=
  VObj [ ("visualization", VObj [ ("duration", vnum 1000) ]) ].

(** [{visualization: {duration: {toString: 1}}}] *)
Definition input_toString : value :=
  VObj [ ("visualization", VObj [ ("duration", VObj [ ("toString", vnum 1) ]) ]) ].

(** [{visualization: {layers: [{id: "a", type: "circle"}, {id: "a", type: "arrow"}]}}] *)
Definition input_same_ids : value :=
  VObj [ ("visualization",
          VObj [ ("layers",
                  VArr [ VObj [ ("id", VStr "a"); ("type", VStr "circle") ];
                         VObj [ ("id", VStr "a"); ("type", VStr "arrow") ] ]) ]) ].

(** [{visualization: {layers: [{type: "circle"}, {type: "arrow"}]}}] *)
Definition input_two_layers : value :=
  VObj [ ("visualization",
          VObj [ ("layers",
                  VArr [ VObj [ ("type", VStr "circle") ];
                         VObj [ ("type", VStr "arrow") ] ]) ]) ].

(** [{visualization: {layers: [{type: "lottie"}]}}] *)
Definition input_lottie : value :=
  VObj [ ("visualization", VObj [ ("layers", VArr [ VObj [ ("type", VStr "lottie") ] ]) ]) ].

(** [{visualization: {layers: [{type: "circle", props: {r: null},
      animations: [{from: null, to: true}]}]}}] *)
Definition input_null_numbers : value :=
  VObj [ ("visualization",
          VObj [ ("layers",
                  VArr [ VObj [ ("type", VStr "circle");
                                ("props", VObj [ ("r", VNull) ]);
                                ("animations",
                                 VArr [ VObj [ ("from", VNull); ("to", VBool true) ] ]) ] ]) ]) ].

(** [{visualization: {duration: 1000, layers: [{type: "circle", animations:
      [{property: "orbit", centerX: 320, centerY: 200, radius: 100, duration: 4000}]}]}}] *)
Definition input_long_orbit : value :=
  VObj [ ("visualization",
          VObj [ ("duration", vnum 1000);
                 ("layers",
                  VArr [ VObj [ ("type", VStr "circle");
                                ("animations",
                                 VArr [ orbit_anim 320 200 100 (vnum 4000) ]) ] ]) ]) ].

(** Source text written with an apostrophe for the double quote and a
    vertical bar for the line feed. *)
Fixpoint text_of (s : string) : string :=
  match s with
  | EmptyString => EmptyString
  | String c rest =>
      String (if Ascii.eqb c "'" then JSON.dquote
              else if Ascii.eqb c "|" then ascii_of_nat 10
              else c) (text_of rest)
  end.

(** The object of the end-to-end scenario, as JSON text. *)
Definition scenario_json : string :=
  text_of "{'text':'ok','visualization':{'duration':20000,'layers':[{'type':'circle','props':{'x':-10,'r':0}}]}}".

(** The raw text of the scenario: prose, then the object in a code fence. *)
Definition scenario_raw : string :=
  text_of "Sure! ```json|{'text':'ok','visualization':{'duration':20000,'layers':[{'type':'circle','props':{'x':-10,'r':0}}]}}|```".

(** The same fenced object without the prose before it. *)
Definition scenario_fenced : string :=
  text_of "```json|{'text':'ok','visualization':{'duration':20000,'layers':[{'type':'circle','props':{'x':-10,'r':0}}]}}|```".

(** The object the scenario embeds. *)
Definition scenario_object : value :=
  VObj [ ("text", VStr "ok");
         ("visualization",
          VObj [ ("duration", vnum 20000);
                 ("layers",
                  VArr [ VObj [ ("type", VStr "circle");
                                ("props", VObj [ ("x", vnum (-10 # 1)); ("r", vnum 0) ]) ] ]) ]) ].

(** What the scenario expects of the sanitizer on that object. *)
Definition scenario_sanitized : value :=
  VObj [ ("text", VStr "ok");
         ("visualization",
          obj_spec (VStr "vis_safe") (Fin 10000) (Fin 30)
                   [ circle_layer (VStr "layer_0") 0 200 1 "#3498db" [] ]) ].

End Scenes.
Export Scenes.

(** ** Stand-ins for the functions the language leaves open

    The theorems below hold for every choice of these functions; the
    stand-ins only serve to run the model on concrete inputs. *)

Module Samples.

(** No string reads as a number. *)
Definition sample_s2n (s : string) : num := NaN.

Definition sample_n2s (n : num) : string := EmptyString.

(** The first terms of the series of cosine and sine. *)
Definition sample_cos (q : Q) : Q := Qred (1 - q * q / 2).

Definition sample_sin (q : Q) : Q := q.

Definition sample_PI : Q := 355 # 113.

Definition sample_atan2 (y x : num) : num := Fin 0.

End Samples.
Export Samples.

(** ** The rules of the specification, in its words *)

Module Spec.

(** The value of a Linear animation at time [t]:
    [from + (to - from) * clamp((t - start) / max(end - start, 1), 0, 1)]. *)
Definition linear_value (from to start end_ t : Q) : Q :=
  from + (to - from) * Qmin (Qmax ((t - start) / Qmax (end_ - start) 1) 0) 1.

(** [t mod period] for a time that is not negative and a positive period. *)
Definition Qmod (t period : Q) : Q := t - period * inject_Z (Qfloor (t / period)).

(** The phase of an Orbit: [(t mod periodMs) / periodMs]. *)
Definition orbit_phase_of (t period : Q) : Q := Qmod t period / period.

End Spec.

(** ** How the output layers relate to the input entries *)

Module Kept.

(** [r] is what the entry [l] at index [i] became: a layer that is kept,
    with the id of the entry or [layer_<i>], and valid for duration [D]. *)
Definition layer_kept (D : Q) (l : value) (i : nat) (r : value) : Prop :=
  truthy r = true /\
  get r "id" = js_or (get l "id") (VStr ("layer_" ++ index_to_string i)) /\
  layer_ok D r = true.

(** [rs] is the result of mapping the callback over [xs], indices counted
    from [start]: every entry is dropped ([null]) or kept. *)
Inductive mapped (D : Q) : nat -> list value -> list value -> Prop :=
| mapped_nil start : mapped D start [] []
| mapped_cons start l xs r rs :
    (r = VNull \/ layer_kept D l start r) ->
    mapped D (S start) xs rs ->
    mapped D start (l :: xs) (r :: rs).

(** No entry of the input carries an id of its own. *)
Definition no_input_ids (ans : value) : bool :=
  forallb (fun l => negb (truthy (get l "id")))
          (elements (get (get ans "visualization") "layers")).

(** What a layer is drawn with: an arrow with its base props, a lottie
    layer with nothing, a circle with its base fill. *)
Definition emits (layer : value) (o : option RenderState) : Prop :=
  let p := get layer "props" in
  if str_eq (get layer "type") "circle" then
    exists x y r, o = Some (RCircle x y r (get p "fill"))
  else if str_eq (get layer "type") "arrow" then
    o = Some (RArrow (get p "x") (get p "y") (get p "dx") (get p "dy") (get p "color"))
  else o = None.

Definition is_object (v : value) : bool :=
  match v with VObj _ => true | _ => false end.

(** A missing field or a number of any kind, valid or not. *)
Definition number_or_missing (v : value) : bool :=
  match v with
  | VUndef | VNum _ => true
  | _ => false
  end.

(** An Orbit animation whose center and radius are as the sanitizer leaves
    them and whose period is any number, or missing. *)
Definition orbit_any_period (a : value) : bool :=
  is_orbit a
  && in_range (get a "centerX") 0 640 && in_range (get a "centerY") 0 400
  && in_range (get a "radius") 10 250
  && number_or_missing (get a "duration").

(** A Linear animation with finite numbers throughout. *)
Definition linear_finite (a : value) : bool :=
  negb (is_orbit a) && is_object a
  && finite_value (get a "from") && finite_value (get a "to")
  && finite_value (get a "start") && finite_value (get a "end").

(** An animation the evaluator can run without a TypeError. *)
Definition steppable (a : value) : bool := orbit_any_period a || linear_finite a.

(** A layer the evaluator can draw without a TypeError: sanitized props,
    and animations it can run. *)
Definition drawable (layer : value) : bool :=
  props_ok layer
  && match get layer "animations" with
     | VArr anims => forallb steppable anims
     | _ => false
     end.

(** A number one can divide by: not zero, not NaN. *)
Definition usable (n : num) : bool := negb (is_zero n || is_nan n).

Definition finite_state (s : RenderState) : bool :=
  match s with
  | RCircle x y r _ => finite_value x && finite_value y && finite_value r
  | RArrow x y dx dy _ =>
      finite_value x && finite_value y && finite_value dx && finite_value dy
  end.

Definition is_number (v : value) : bool :=
  match v with VNum _ => true | _ => false end.

(** A render state whose coordinates are numbers. *)
Definition numeric_state (s : RenderState) : bool :=
  match s with
  | RCircle x y r _ => is_number x && is_number y && is_number r
  | RArrow x y dx dy _ => is_number x && is_number y && is_number dx && is_number dy
  end.

(** What a layer resolves to: nothing, or a state with numbers for
    coordinates. *)
Definition numeric (o : option RenderState) : bool :=
  match o with Some s => numeric_state s | None => true end.

Definition finite_arcs (c : cmd) : bool :=
  match c with
  | arc x y r _ _ => is_finite x && is_finite y && is_finite r
  | _ => true
  end.

End Kept.
Export Kept.


(** ** The mock answers and the public entry (llm.js) *)

(** A line feed. *)
Definition LF : string := String (ascii_of_nat 10) EmptyString.

(** [s.toLowerCase()] on the one-byte letters.  The letters of other
    scripts, which the method also maps, are left as they are: none of them
    maps to a letter of the words [mockAnswer] looks for, so the tests below
    come out the same. *)
Definition toLowerCase (s : string) : string :=
  string_of_list_ascii (map lower (list_ascii_of_string s)).

Fixpoint includes_from (s p : list ascii) : bool :=
  match JSON.starts_with p s with
  | Some _ => true
  | None =>
      match s with
      | [] => false
      | _ :: rest => includes_from rest p
      end
  end.

(** [s.includes(p)] *)
Definition includes (s p : string) : bool :=
  includes_from (list_ascii_of_string s) (list_ascii_of_string p).

Definition arrow_layer (id : value) (x y dx dy : Q) (color : string) : value :=
  VObj [ ("id", id); ("type", VStr "arrow");
         ("props", VObj [ ("x", vnum x); ("y", vnum y); ("dx", vnum dx); ("dy", vnum dy);
                          ("color", VStr color) ]);
         ("animations", VArr []) ].

Definition mock_solar : value :=
  VObj [ ("text", VStr "The Sun is at the center; planets orbit due to gravity.");
         ("visualization",
          obj_spec (VStr "vis_solar") (Fin 6000) (Fin 30)
            [ circle_layer (VStr "sun") 320 200 40 "#f39c12" [];
              circle_layer (VStr "earth") 220 200 12 "#3498db"
                           [ orbit_anim 320 200 100 (vnum 6000) ] ]) ].

Definition mock_newton : value :=
  VObj [ ("text", VStr "An object remains at rest or moves uniformly unless acted on by a net external force.");
         ("visualization",
          obj_spec (VStr "vis_newton") (Fin 4500) (Fin 30)
            [ circle_layer (VStr "ball") 120 220 18 "#3498db"
                           [ linear_anim TX 120 520 0 3500 ];
              arrow_layer (VStr "arrow") 90 220 40 0 "#e74c3c" ]) ].

Definition mock_dna : value :=
  VObj [ ("text", VStr "DNA stores genetic information using sequences of A, T, C, and G bases.");
         ("visualization",
          obj_spec (VStr "vis_dna") (Fin 5000) (Fin 30)
            [ VObj [ ("id", VStr "dnaAnim"); ("type", VStr "lottie");
                     ("props", VObj [ ("url", VStr "/animations/dna.json");
                                      ("x", vnum 430); ("y", vnum 140);
                                      ("width", vnum 180); ("height", vnum 180);
                                      ("loop", VBool true) ]);
                     ("animations", VArr []) ];
              circle_layer (VStr "dot") 120 220 14 "#2ecc71"
                           [ linear_anim TX 120 360 400 2800 ] ]) ].

(** The generic answer, around the question as the template literal
    prints it. *)
Definition mock_generic (shown : string) : value :=
  VObj [ ("text", VStr ("Here’s a clear explanation of “" ++ shown ++ "”."));
         ("visualization",
          obj_spec (VStr "vis_generic") (Fin 5000) (Fin 30)
            [ circle_layer (VStr "ball") 160 220 16 "#3498db"
                           [ linear_anim TX 160 480 300 3200 ];
              arrow_layer (VStr "arrow") 200 220 200 0 "#e74c3c" ]) ].

Section Service.

Variable StringToNumber : string -> num.
Variable NumberToString : num -> string.

(** [function mockAnswer(question)].  [(question || empty).toLowerCase()]
    is a TypeError ([None]) on a truthy question that is not a string: it has
    no such method. *)
Definition mockAnswer (question : value) : option value :=
  match js_or question (VStr EmptyString) with
  | VStr s =>
      let q := toLowerCase s in
      if includes q "solar" then Some mock_solar
      else if includes q "newton" then Some mock_newton
      else if includes q "dna" then Some mock_dna
      else
        shown <- ToString NumberToString question ;;
        Some (mock_generic shown)
  | _ => None
  end.

(** [async function askOllama(question)]: the prompt is built around the
    question, the request is sent, and the body [data] of the response is
    parsed.  [data] is [None] when [fetch] or [resp.json()] fails. *)
Definition askOllama (data : option value) (question : value) : option value :=
  _ <- ToString NumberToString question ;;
  d <- data ;;
  askOllama_parse d.

(** [export async function callLLMService(question)], for the value
    [LLM_MODE] of the environment variable ([undefined] when it is not set)
    and the body [data] the model server would answer with.  [None] is a
    rejected promise. *)
Definition callLLMService (LLM_MODE : value) (data : option value) (question : value)
  : option value :=
  let mock := m <- mockAnswer question ;; sanitizeAnswer StringToNumber NumberToString m in
  let attempt :=
    if str_eq (js_or LLM_MODE (VStr "mock")) "ollama"
    then res <- askOllama data question ;; sanitizeAnswer StringToNumber NumberToString res
    else mock in
  match attempt with
  | Some r => Some r
  | None => mock
  end.

End Service.

(** ** The server: its store, its handlers and its event stream (index.js) *)

Module Server.

(** [const questions = []; const answers = []; const clients = new Set()].
    A connection is named by a number; the set keeps its members in the
    order they were added. *)
Record state : Type := {
  questions : list value;
  answers : list value;
  clients : list nat
}.

Definition empty : state := {| questions := []; answers := []; clients := [] |}.

(** What a handler sends back: [res.status(n).json(body)]; [res.json(body)]
    has status 200. *)
Record response : Type := {
  status : nat;
  body : value
}.

(** What is written on the connections of the event stream. *)
Inductive output : Type :=
| writeHead (client : nat) (status : nat) (headers : list (string * string))
| write (client : nat) (chunk : string).

(** What a handler of [POST /api/questions] holds while it awaits the
    answer: the question object [qObj] it pushed, by its place in
    [questions], and its constants [question] and [questionId]. *)
Record pending : Type := {
  qObj : nat;
  question : value;
  questionId : string
}.

(** [Date.now()] is a whole number of milliseconds; added to a string it
    prints in decimal digits. *)
Definition decimal (now : N) : string := NilEmpty.string_of_uint (N.to_uint now).

(** [clients.add(res)] and [clients.delete(res)]. *)
Definition set_add (c : nat) (s : list nat) : list nat :=
  if existsb (Nat.eqb c) s then s else s ++ [c].

Definition set_delete (c : nat) (s : list nat) : list nat :=
  filter (fun x => negb (Nat.eqb c x)) s.

(** [qObj.answerId = answerId] on the object at place [i] of [questions]. *)
Fixpoint assign_answerId (i : nat) (answerId : value) (qs : list value) : list value :=
  match qs, i with
  | [], _ => []
  | q :: rest, O =>
      match q with
      | VObj fs => VObj (JSON.set_field "answerId" answerId fs) :: rest
      | _ => q :: rest
      end
  | q :: rest, S i' => q :: assign_answerId i' answerId rest
  end.

Section Handlers.

Variable StringToNumber : string -> num.
Variable NumberToString : num -> string.

(** [JSON.stringify] on the objects the server sends. *)
Variable JSON_stringify : value -> string.

(** The value of the environment variable [LLM_MODE]. *)
Variable LLM_MODE : value.

(** [function sseHeaders(res)] *)
Definition sseHeaders (res : nat) : list output :=
  [ writeHead res 200 [ ("Content-Type", "text/event-stream");
                        ("Cache-Control", "no-cache");
                        ("Connection", "keep-alive") ];
    write res ("data: " ++ JSON_stringify (VObj [ ("status", VStr "connected") ])
                        ++ LF ++ LF) ].

(** [function broadcast(event, data)] *)
Definition broadcast (st : state) (event : string) (data : value) : list output :=
  let payload := JSON_stringify data in
  flat_map (fun res => [ write res ("event: " ++ event ++ LF);
                         write res ("data: " ++ payload ++ LF ++ LF) ])
           (clients st).

(** [app.get("/api/stream", ...)] and the [close] event of its request. *)
Definition stream (st : state) (res : nat) : state * list output :=
  ({| questions := questions st; answers := answers st;
      clients := set_add res (clients st) |},
   sseHeaders res).

Definition stream_closed (st : state) (res : nat) : state :=
  {| questions := questions st; answers := answers st;
     clients := set_delete res (clients st) |}.

(** [app.post("/api/questions", ...)] from its start to its [await]: the
    response when the question is missing, or the handler left waiting. *)
Definition post_question (st : state) (req_body : value) (now : N)
  : state * list output * (response + pending) :=
  let b := js_or req_body (VObj []) in
  let userId := match get b "userId" with VUndef => VStr "u1" | u => u end in
  let question := get b "question" in
  if negb (truthy question)
  then (st, [],
        inl {| status := 400;
               body := VObj [ ("error", VStr "question is required") ] |})
  else
    let questionId := "q_" ++ decimal now in
    let q := VObj [ ("id", VStr questionId); ("userId", userId);
                    ("question", question); ("answerId", VNull) ] in
    let st' := {| questions := questions st ++ [q]; answers := answers st;
                  clients := clients st |} in
    (st', broadcast st' "question_created" q,
     inr {| qObj := List.length (questions st); question := question;
            questionId := questionId |}).

(** The same handler from its [await] on, with the body [data] the model
    server answered with (if any) and the time of its [Date.now()]. *)
Definition post_answer (st : state) (p : pending) (data : option value) (now : N)
  : state * list output * response :=
  let failed := (st, [], {| status := 500;
                            body := VObj [ ("error", VStr "LLM failed") ] |}) in
  match callLLMService StringToNumber NumberToString LLM_MODE data (question p) with
  | None => failed
  | Some llm =>
      let answerId := "a_" ++ decimal now in
      match getp llm "text", getp llm "visualization" with
      | Some text, Some visualization =>
          let a := VObj [ ("id", VStr answerId); ("questionId", VStr (questionId p));
                          ("text", text); ("visualization", visualization) ] in
          let st' := {| questions := assign_answerId (qObj p) (VStr answerId)
                                                     (questions st);
                        answers := answers st ++ [a];
                        clients := clients st |} in
          (st', broadcast st' "answer_created" a,
           {| status := 200;
              body := VObj [ ("questionId", VStr (questionId p));
                             ("answerId", VStr answerId) ] |})
      | _, _ => failed
      end
  end.

(** [app.get("/api/questions", ...)] *)
Definition get_questions (st : state) : response :=
  {| status := 200; body := VArr (questions st) |}.

(** [app.get("/api/answers/:id", ...)]: [answers.find] returns the first
    answer with the id. *)
Definition get_answer (st : state) (id : string) : response :=
  match find (fun a => str_eq (get a "id") id) (answers st) with
  | Some ans => {| status := 200; body := ans |}
  | None => {| status := 404; body := VObj [ ("error", VStr "not found") ] |}
  end.

(** The server between two events: its store and the handlers that wait
    for an answer. *)
Record server : Type := {
  store : state;
  waiting : list pending
}.

Definition started : server := {| store := empty; waiting := [] |}.

(** The events the server reacts to.  A waiting handler resumes, the
    [k]-th of those that wait, at any later time and in any order. *)
Inductive event : Type :=
| Stream (res : nat)
| Closed (res : nat)
| Post (req_body : value) (now : N)
| Answered (k : nat) (data : option value) (now : N)
| GetQuestions
| GetAnswer (id : string).

Fixpoint remove_nth {A : Type} (k : nat) (xs : list A) : list A :=
  match xs, k with
  | [], _ => []
  | _ :: rest, O => rest
  | x :: rest, S k' => x :: remove_nth k' rest
  end.

(** One event: the server after it, what was written on the stream, and
    the response sent, if one was. *)
Definition react (s : server) (e : event) : server * list output * option response :=
  match e with
  | Stream res =>
      let '(st, out) := stream (store s) res in
      ({| store := st; waiting := waiting s |}, out, None)
  | Closed res =>
      ({| store := stream_closed (store s) res; waiting := waiting s |}, [], None)
  | Post req_body now =>
      match post_question (store s) req_body now with
      | (st, out, inl r) => ({| store := st; waiting := waiting s |}, out, Some r)
      | (st, out, inr p) => ({| store := st; waiting := waiting s ++ [p] |}, out, None)
      end
  | Answered k data now =>
      match nth_error (waiting s) k with
      | Some p =>
          let '(st, out, r) := post_answer (store s) p data now in
          ({| store := st; waiting := remove_nth k (waiting s) |}, out, Some r)
      | None => (s, [], None)
      end
  | GetQuestions => (s, [], Some (get_questions (store s)))
  | GetAnswer id => (s, [], Some (get_answer (store s) id))
  end.

(** The server after a sequence of events. *)
Definition run (s : server) (es : list event) : server :=
  fold_left (fun s e => fst (fst (react s e))) es s.

End Handlers.

End Server.

(** ** The client: its state, the handlers of the event stream and the
    animation loop (App.tsx) *)

Module Client.

(** The state of [App]: [questions], [answers] (an object used as a map
    from answer ids to answers, here its properties), [currentVis],
    [isPlaying] and [input]. *)
Record state : Type := {
  questions : list value;
  answers : list (string * value);
  currentVis : value;
  isPlaying : bool;
  input : string
}.

Definition initial : state :=
  {| questions := []; answers := []; currentVis := VNull; isPlaying := true;
     input := EmptyString |}.

(** [a === b].  Two objects are the same object only; the objects compared
    here come out of different calls of [JSON.parse], so they never are. *)
Definition strict_eq (a b : value) : bool :=
  match a, b with
  | VUndef, VUndef => true
  | VNull, VNull => true
  | VBool x, VBool y => Bool.eqb x y
  | VNum (Fin x), VNum (Fin y) => Qeq_bool x y
  | VNum PInf, VNum PInf => true
  | VNum NInf, VNum NInf => true
  | VStr x, VStr y => String.eqb x y
  | _, _ => false
  end.

(** The own properties [{...v}] copies: those of an object, the elements
    of an array and the characters of a string under their indices, and
    none of any other value. *)
Definition spread (v : value) : list (string * value) :=
  match v with
  | VObj fs => fs
  | VArr xs => mapi_from 0 (fun x i => (index_to_string i, x)) xs
  | VStr s => mapi_from 0 (fun c i => (index_to_string i, VStr (String c EmptyString)))
                        (list_ascii_of_string s)
  | _ => []
  end.

Section Handlers.

Variable StringToNumber : string -> num.
Variable NumberToString : num -> string.
Variable cos sin : Q -> Q.
Variable PI : Q.
Variable atan2 : num -> num -> num.

(** The listener of [question_created] on the parsed message:
    [setQuestions((prev) => [...prev, q])]. *)
Definition question_created (q : value) (st : state) : state :=
  {| questions := questions st ++ [q]; answers := answers st;
     currentVis := currentVis st; isPlaying := isPlaying st; input := input st |}.

(** [q.id === a.questionId ? { ...q, answerId: a.id } : q], the callback
    mapped over the questions. *)
Definition pair_answer (a q : value) : option value :=
  qid <- getp q "id" ;;
  aq <- getp a "questionId" ;;
  if strict_eq qid aq
  then aid <- getp a "id" ;;
       Some (VObj (JSON.set_field "answerId" aid (spread q)))
  else Some q.

(** The listener of [answer_created] on the parsed message [a]: the four
    state updates, [None] when one of them throws. *)
Definition answer_created (a : value) (st : state) : option state :=
  aid <- getp a "id" ;;
  key <- ToString NumberToString aid ;;
  qs <- mapM (pair_answer a) (questions st) ;;
  vis <- getp a "visualization" ;;
  Some {| questions := qs;
          answers := JSON.set_field key a (answers st);
          currentVis := js_or vis VNull;
          isPlaying := true;
          input := input st |}.

(** The listeners on the text of a message: [JSON.parse(e.data)] first. *)
Definition on_question_created (data : string) (st : state) : option state :=
  q <- JSON.parse data ;; Some (question_created q st).

Definition on_answer_created (data : string) (st : state) : option state :=
  a <- JSON.parse data ;; answer_created a st.

(** What the chat shows as the answer of a question:
    [const a = q.answerId ? answers[q.answerId] : null].  Ids that name a
    property every object inherits are not modelled. *)
Definition shown_answer (st : state) (q : value) : option value :=
  aid <- getp q "answerId" ;;
  if truthy aid
  then key <- ToString NumberToString aid ;; Some (lookup key (answers st))
  else Some VNull.

(** [async function sendQuestion()]: the body of the request it sends, or
    [None] when it returns without sending. *)
Definition sendQuestion (st : state) : option value :=
  let q := trim (input st) in
  if negb (truthy (VStr q)) then None
  else Some (VObj [ ("userId", VStr "u1"); ("question", VStr q) ]).

(** The frames of the animation loop: the callback [draw] runs on each
    time stamp of [requestAnimationFrame] as long as it asks for another
    frame, with the [startTime] it keeps from call to call.  Each frame is
    taken to run to its end, where it asks for the next one: in the browser
    a call that throws ends the loop there, see [accepted]. *)
Fixpoint loop (spec : value) (playing : bool) (startTime : num) (nows : list num)
  : option (list (list cmd)) :=
  match nows with
  | [] => Some []
  | now :: rest =>
      r <- draw StringToNumber NumberToString cos sin PI atan2 spec playing startTime now ;;
      let '(startTime', calls, again) := r in
      if again
      then more <- loop spec playing startTime' rest ;; Some (calls :: more)
      else Some [calls]
  end.

(** The layout effect of [VisualizationCanvas] for a mounted canvas:
    nothing without a spec or when paused, and otherwise the loop from
    [let startTime = 0]. *)
Definition animation (spec : value) (playing : bool) (nows : list num)
  : option (list (list cmd)) :=
  if negb (truthy spec) || negb playing then Some []
  else loop spec playing (Fin 0) nows.

End Handlers.

End Client.

(** ** Predicates of the further properties *)

Module More.

(** U+00A0 in UTF-8. *)
Definition no_break_space : string :=
  String (ascii_of_nat 194) (String (ascii_of_nat 160) EmptyString).

(** A string with no white space at its start, and with none at its end. *)
Definition starts_clean (s : string) : Prop := space_len false s = 0%nat.

Definition ends_clean (s : string) : Prop := space_len true (rev_string s) = 0%nat.

(** A character of one byte that is not white space. *)
Definition one_byte (c : ascii) : bool :=
  negb (is_space c) && (nat_of_ascii c <? 128)%nat.

(** The types of layer the sanitizer knows. *)
Definition known_type (l : value) : bool :=
  str_eq (get l "type") "circle" || str_eq (get l "type") "arrow"
  || str_eq (get l "type") "lottie".

(** The entries of an array with their indices, counted from [start]. *)
Fixpoint indexed_from (start : nat) (xs : list value) : list (nat * value) :=
  match xs with
  | [] => []
  | x :: rest => (start, x) :: indexed_from (S start) rest
  end.

(** The entries of [visualization.layers] of a known type, each with its
    position in the input array. *)
Definition kept_entries (ans : value) : list (nat * value) :=
  filter (fun il => known_type (snd il))
         (indexed_from 0 (elements (get (get ans "visualization") "layers"))).

(** The id a kept entry comes out with. *)
Definition entry_id (il : nat * value) : value :=
  js_or (get (snd il) "id") (VStr ("layer_" ++ index_to_string (fst il))).

Definition entry_type (il : nat * value) : value := get (snd il) "type".

Definition layer_types (spec : value) : list value :=
  map (fun l => get l "type") (layers_of spec).

(** No opening brace in a text. *)
Definition no_brace (s : string) : bool :=
  forallb (fun c => negb (Ascii.eqb c "{")) (list_ascii_of_string s).

(** The last character of a text is a closing brace. *)
Definition ends_with_brace (s : string) : bool :=
  match rev (list_ascii_of_string s) with
  | c :: _ => Ascii.eqb c "}"
  | [] => false
  end.

(** The text of an object in a code fence tagged json. *)
Definition fenced (body : string) : string :=
  "```json" ++ LF ++ "{" ++ body ++ "}" ++ LF ++ "```".

(** The question [q] carries the id of the answer [a], and [a] the id of
    [q]. *)
Definition answered_by (q a : value) : Prop :=
  get q "answerId" = get a "id" /\ get a "questionId" = get q "id".

(** The store of the server is consistent: every answer belongs to a
    recorded question that points to it, every question is unanswered
    ([answerId: null]) or points to a recorded answer of its own, and no
    connection is registered twice. *)
Definition consistent (st : Server.state) : Prop :=
  (forall a, In a (Server.answers st) ->
             exists q, In q (Server.questions st) /\ answered_by q a)
  /\ (forall q, In q (Server.questions st) ->
                get q "answerId" = VNull
                \/ exists a, In a (Server.answers st) /\ answered_by q a)
  /\ NoDup (Server.clients st).

(** What is written on one connection. *)
Definition written_to (res : nat) (out : list Server.output) : list string :=
  flat_map (fun o => match o with
                     | Server.write c chunk => if Nat.eqb c res then [chunk] else []
                     | Server.writeHead _ _ _ => []
                     end) out.

(** The handler that waits is the one of the question at its place: the
    question object is there, with the id of the handler and no answer. *)
Definition waits_for (st : Server.state) (p : Server.pending) : Prop :=
  exists fs, nth_error (Server.questions st) (Server.qObj p) = Some (VObj fs)
             /\ lookup "id" fs = VStr (Server.questionId p)
             /\ lookup "answerId" fs = VNull.

(** The invariant of the server: a consistent store whose answers have
    strings for ids, and waiting handlers of distinct questions. *)
Definition server_ok (s : Server.server) : Prop :=
  consistent (Server.store s)
  /\ (forall a, In a (Server.answers (Server.store s)) -> is_string (get a "id") = true)
  /\ (forall p, In p (Server.waiting s) -> waits_for (Server.store s) p)
  /\ NoDup (map Server.qObj (Server.waiting s)).

(** The members of the object of the end-to-end scenario, between its
    braces. *)
Definition scenario_body : string :=
  text_of "'text':'ok','visualization':{'duration':20000,'layers':[{'type':'circle','props':{'x':-10,'r':0}}]}".

(** [{visualization: {layers: [{type: "bogus"}, {type: "circle"}]}}] *)
Definition input_mixed : value :=
  VObj [ ("visualization",
          VObj [ ("layers",
                  VArr [ VObj [ ("type", VStr "bogus") ];
                         VObj [ ("type", VStr "circle") ] ]) ]) ].

(** A stand-in for [JSON.stringify], to run the server on examples. *)
Definition sample_stringify (v : value) : string := "{}".

(** A question as the server records it, and the handler that waits for
    its answer. *)
Definition sample_question : value :=
  VObj [ ("id", VStr "q_1"); ("userId", VStr "u1"); ("question", VStr "dna");
         ("answerId", VNull) ].

Definition sample_store : Server.state :=
  {| Server.questions := [ sample_question ]; Server.answers := [];
     Server.clients := [ 7%nat ] |}.

Definition sample_pending : Server.pending :=
  {| Server.qObj := 0; Server.question := VStr "dna"; Server.questionId := "q_1" |}.

(** An answer as the client receives it, and a client that shows its
    question. *)
Definition sample_answer : value :=
  VObj [ ("id", VStr "a_2"); ("questionId", VStr "q_1"); ("text", VStr "ok");
         ("visualization", VNull) ].

Definition sample_client : Client.state :=
  {| Client.questions := [ sample_question ]; Client.answers := [];
     Client.currentVis := VNull; Client.isPlaying := false;
     Client.input := EmptyString |}.

End More.
Export More.

(** ** The animations of a circle, by what they write *)

Module Motion.

(** A well-typed animation ([type Anim = LinearAnim | OrbitAnim]) with
    all its fields present. *)
Inductive anim : Type :=
| Linear (property : target) (from to start end_ : Q)
| Orbit (centerX centerY radius duration : Q).


Definition target_eqb (p q : target) : bool :=
  match p, q with
  | TX, TX | TY, TY | TR, TR => true
  | _, _ => false
  end.

(** The variables of the loop an animation assigns: a Linear one its
    [property], an Orbit [x] and [y]. *)
Definition writes (a : anim) (p : target) : bool :=
  match a with
  | Linear q _ _ _ _ => target_eqb q p
  | Orbit _ _ _ _ => match p with TR => false | _ => true end
  end.


Section Values.

Variable cos sin : Q -> Q.
Variable PI : Q.

(** The value an animation gives a variable it writes, at time [t]. *)
Definition written (a : anim) (p : target) (t : Q) : Q :=
  match a with
  | Linear _ from to start end_ => Spec.linear_value from to start end_ t
  | Orbit cx cy rad P =>
      let th := Qred (Spec.orbit_phase_of t P * PI * 2) in
      match p with
      | TX => cx + rad * cos th
      | _ => cy + rad * sin th
      end
  end.

(** The value of the last animation of the list that writes [p], or
    [base] when none does. *)
Definition shown (p : target) (base : value) (anims : list anim) (t : Q) : value :=
  match find (fun a => writes a p) (rev anims) with
  | Some a => VNum (fin (written a p t))
  | None => base
  end.

End Values.

End Motion.

(** ** Where the model and the engine agree

    The model idealises three things: finite numbers are exact rationals,
    where the engine rounds to double precision and overflows; the
    conversion of an array to a string follows the nesting to any depth,
    where the engine gives up with a RangeError at a depth of its own; and
    [frame] lists the calls of [draw] as if the canvas accepted each of
    them, where [arc] throws on a negative radius.  The predicates of this
    module delimit the inputs on which the idealisation makes no
    difference; the statements that would otherwise depend on it carry them
    as hypotheses. *)

Module Domain.

(** How deep arrays are nested in arrays at a value. *)
Fixpoint nesting (v : value) : nat :=
  match v with
  | VArr xs => S (fold_right (fun x m => Nat.max (nesting x) m) 0%nat xs)
  | _ => 0%nat
  end.

(** No array of the value is nested more than [d] deep. *)
Fixpoint shallow (d : nat) (v : value) : bool :=
  match v with
  | VArr xs => (nesting (VArr xs) <=? d)%nat && forallb (shallow d) xs
  | VObj fs => forallb (fun kv => shallow d (snd kv)) fs
  | _ => true
  end.

(** A depth of nesting that every engine converts. *)
Definition safe_nesting : nat := 100.

(** An integer that double precision holds exactly, with its sums and
    differences with another one: at most 2^52 in magnitude. *)
Definition safe_integer (z : Z) : Prop := (Z.abs z <= 2 ^ 52)%Z.

(** A finite number at most 2^1000 in magnitude: the sums, differences
    and products of the evaluator on such numbers do not overflow. *)
Definition moderate (v : value) : bool :=
  match v with
  | VNum (Fin q) => Qle_bool (- inject_Z (2 ^ 1000)) q && Qle_bool q (inject_Z (2 ^ 1000))
  | _ => false
  end.

(** A Linear animation with moderate numbers throughout. *)
Definition linear_moderate (a : value) : bool :=
  linear_finite a && moderate (get a "from") && moderate (get a "to")
  && moderate (get a "start") && moderate (get a "end").

(** A circle layer with sanitized props whose animations are Orbit
    animations of any period, as in [orbit_any_period], and moderate Linear
    animations. *)
Definition animated_circle (layer : value) : bool :=
  str_eq (get layer "type") "circle" && props_ok layer
  && match get layer "animations" with
     | VArr anims => forallb (fun a => orbit_any_period a || linear_moderate a) anims
     | _ => false
     end.

(** The period the evaluator uses for an Orbit whose period field is [ad],
    in a spec whose duration field is [sd]: the field itself when it is a
    number other than 0 and NaN, else the duration of the spec when that is
    such a number, else 4000. *)
Definition period_used (ad sd : value) : num :=
  let dur := match sd with
             | VNum m => if usable m then m else Fin 4000
             | _ => Fin 4000
             end in
  match ad with
  | VNum n => if usable n then n else dur
  | _ => dur
  end.

(** The calls the canvas accepts: every call but an [arc] with finite
    arguments and a negative radius, on which it throws an IndexSizeError
    (with an argument that is not finite [arc] returns at once). *)
Definition accepted (c : cmd) : bool :=
  match c with
  | arc x y r a0 a1 =>
      negb (is_finite x && is_finite y && is_finite r && is_finite a0 && is_finite a1
            && n_lt r (Fin 0))
  | _ => true
  end.

(** A finite number that is not negative. *)
Definition nonneg (v : value) : bool :=
  match v with
  | VNum (Fin q) => Qle_bool 0 q
  | _ => false
  end.

(** An animation that leaves the radius at or above zero: an Orbit, a
    Linear animation of another property, or one of the radius that neither
    starts nor ends below zero. *)
Definition keeps_radius (a : value) : bool :=
  is_orbit a || negb (str_eq (get a "property") "r")
  || nonneg (get a "from") && nonneg (get a "to").

(** No Linear animation of the layer on the radius starts or ends below
    zero. *)
Definition radius_safe (layer : value) : bool :=
  forallb keeps_radius (elements (get layer "animations")).

Definition spec_radius_safe (spec : value) : bool :=
  forallb radius_safe (layers_of spec).

(** A radius that [arc] accepts: a number that is not below zero. *)
Definition radius_ok (s : RenderState) : bool :=
  match s with
  | RCircle _ _ (VNum n) _ => negb (n_lt n (Fin 0))
  | RCircle _ _ _ _ => false
  | RArrow _ _ _ _ _ => true
  end.

Definition resolved_radius_ok (o : option RenderState) : bool :=
  match o with Some s => radius_ok s | None => true end.

(** The kept entries that carry an id of their own, those ids, and the
    ids assigned to the other entries. *)
Definition has_own_id (il : nat * value) : bool := truthy (get (snd il) "id").

Definition own_ids (kept : list (nat * value)) : list value :=
  map (fun il => get (snd il) "id") (filter has_own_id kept).

Definition assigned_ids (kept : list (nat * value)) : list value :=
  map (fun il => VStr ("layer_" ++ index_to_string (fst il)))
      (filter (fun il => negb (has_own_id il)) kept).

(** [{visualization: {layers: [{id: "layer_1", type: "circle"}, {type: "arrow"}]}}] *)
Definition input_clash : value :=
  VObj [ ("visualization",
          VObj [ ("layers",
                  VArr [ VObj [ ("id", VStr "layer_1"); ("type", VStr "circle") ];
                         VObj [ ("type", VStr "arrow") ] ]) ]) ].

(** A circle on an orbit with a negative period whose radius grows. *)
Definition backward_orbit : value :=
  circle_layer (VStr "c") 100 100 10 "#fff"
               [ orbit_anim 320 200 100 (vnum (-500 # 1));
                 linear_anim TR 5 20 0 1000 ].

(** A circle whose radius is animated from -50 to -10. *)
Definition shrinking_circle : value :=
  VObj [ ("visualization",
          VObj [ ("layers",
                  VArr [ VObj [ ("type", VStr "circle");
                                ("animations",
                                 VArr [ VObj [ ("property", VStr "r");
                                               ("from", vnum (-50 # 1));
                                               ("to", vnum (-10 # 1)) ] ]) ] ]) ]) ].

Section Fields.

Variable StringToNumber : string -> num.
Variable NumberToString : num -> string.

(** What the sanitizer makes of the input value [v] of a numeric field
    with default [def]: [Number(v)] when that is finite, and [def] when it
    is NaN or infinite. *)
Definition converted (v : value) (def n : num) : Prop :=
  exists x, ToNumber StringToNumber NumberToString v = Some x
            /\ n = if is_finite x then x else def.

(** The field [out] of the output is the converted input clamped to
    [lo, hi]; the one of a field without a range is the converted input. *)
Definition field (v : value) (def lo hi : num) (out : value) : Prop :=
  exists n, converted v def n /\ out = VNum (clamp n lo hi).

Definition free_field (v : value) (def : num) (out : value) : Prop :=
  exists n, converted v def n /\ out = VNum n.

(** The numeric fields of an animation of the output, from the animation
    [a] of the input, in a spec of duration [D]. *)
Definition animation_fields (D : num) (a out : value) : Prop :=
  if is_orbit a then
    field (get a "centerX") (Fin 320) (Fin 0) (Fin 640) (get out "centerX")
    /\ field (get a "centerY") (Fin 200) (Fin 0) (Fin 400) (get out "centerY")
    /\ field (get a "radius") (Fin 100) (Fin 10) (Fin 250) (get out "radius")
    /\ field (get a "duration") D (Fin 500) (Fin 10000) (get out "duration")
  else
    exists start,
      get out "start" = VNum start
      /\ field (get a "start") (Fin 0) (Fin 0) (n_sub D (Fin 100)) (get out "start")
      /\ field (get a "end") D (n_add start (Fin 100)) D (get out "end")
      /\ free_field (get a "from") (Fin 100) (get out "from")
      /\ free_field (get a "to") (Fin 500) (get out "to").

(** The numeric fields of a layer of the output, from the entry [l] of the
    input it was kept from. *)
Definition layer_fields (D : num) (l out : value) : Prop :=
  let p := get l "props" in
  let q := get out "props" in
  if str_eq (get l "type") "circle" then
    field (get p "x") (Fin 160) (Fin 0) (Fin 640) (get q "x")
    /\ field (get p "y") (Fin 200) (Fin 0) (Fin 400) (get q "y")
    /\ field (get p "r") (Fin 16) (Fin 1) (Fin 120) (get q "r")
    /\ Forall2 (animation_fields D) (elements (get l "animations"))
               (elements (get out "animations"))
  else if str_eq (get l "type") "arrow" then
    field (get p "x") (Fin 90) (Fin 0) (Fin 640) (get q "x")
    /\ field (get p "y") (Fin 220) (Fin 0) (Fin 400) (get q "y")
    /\ field (get p "dx") (Fin 40) (Fin (-640)) (Fin 640) (get q "dx")
    /\ field (get p "dy") (Fin 0) (Fin (-400)) (Fin 400) (get q "dy")
  else
    field (get p "x") (Fin 430) (Fin 0) (Fin 640) (get q "x")
    /\ field (get p "y") (Fin 140) (Fin 0) (Fin 400) (get q "y")
    /\ field (get p "width") (Fin 180) (Fin 40) (Fin 640) (get q "width")
    /\ field (get p "height") (Fin 180) (Fin 40) (Fin 400) (get q "height").

(** What an entry of a known type becomes in a spec of duration [D]: a
    valid layer with the id and the type of the entry and these fields. *)
Definition kept_as (D : Q) (il : nat * value) (r : value) : Prop :=
  get r "id" = entry_id il /\ get r "type" = entry_type il
  /\ layer_ok D r = true
  /\ layer_fields (Fin D) (snd il) r.

End Fields.

End Domain.
Export Domain.

(** ** The arithmetic of a Linear animation in double precision

    The lines of [draw] that compute the value of a Linear animation, over
    the binary64 numbers of the engine: every operation rounds to the
    nearest double, and overflows to an infinity. *)

Module Doubles.

Import PrimFloat.
Local Open Scope float_scope.

(** [Math.max] and [Math.min]: NaN when an argument is NaN, and +0 above
    -0. *)
Definition Math_max (a b : float) : float :=
  if is_nan a || is_nan b then nan
  else if a <? b then b
  else if b <? a then a
  else if is_zero a then a + b else a.

Definition Math_min (a b : float) : float :=
  if is_nan a || is_nan b then nan
  else if a <? b then a
  else if b <? a then b
  else if is_zero a then - (- a + - b) else a.

(** [const span = Math.max(end - start, 1)],
    [const prog = Math.min(Math.max((t - start) / span, 0), 1)] and
    [const val = from + (to - from) * prog]. *)
Definition linear_value (from to start end_ t : float) : float :=
  let span := Math_max (end_ - start) 1 in
  let prog := Math_min (Math_max ((t - start) / span) 0) 1 in
  from + (to - from) * prog.

End Doubles.

(** * Proofs *)

(** ** Numbers *)

Lemma Qle_bool_false (x y : Q) : Qle_bool x y = false -> y < x.
Proof.
  intros H. apply Qnot_le_lt. intros C. apply Qle_bool_iff in C. congruence.
Qed.

Ltac qbool :=
  repeat match goal with
         | H : Qle_bool _ _ = true |- _ => apply Qle_bool_iff in H
         | H : Qle_bool _ _ = false |- _ => apply Qle_bool_false in H
         | |- Qle_bool _ _ = true => apply Qle_bool_iff
         end.

Ltac andb_split :=
  repeat match goal with
         | H : _ && _ = true |- _ => apply andb_prop in H as [? ?]
         end.

(** [clamp] of a finite number lands within finite bounds. *)
Lemma clamp_fin (n lo hi : Q) :
  lo <= hi ->
  exists q, clamp (Fin n) (Fin lo) (Fin hi) = Fin q /\ lo <= q /\ q <= hi.
Proof.
  intros H. unfold clamp, Math_min, Math_max, fin.
  eexists. split; [reflexivity|].
  destruct (Qle_bool hi n) eqn:E1; destruct (Qle_bool lo (Qred _)) eqn:E2;
    qbool; rewrite ?Qred_correct in *; split; lra.
Qed.

Lemma in_range_clamp (n lo hi : Q) :
  lo <= hi -> in_range (VNum (clamp (Fin n) (Fin lo) (Fin hi))) lo hi = true.
Proof.
  intros H. destruct (clamp_fin n lo hi H) as (q & -> & H1 & H2).
  simpl. apply andb_true_intro. split; qbool; assumption.
Qed.

(** ** Values that convert to primitives *)

(** Induction on values, through the lists they nest. *)
Lemma value_induction (P : value -> Prop) :
  P VUndef -> P VNull -> (forall b, P (VBool b)) -> (forall n, P (VNum n)) ->
  (forall s, P (VStr s)) ->
  (forall xs, Forall P xs -> P (VArr xs)) ->
  (forall fs, Forall (fun kv => P (snd kv)) fs -> P (VObj fs)) ->
  forall v, P v.
Proof.
  intros Hu Hn Hb Hnum Hs Ha Ho.
  exact (fix F (v : value) : P v :=
           match v with
           | VUndef => Hu
           | VNull => Hn
           | VBool b => Hb b
           | VNum n => Hnum n
           | VStr s => Hs s
           | VArr xs =>
               Ha xs ((fix G (l : list value) : Forall P l :=
                         match l with
                         | [] => Forall_nil P
                         | x :: r => Forall_cons x (F x) (G r)
                         end) xs)
           | VObj fs =>
               Ho fs ((fix G (l : list (string * value))
                        : Forall (fun kv => P (snd kv)) l :=
                         match l with
                         | [] => Forall_nil _
                         | (k, x) :: r =>
                             Forall_cons (P := fun kv => P (snd kv)) (k, x) (F x) (G r)
                         end) fs)
           end).
Qed.

Section Conversions.

Variable StringToNumber : string -> num.
Variable NumberToString : num -> string.

Lemma ToString_plain (v : value) :
  plain v = true -> exists s, ToString NumberToString v = Some s.
Proof.
  induction v as [| |b|n|s|xs IH|fs _] using value_induction; intros Hp;
    try (eexists; reflexivity).
  - destruct b; eexists; reflexivity.
  - cbn [ToString]. cbn [plain] in Hp.
    assert (M : exists parts,
               mapM (fun x => match x with
                              | VUndef | VNull => Some EmptyString
                              | _ => ToString NumberToString x
                              end) xs = Some parts).
    { induction IH as [|x xs Hx _ IHxs]; [eexists; reflexivity|].
      cbn [forallb] in Hp. apply andb_prop in Hp as [Hpx Hpxs].
      destruct (Hx Hpx) as [s Es]. destruct (IHxs Hpxs) as [parts Ep].
      cbn [mapM]. rewrite Ep.
      destruct x; cbn [bind]; try rewrite Es; cbn [bind]; eexists; reflexivity. }
    destruct M as [parts ->]. eexists; reflexivity.
  - cbn [ToString]. cbn [plain] in Hp. apply andb_prop in Hp as [Hk _].
    apply negb_true_iff in Hk. rewrite Hk. eexists; reflexivity.
Qed.

Lemma ToNumber_plain (v : value) :
  plain v = true -> exists n, ToNumber StringToNumber NumberToString v = Some n.
Proof.
  intros Hp. destruct v as [| |[]|n|s|xs|fs]; try (eexists; reflexivity).
  - unfold ToNumber. destruct (ToString_plain _ Hp) as [s ->]. eexists; reflexivity.
  - cbn [ToNumber]. cbn [plain] in Hp. apply andb_prop in Hp as [Hk _].
    apply negb_true_iff in Hk. rewrite Hk. eexists; reflexivity.
Qed.

Lemma plain_lookup (k : string) (fs : list (string * value)) :
  forallb (fun kv => plain (snd kv)) fs = true -> plain (lookup k fs) = true.
Proof.
  induction fs as [|[k' x] fs IH]; cbn [lookup forallb]; [reflexivity|].
  intros H. apply andb_prop in H as [Hx Hfs].
  destruct (k =? k')%string; auto.
Qed.

Lemma plain_get (o : value) (k : string) : plain o = true -> plain (get o k) = true.
Proof.
  destruct o; try reflexivity. cbn [plain get]. intros H.
  apply andb_prop in H as [_ H]. now apply plain_lookup.
Qed.

Lemma plain_or_obj (x : value) : plain x = true -> plain (js_or x (VObj [])) = true.
Proof. intros H. unfold js_or. destruct (truthy x); auto. Qed.

(** [safeNumber] with a finite default returns finite numbers only. *)
Lemma safeNumber_finite (v : value) (d : Q) (n : num) :
  safeNumber StringToNumber NumberToString v (Fin d) = Some n -> exists q, n = Fin q.
Proof.
  unfold safeNumber, Number_isFinite.
  destruct (ToNumber StringToNumber NumberToString v) as [x|]; [|discriminate].
  cbn [bind]. intros H. injection H as <-. destruct x; simpl; eauto.
Qed.

Lemma safeNumber_total (v : value) (def : num) :
  plain v = true -> exists n, safeNumber StringToNumber NumberToString v def = Some n.
Proof.
  intros Hp. unfold safeNumber. destruct (ToNumber_plain v Hp) as [x ->].
  eexists; reflexivity.
Qed.

End Conversions.

Lemma some_eq {A : Type} (a b : A) : Some a = Some b -> a = b.
Proof. congruence. Qed.

(** ** Property reads that cannot throw *)

Lemma getp_truthy (v : value) (k : string) :
  truthy v = true -> getp v k = Some (get v k).
Proof. destruct v; simpl; intros; try discriminate; reflexivity. Qed.

Lemma str_eq_get_obj (l : value) (k s : string) :
  str_eq (get l k) s = true -> exists fs, l = VObj fs.
Proof. destruct l; simpl; intros; try discriminate. eauto. Qed.

Lemma truthy_or_obj (x : value) : truthy (js_or x (VObj [])) = true.
Proof. unfold js_or. destruct (truthy x) eqn:E; auto. Qed.

Lemma getp_or_obj (x : value) (k : string) :
  getp (js_or x (VObj [])) k = Some (get (js_or x (VObj [])) k).
Proof. apply getp_truthy, truthy_or_obj. Qed.

Lemma is_string_or_default (v : value) (s : string) :
  is_string (if is_string v then v else VStr s) = true.
Proof. destruct (is_string v) eqn:E; auto. Qed.

Lemma mapM_forallb {A B : Type} (f : A -> option B) (P : B -> bool) (xs : list A) :
  (forall a r, f a = Some r -> P r = true) ->
  forall rs, mapM f xs = Some rs -> forallb P rs = true.
Proof.
  intros H. induction xs as [|x xs IH]; cbn [mapM]; intros rs E.
  - injection E as <-. reflexivity.
  - destruct (f x) as [r|] eqn:Er; [|discriminate]. cbn [bind] in E.
    destruct (mapM f xs) as [rs'|]; [|discriminate]. cbn [bind] in E.
    injection E as <-. cbn [forallb]. now rewrite (H _ _ Er), (IH rs' eq_refl).
Qed.

Lemma mapM_total {A B : Type} (f : A -> option B) (Q : A -> bool) (xs : list A) :
  (forall a, Q a = true -> exists r, f a = Some r) ->
  forallb Q xs = true -> exists rs, mapM f xs = Some rs.
Proof.
  intros H. induction xs as [|x xs IH]; cbn [mapM forallb]; intros Hq.
  - eexists; reflexivity.
  - apply andb_prop in Hq as [Hx Hxs].
    destruct (H x Hx) as [r ->]. destruct (IH Hxs) as [rs ->].
    eexists; reflexivity.
Qed.

(** ** The sanitizer, callback by callback *)

Section SanitizerProofs.

Variable StringToNumber : string -> num.
Variable NumberToString : num -> string.

(** Reads off a successful [safeNumber] that its result is finite. *)
Ltac safe_inv H :=
  repeat match type of H with
         | bind (safeNumber ?s ?n ?v (Fin ?d)) _ = Some _ =>
             let E := fresh "E" in
             let q := fresh "q" in
             destruct (safeNumber s n v (Fin d)) eqn:E; [|discriminate H];
             apply safeNumber_finite in E as [q ->]; cbn [bind] in H
         end.

(** Runs a [safeNumber] on a plain value. *)
Ltac safe_run :=
  repeat match goal with
         | |- context [safeNumber ?s ?n ?v ?d] =>
             let x := fresh "x" in
             destruct (safeNumber_total s n v d) as [x ->];
             [auto using plain_get, plain_or_obj|cbn [bind]]
         end.

Lemma sanitize_animation_ok (D : Q) (a r : value) :
  1000 <= D -> D <= 10000 ->
  sanitize_animation StringToNumber NumberToString (Fin D) a = Some r ->
  animation_ok D r = true.
Proof.
  intros HD1 HD2. unfold sanitize_animation.
  destruct (str_eq (get a "property") "orbit") eqn:E.
  - destruct (str_eq_get_obj _ _ _ E) as [fs ->]. cbn [getp bind]. intros H.
    safe_inv H. apply some_eq in H. subst r.
    unfold animation_ok, is_orbit.
    cbn -[clamp in_range]. rewrite !in_range_clamp by lra. reflexivity.
  - intros H. safe_inv H. apply some_eq in H. subst r.
    change (n_sub (Fin D) (Fin 100)) with (Fin (Qred (D - 100))).
    destruct (clamp_fin q 0 (Qred (D - 100))) as (s & Hs & Hs1 & Hs2).
    { rewrite Qred_correct. lra. }
    rewrite Hs.
    change (n_add (Fin s) (Fin 100)) with (Fin (Qred (s + 100))).
    rewrite Qred_correct in Hs2.
    destruct (clamp_fin q0 (Qred (s + 100)) D) as (e & He & He1 & He2).
    { rewrite Qred_correct. lra. }
    rewrite He. rewrite Qred_correct in He1.
    unfold animation_ok, is_orbit, window_ok. cbn.
    replace (Qle_bool 0 s) with true by (symmetry; qbool; lra).
    replace (Qle_bool (s + 100) e) with true by (symmetry; qbool; lra).
    replace (Qle_bool e D) with true by (symmetry; qbool; lra).
    destruct (str_eq (get a "property") "y"); [reflexivity|].
    destruct (str_eq (get a "property") "r"); reflexivity.
Qed.

Lemma sanitize_animation_total (duration : num) (a : value) :
  plain a = true ->
  exists r, sanitize_animation StringToNumber NumberToString duration a = Some r.
Proof.
  intros Hp. unfold sanitize_animation.
  destruct (str_eq (get a "property") "orbit") eqn:E.
  - destruct (str_eq_get_obj _ _ _ E) as [fs ->]. cbn [getp bind].
    safe_run. eexists; reflexivity.
  - safe_run. eexists; reflexivity.
Qed.

Lemma sanitize_animations_ok (D : Q) (la : value) (rs : list value) :
  1000 <= D -> D <= 10000 ->
  sanitize_animations StringToNumber NumberToString (Fin D) la = Some rs ->
  forallb (animation_ok D) rs = true.
Proof.
  intros H1 H2. unfold sanitize_animations.
  destruct la; try (intros E; injection E as <-; reflexivity).
  apply mapM_forallb. intros a r. now apply sanitize_animation_ok.
Qed.

Lemma sanitize_animations_total (duration : num) (la : value) :
  plain la = true ->
  exists rs, sanitize_animations StringToNumber NumberToString duration la = Some rs.
Proof.
  intros Hp. unfold sanitize_animations.
  destruct la; try (eexists; reflexivity).
  apply (mapM_total _ plain); [|exact Hp].
  intros a. apply sanitize_animation_total.
Qed.

Lemma sanitize_layer_ok (D : Q) (l : value) (i : nat) (r : value) :
  1000 <= D -> D <= 10000 ->
  sanitize_layer StringToNumber NumberToString (Fin D) l i = Some r ->
  r = VNull \/ layer_kept D l i r.
Proof.
  intros H1 H2. unfold sanitize_layer.
  destruct (str_eq (get l "type") "circle") eqn:E1;
    [|destruct (str_eq (get l "type") "arrow") eqn:E2;
      [|destruct (str_eq (get l "type") "lottie") eqn:E3]].
  - destruct (str_eq_get_obj _ _ _ E1) as [fs ->]. cbn [getp bind].
    rewrite !getp_or_obj. cbn [bind]. intros H.
    repeat (safe_inv H; rewrite ?getp_or_obj in H; cbn [bind] in H).
    destruct (sanitize_animations _ _ _ _) as [rs|] eqn:Ea; [|discriminate H].
    cbn [bind] in H. apply some_eq in H. subst r. right.
    apply sanitize_animations_ok in Ea; [|assumption..].
    repeat split.
    unfold layer_ok, props_ok, animations_ok.
    cbn -[clamp in_range index_to_string String.append]. simpl in E1. rewrite E1.
    rewrite !in_range_clamp by lra. rewrite is_string_or_default. exact Ea.
  - destruct (str_eq_get_obj _ _ _ E2) as [fs ->]. cbn [getp bind].
    rewrite !getp_or_obj. cbn [bind]. intros H.
    repeat (safe_inv H; rewrite ?getp_or_obj in H; cbn [bind] in H).
    apply some_eq in H. subst r. right.
    repeat split.
    unfold layer_ok, props_ok, animations_ok.
    cbn -[clamp in_range index_to_string String.append]. simpl in E1, E2.
    rewrite E1, E2.
    rewrite !in_range_clamp by lra. rewrite is_string_or_default. reflexivity.
  - destruct (str_eq_get_obj _ _ _ E3) as [fs ->]. cbn [getp bind].
    rewrite !getp_or_obj. cbn [bind]. intros H.
    repeat (safe_inv H; rewrite ?getp_or_obj in H; cbn [bind] in H).
    apply some_eq in H. subst r. right.
    repeat split.
    unfold layer_ok, props_ok, animations_ok.
    cbn -[clamp in_range index_to_string String.append]. simpl in E1, E2, E3.
    rewrite E1, E2, E3.
    rewrite !in_range_clamp by lra. rewrite is_string_or_default. reflexivity.
  - intros H. injection H as <-. now left.
Qed.

Lemma sanitize_layer_total (duration : num) (l : value) (i : nat) :
  plain l = true ->
  exists r, sanitize_layer StringToNumber NumberToString duration l i = Some r.
Proof.
  intros Hp. unfold sanitize_layer.
  destruct (str_eq (get l "type") "circle") eqn:E1;
    [|destruct (str_eq (get l "type") "arrow") eqn:E2;
      [|destruct (str_eq (get l "type") "lottie") eqn:E3]].
  - destruct (str_eq_get_obj _ _ _ E1) as [fs ->]. cbn [getp bind].
    repeat (rewrite ?getp_or_obj; cbn [bind]; safe_run).
    destruct (sanitize_animations_total duration (get (VObj fs) "animations"))
      as [rs ->]; [auto using plain_get|].
    eexists; reflexivity.
  - destruct (str_eq_get_obj _ _ _ E2) as [fs ->]. cbn [getp bind].
    repeat (rewrite ?getp_or_obj; cbn [bind]; safe_run).
    eexists; reflexivity.
  - destruct (str_eq_get_obj _ _ _ E3) as [fs ->]. cbn [getp bind].
    repeat (rewrite ?getp_or_obj; cbn [bind]; safe_run).
    eexists; reflexivity.
  - eexists; reflexivity.
Qed.

Lemma map_layers_ok (D : Q) (xs : list value) :
  1000 <= D -> D <= 10000 ->
  forall start rs,
    map_layers StringToNumber NumberToString (Fin D) start xs = Some rs ->
    mapped D start xs rs.
Proof.
  intros H1 H2. induction xs as [|l xs IH]; intros start rs; cbn [map_layers].
  - intros E. injection E as <-. constructor.
  - destruct (sanitize_layer _ _ _ l start) as [r|] eqn:Er; [|discriminate].
    cbn [bind].
    destruct (map_layers _ _ _ (S start) xs) as [rs'|] eqn:Ers; [|discriminate].
    cbn [bind]. intros E. injection E as <-.
    constructor; [eapply sanitize_layer_ok; eassumption|now apply IH].
Qed.

Lemma map_layers_total (duration : num) (xs : list value) :
  forallb plain xs = true ->
  forall start, exists rs,
      map_layers StringToNumber NumberToString duration start xs = Some rs.
Proof.
  induction xs as [|l xs IH]; cbn [map_layers forallb]; intros Hp start.
  - eexists; reflexivity.
  - apply andb_prop in Hp as [Hl Hxs].
    destruct (sanitize_layer_total duration l start Hl) as [r ->].
    destruct (IH Hxs (S start)) as [rs ->]. eexists; reflexivity.
Qed.

Lemma mapped_kept_ok (D : Q) (start : nat) (xs rs : list value) :
  mapped D start xs rs -> forallb (layer_ok D) (filter truthy rs) = true.
Proof.
  induction 1 as [|start l xs r rs [-> | (Ht & _ & Hok)] _ IH]; simpl; auto.
  rewrite Ht. simpl. now rewrite Hok.
Qed.

Lemma sanitize_text_total (ans : value) :
  exists t, sanitize_text ans = Some t /\ nonempty_string t = true.
Proof.
  unfold sanitize_text.
  destruct (is_string (get ans "text")) eqn:E; [|eexists; split; reflexivity].
  destruct ans; try discriminate E. cbn [getp bind].
  destruct (get (VObj fields) "text") eqn:G; try discriminate E.
  cbn [call_trim bind].
  destruct (truthy (VStr (trim s))) eqn:T; [|eexists; split; reflexivity].
  cbn [call_trim bind]. eexists; split; [reflexivity|]. exact T.
Qed.

Lemma layer_ok_split (D : Q) (ls : list value) :
  forallb (layer_ok D) ls = true ->
  forallb props_ok ls = true /\ forallb (animations_ok D) ls = true.
Proof.
  induction ls as [|l ls IH]; simpl; auto.
  unfold layer_ok at 1. intros H.
  apply andb_prop in H as [H1 H2]. apply andb_prop in H1 as [Hp Ha].
  destruct (IH H2) as [-> ->]. now rewrite Hp, Ha.
Qed.

Lemma get_or_obj (x : value) (k : string) :
  get (js_or x (VObj [])) k = get x k.
Proof.
  unfold js_or. destruct x as [| |[]|n|s|xs|fs]; try reflexivity.
  - simpl. destruct (is_zero n || is_nan n); reflexivity.
  - simpl. destruct (s =? EmptyString)%string; reflexivity.
Qed.

(** The shape of every answer: the layers are the entries kept from the
    input, all valid, or the default scene when none is kept. *)
Lemma sanitizeAnswer_shape (ans r : value) :
  sanitizeAnswer StringToNumber NumberToString ans = Some r ->
  exists text id D fps rs,
    r = VObj [ ("text", text);
               ("visualization",
                obj_spec id (Fin D) (Fin fps)
                         (match filter truthy rs with
                          | [] => default_layers (Fin D)
                          | _ => filter truthy rs
                          end)) ] /\
    nonempty_string text = true /\
    id = js_or (get (get ans "visualization") "id") (VStr "vis_safe") /\
    1000 <= D /\ D <= 10000 /\ 1 <= fps /\ fps <= 60 /\
    mapped D 0 (elements (get (get ans "visualization") "layers")) rs.
Proof.
  unfold sanitizeAnswer.
  destruct (sanitize_text_total ans) as (text & -> & Htext). cbn [bind].
  rewrite !getp_or_obj. cbn [bind]. rewrite !get_or_obj. intros H.
  safe_inv H.
  destruct (clamp_fin q 1000 10000) as (D & HD & HD1 & HD2); [lra|].
  rewrite HD in H.
  safe_inv H.
  destruct (clamp_fin q0 1 60) as (fps & Hf & Hf1 & Hf2); [lra|].
  rewrite Hf in H.
  unfold kept_layers in H.
  destruct (map_layers _ _ _ _ _) as [rs|] eqn:Ers; [|discriminate H].
  cbn [bind] in H. apply some_eq in H. subst r.
  apply map_layers_ok in Ers; [|assumption..].
  exists text, (js_or (get (get ans "visualization") "id") (VStr "vis_safe")), D, fps, rs.
  repeat split; auto.
Qed.

(** On a plain input the sanitizer does not throw. *)
Lemma sanitizeAnswer_total (ans : value) :
  plain ans = true ->
  exists r, sanitizeAnswer StringToNumber NumberToString ans = Some r.
Proof.
  intros Hp. unfold sanitizeAnswer.
  destruct (sanitize_text_total ans) as (text & -> & _). cbn [bind].
  repeat (rewrite ?getp_or_obj; cbn [bind]; safe_run).
  unfold kept_layers.
  assert (P : plain (get (js_or (get ans "visualization") (VObj [])) "layers") = true)
    by auto using plain_get, plain_or_obj.
  match goal with
  | |- context [map_layers _ _ ?d 0%nat ?xs] =>
      assert (Pxs : forallb plain xs = true);
      [|destruct (map_layers_total d xs Pxs 0%nat) as [rs ->]]
  end.
  - destruct (get (js_or (get ans "visualization") (VObj [])) "layers"); auto.
  - cbn [bind]. eexists; reflexivity.
Qed.

End SanitizerProofs.

(** ** What the sanitizer guarantees *)

Lemma index_to_string_inj (i j : nat) :
  index_to_string i = index_to_string j -> i = j.
Proof.
  unfold index_to_string. intros H.
  assert (E : Some (Nat.to_uint i) = Some (Nat.to_uint j)).
  { rewrite <- !NilEmpty.usu. now rewrite H. }
  injection E as E.
  rewrite <- (Unsigned.of_to i), <- (Unsigned.of_to j). now rewrite E.
Qed.

(** The ids of the layers kept when no entry has an id of its own are
    [layer_<k>] for indices [k] from [start] on. *)
Lemma mapped_ids (D : Q) (start : nat) (xs rs : list value) :
  mapped D start xs rs ->
  forallb (fun l => negb (truthy (get l "id"))) xs = true ->
  forall r, In r (filter truthy rs) ->
            exists k, (start <= k)%nat
                      /\ get r "id" = VStr ("layer_" ++ index_to_string k).
Proof.
  induction 1 as [|start l xs r rs Hr _ IH]; simpl; [intros _ ? []|].
  intros Hall r' Hin. apply andb_prop in Hall as [Hl Hall].
  assert (Htail : forall r', In r' (filter truthy rs) ->
            exists k, (start <= k)%nat
                      /\ get r' "id" = VStr ("layer_" ++ index_to_string k)).
  { intros r'' H''. destruct (IH Hall r'' H'') as (k & Hk & E).
    exists k. split; [lia|exact E]. }
  destruct Hr as [-> | (Ht & Hid & _)]; simpl in Hin; auto.
  rewrite Ht in Hin. destruct Hin as [<- | Hin]; auto.
  exists start. split; [lia|]. rewrite Hid. unfold js_or.
  apply negb_true_iff in Hl. now rewrite Hl.
Qed.

Lemma mapped_ids_NoDup (D : Q) (start : nat) (xs rs : list value) :
  mapped D start xs rs ->
  forallb (fun l => negb (truthy (get l "id"))) xs = true ->
  NoDup (map (fun l => get l "id") (filter truthy rs)).
Proof.
  induction 1 as [|start l xs r rs Hr Hm IH]; simpl; [constructor|].
  intros Hall. apply andb_prop in Hall as [Hl Hall].
  destruct Hr as [-> | (Ht & Hid & _)]; simpl; auto.
  rewrite Ht. simpl. constructor; auto.
  intros Hin. apply in_map_iff in Hin as (r' & E & Hin).
  destruct (mapped_ids _ _ _ _ Hm Hall r' Hin) as (k & Hk & Ek).
  rewrite Hid in E. unfold js_or in E. apply negb_true_iff in Hl. rewrite Hl in E.
  rewrite Ek in E. injection E as E. apply index_to_string_inj in E. lia.
Qed.

Lemma in_range_finite (v : value) (lo hi : Q) :
  in_range v lo hi = true -> finite_value v = true.
Proof. destruct v as [| | |[]| | |]; simpl; auto. Qed.

Lemma window_ok_finite (D : Q) (a : value) :
  window_ok D a = true ->
  finite_value (get a "start") = true /\ finite_value (get a "end") = true.
Proof.
  unfold window_ok.
  destruct (get a "start") as [| | |[]| | |]; try discriminate;
    destruct (get a "end") as [| | |[]| | |]; try discriminate. auto.
Qed.

Lemma animation_ok_finite (D : Q) (a : value) :
  animation_ok D a = true ->
  (if is_orbit a then
     finite_value (get a "centerX") && finite_value (get a "centerY")
     && finite_value (get a "radius") && finite_value (get a "duration")
   else
     finite_value (get a "from") && finite_value (get a "to")
     && finite_value (get a "start") && finite_value (get a "end")) = true.
Proof.
  unfold animation_ok. destruct (is_orbit a); intros H; andb_split.
  - repeat (apply andb_true_intro; split); eapply in_range_finite; eassumption.
  - match goal with
    | H : window_ok _ _ = true |- _ => apply window_ok_finite in H as [? ?]
    end.
    repeat (apply andb_true_intro; split); assumption.
Qed.

Lemma layer_ok_finite (D : Q) (l : value) :
  layer_ok D l = true -> numbers_finite l = true.
Proof.
  unfold layer_ok, props_ok, animations_ok, numbers_finite. intros H.
  apply andb_prop in H as [Hp Ha].
  destruct (get l "animations") as [| | | | |anims|]; try discriminate.
  apply andb_true_intro. split.
  - destruct (str_eq (get l "type") "circle");
      [|destruct (str_eq (get l "type") "arrow");
        [|destruct (str_eq (get l "type") "lottie"); [|discriminate]]];
      andb_split; repeat (apply andb_true_intro; split);
      eapply in_range_finite; eassumption.
  - simpl. destruct (str_eq (get l "type") "circle").
    + clear Hp. induction anims as [|a anims IH]; simpl in *; auto.
      apply andb_prop in Ha as [H1 H2].
      rewrite (animation_ok_finite _ _ H1). simpl. auto.
    + destruct anims; [reflexivity|discriminate].
Qed.

Lemma layers_ok_finite (D : Q) (ls : list value) :
  forallb (layer_ok D) ls = true -> forallb numbers_finite ls = true.
Proof.
  induction ls as [|l ls IH]; cbn [forallb]; auto.
  intros H. apply andb_prop in H as [H1 H2].
  now rewrite (layer_ok_finite _ _ H1), IH.
Qed.

Section SanitizerTheorems.

Variable StringToNumber : string -> num.
Variable NumberToString : num -> string.

(** C2: the sanitizer is not idempotent on [{visualization: {duration:
    1000}}].  The first pass installs the default scene with a Linear
    window that ends at [duration - 1000 = 0]; the second pass clamps that
    end to [start + 100 = 100]. *)
Theorem sanitize_twice_differs :
  exists first second,
    sanitizeAnswer StringToNumber NumberToString input_short = Some first
    /\ sanitizeAnswer StringToNumber NumberToString first = Some second
    /\ second <> first
    /\ layers_of (visualization first)
       = [ circle_layer (VStr "ball") 120 220 18 "#3498db" [ linear_anim TX 120 520 0 0 ];
           VObj [ ("id", VStr "arrow"); ("type", VStr "arrow");
                  ("props", VObj [ ("x", vnum 90); ("y", vnum 220); ("dx", vnum 40);
                                   ("dy", vnum 0); ("color", VStr "#e74c3c") ]);
                  ("animations", VArr []) ] ]
    /\ layers_of (visualization second)
       = [ circle_layer (VStr "ball") 120 220 18 "#3498db"
                        [ linear_anim TX 120 520 0 100 ];
           VObj [ ("id", VStr "arrow"); ("type", VStr "arrow");
                  ("props", VObj [ ("x", vnum 90); ("y", vnum 220); ("dx", vnum 40);
                                   ("dy", vnum 0); ("color", VStr "#e74c3c") ]);
                  ("animations", VArr []) ] ].
Proof.
  eexists. eexists. split; [reflexivity|]. split; [reflexivity|].
  split; [|split; reflexivity].
  intros H. vm_compute in H. discriminate.
Qed.

End SanitizerTheorems.

(** ** Arithmetic of the evaluator *)

Lemma fin_eq (x y : Q) : x == y -> fin x = fin y.
Proof. intros H. unfold fin. f_equal. now apply Qred_complete. Qed.

Lemma Math_max_fin (a b : Q) : Math_max (Fin a) (Fin b) = fin (Qmax a b).
Proof.
  simpl. apply fin_eq. destruct (Qle_bool a b) eqn:E; qbool.
  - symmetry. now apply Q.max_r.
  - symmetry. apply Q.max_l. lra.
Qed.

Lemma Math_min_fin (a b : Q) : Math_min (Fin a) (Fin b) = fin (Qmin a b).
Proof.
  simpl. apply fin_eq. destruct (Qle_bool a b) eqn:E; qbool.
  - symmetry. now apply Q.min_l.
  - symmetry. apply Q.min_r. lra.
Qed.

Lemma n_div_fin (a b : Q) : ~ b == 0 -> n_div (Fin a) (Fin b) = fin (a / b).
Proof.
  intros H. simpl. destruct (Qeq_bool b 0) eqn:E; [|reflexivity].
  apply Qeq_bool_iff in E. contradiction.
Qed.

(** A number that is not zero is truthy. *)
Lemma js_or_number (D : Q) (v : value) :
  ~ D == 0 -> js_or (VNum (Fin D)) v = VNum (Fin D).
Proof.
  intros H. unfold js_or. simpl. destruct (Qeq_bool D 0) eqn:E; [|reflexivity].
  apply Qeq_bool_iff in E. contradiction.
Qed.

(** [p || 0] leaves a finite number as it is: zero is replaced by zero. *)
Lemma js_or_fin_zero (q : Q) : js_or (VNum (fin q)) (vnum 0) = VNum (fin q).
Proof.
  unfold js_or, fin, vnum. simpl.
  destruct (Qeq_bool (Qred q) 0) eqn:E; [|reflexivity].
  apply Qeq_bool_iff in E. rewrite Qred_correct in E.
  apply Qred_complete in E. rewrite E. reflexivity.
Qed.

(** Past the duration the clamped time is the duration. *)
Lemma Math_min_past (D : Q) (e : num) :
  n_le (Fin D) e = true -> Math_min e (Fin D) = Math_min (Fin D) (Fin D).
Proof.
  destruct e as [| | |q]; simpl; try discriminate.
  - intros _. unfold fin. f_equal. apply Qred_complete.
    destruct (Qle_bool D D); reflexivity.
  - intros H. unfold fin. f_equal. apply Qred_complete.
    destruct (Qle_bool q D) eqn:E1; destruct (Qle_bool D D) eqn:E2;
      qbool; try reflexivity; lra.
Qed.

Lemma Qtrunc_floor (q : Q) : 0 <= q -> Qtrunc q = Qfloor q.
Proof.
  destruct q as [n d]. unfold Qle, Qtrunc, Qfloor. simpl. intros H.
  apply Z.quot_div_nonneg; lia.
Qed.

Lemma floor_bounds (a b q : Q) :
  a <= q -> q < a + 1 -> b <= q + 1 -> q + 1 < b + 1 ->
  a < b /\ b < a + inject_Z 2.
Proof. intros. change (inject_Z 2) with 2. split; lra. Qed.

Lemma Qfloor_plus1 (q : Q) : Qfloor (q + 1) = (Qfloor q + 1)%Z.
Proof.
  pose proof (Qfloor_le q) as H1. pose proof (Qlt_floor q) as H2.
  pose proof (Qfloor_le (q + 1)) as H3. pose proof (Qlt_floor (q + 1)) as H4.
  rewrite inject_Z_plus in H2, H4.
  destruct (floor_bounds _ _ _ H1 H2 H3 H4) as [A B].
  rewrite <- inject_Z_plus in B.
  rewrite <- Zlt_Qlt in A, B. lia.
Qed.

Lemma Qmod_wd (t t' P : Q) : t == t' -> Spec.Qmod t P == Spec.Qmod t' P.
Proof.
  intros H. unfold Spec.Qmod.
  assert (F : Qfloor (t / P) = Qfloor (t' / P)) by (apply Qfloor_comp; now rewrite H).
  now rewrite F, H.
Qed.

(** [t mod P] has period [P]. *)
Lemma Qmod_period (t P : Q) : 0 < P -> Spec.Qmod (t + P) P == Spec.Qmod t P.
Proof.
  intros HP. unfold Spec.Qmod.
  assert (E : (t + P) / P == t / P + 1) by (field; lra).
  rewrite E, Qfloor_plus1, inject_Z_plus. simpl. ring.
Qed.

(** [%] is [mod] on a time that is not negative and a positive period. *)
Lemma n_rem_fin (t P : Q) :
  0 <= t -> 0 < P -> n_rem (Fin t) (Fin P) = fin (Spec.Qmod t P).
Proof.
  intros Ht HP. simpl. destruct (Qeq_bool P 0) eqn:E.
  { apply Qeq_bool_iff in E. lra. }
  apply fin_eq. unfold Spec.Qmod. rewrite Qtrunc_floor; [reflexivity|].
  apply Qle_shift_div_l; lra.
Qed.




(** ** Layers the evaluator can draw *)

Lemma getp_object (v : value) (k : string) :
  is_object v = true -> getp v k = Some (get v k).
Proof. destruct v; simpl; intros; try discriminate; reflexivity. Qed.

Lemma str_eq_is_object (l : value) (k s : string) :
  str_eq (get l k) s = true -> is_object l = true.
Proof. destruct l; simpl; intros; try discriminate. reflexivity. Qed.

Lemma in_range_is_object (p : value) (k : string) (lo hi : Q) :
  in_range (get p k) lo hi = true -> is_object p = true.
Proof. destruct p; simpl; intros; try discriminate. reflexivity. Qed.

Lemma in_range_number (v : value) (lo hi : Q) :
  in_range v lo hi = true -> exists q, v = vnum q.
Proof.
  destruct v as [| | |[]| | |]; simpl; try discriminate.
  intros _. unfold vnum. eauto.
Qed.

Lemma finite_value_number (v : value) :
  finite_value v = true -> exists q, v = vnum q.
Proof.
  destruct v as [| | |[]| | |]; simpl; try discriminate.
  intros _. unfold vnum. eauto.
Qed.

Lemma animation_ok_steppable (D : Q) (a : value) :
  animation_ok D a = true -> steppable a = true.
Proof.
  unfold animation_ok, steppable, orbit_any_period, linear_finite.
  destruct (is_orbit a) eqn:E; intros H; andb_split.
  - apply orb_true_intro. left. cbn [andb].
    match goal with
    | H : in_range (get a "duration") _ _ = true |- _ =>
        apply in_range_number in H as [? ->]
    end.
    repeat (apply andb_true_intro; split); auto.
  - apply orb_true_intro. right. cbn [negb andb].
    match goal with
    | H : window_ok _ _ = true |- _ => apply window_ok_finite in H as [? ?]
    end.
    assert (O : is_object a = true).
    { repeat match goal with
             | H : _ || _ = true |- _ => apply orb_prop in H as [H|H]
             end; eapply str_eq_is_object; eassumption. }
    repeat (apply andb_true_intro; split); auto.
Qed.

Lemma layer_ok_drawable (D : Q) (l : value) :
  layer_ok D l = true -> drawable l = true.
Proof.
  unfold layer_ok, animations_ok, drawable. intros H.
  apply andb_prop in H as [Hp Ha]. rewrite Hp. cbn [andb].
  destruct (get l "animations") as [| | | | |anims|]; try discriminate.
  destruct (str_eq (get l "type") "circle").
  - induction anims as [|a anims IH]; cbn [forallb] in *; auto.
    apply andb_prop in Ha as [H1 H2].
    now rewrite (animation_ok_steppable _ _ H1), IH.
  - destruct anims; [reflexivity|discriminate].
Qed.

Lemma layers_ok_drawable (D : Q) (ls : list value) :
  forallb (layer_ok D) ls = true -> forallb drawable ls = true.
Proof.
  induction ls as [|l ls IH]; cbn [forallb]; auto.
  intros H. apply andb_prop in H as [H1 H2].
  now rewrite (layer_ok_drawable _ _ H1), IH.
Qed.

(** The visualization of every answer has the layout of [obj_spec] and
    layers the evaluator can draw. *)
Lemma sanitized_layers_drawable (s2n : string -> num) (n2s : num -> string)
      (ans r : value) :
  sanitizeAnswer s2n n2s ans = Some r ->
  exists id D fps layers,
    visualization r = obj_spec id (Fin D) (Fin fps) layers
    /\ 1000 <= D /\ D <= 10000
    /\ forallb drawable layers = true.
Proof.
  intros Er.
  destruct (sanitizeAnswer_shape _ _ _ _ Er)
    as (text & id & D & fps & rs & -> & _ & _ & HD1 & HD2 & _ & _ & Hrs).
  exists id, D, fps. eexists. split; [reflexivity|]. repeat split; auto.
  pose proof (mapped_kept_ok _ _ _ _ Hrs) as Hkept.
  destruct (filter truthy rs) as [|r0 rs0]; [reflexivity|].
  now apply layers_ok_drawable in Hkept.
Qed.

Section EvaluatorProofs.

Variable StringToNumber : string -> num.
Variable NumberToString : num -> string.
Variable cos sin : Q -> Q.
Variable PI : Q.
Variable atan2 : num -> num -> num.

(** *** No TypeError on layers the sanitizer writes *)

Lemma number_or_missing_ToNumber (v : value) :
  number_or_missing v = true ->
  exists n, ToNumber StringToNumber NumberToString v = Some n.
Proof. destruct v; simpl; intros; try discriminate; eauto. Qed.

Lemma orbit_period_number (ad dur : value) :
  number_or_missing ad = true -> number_or_missing dur = true ->
  number_or_missing (orbit_period ad dur) = true.
Proof.
  unfold orbit_period, js_or. intros H1 H2. now destruct (truthy ad).
Qed.

(** The phase is a finite number whatever number the period is. *)
Lemma orbit_phase_finite (t : num) (orbitDur : value) :
  number_or_missing orbitDur = true ->
  exists q, orbit_phase StringToNumber NumberToString t orbitDur = Some (vnum q).
Proof.
  intros H. destruct (number_or_missing_ToNumber _ H) as [d E].
  unfold orbit_phase, js_or, vnum. rewrite E. cbn [bind].
  destruct d as [| | |d]; destruct t as [| | |x];
    cbn -[Qred Qeq_bool Qdiv Qmult Qminus];
    repeat match goal with
           | |- context [if ?c then _ else _] =>
               let E := fresh "E" in
               destruct c eqn:E; cbn -[Qred Qeq_bool Qdiv Qmult Qminus]
           end; eauto; try (simpl in *; congruence); unfold fin; eauto.
Qed.

Lemma orbit_step_finite (dur : value) (t : num) (x y r a : value) :
  number_or_missing dur = true ->
  orbit_any_period a = true ->
  exists x' y',
    apply_animation StringToNumber NumberToString cos sin PI dur t (x, y, r) a
    = Some (vnum x', vnum y', r).
Proof.
  unfold orbit_any_period, is_orbit. intros Hd H. andb_split.
  match goal with
  | H : str_eq (get a "property") "orbit" = true |- _ =>
      pose proof (str_eq_is_object _ _ _ H) as Ho; rename H into Hp
  end.
  unfold apply_animation. rewrite !(getp_object a) by assumption. cbn [bind].
  rewrite Hp.
  destruct (orbit_phase_finite t (orbit_period (get a "duration") dur)) as [p ->];
    [now apply orbit_period_number|].
  repeat match goal with
         | H : in_range _ _ _ = true |- _ => apply in_range_number in H as [? ->]
         end.
  unfold orbit_angle, js_add, vnum, Math_cos, Math_sin.
  cbn [ToPrimitive is_string orb ToNumber n_mul n_add fin bind].
  eexists. eexists. reflexivity.
Qed.

Lemma linear_step_numbers (dur : value) (t nx ny nr : num) (a : value) :
  linear_finite a = true ->
  exists nx' ny' nr',
    apply_animation StringToNumber NumberToString cos sin PI dur t
                    (VNum nx, VNum ny, VNum nr) a
    = Some (VNum nx', VNum ny', VNum nr').
Proof.
  unfold linear_finite, is_orbit. intros H. andb_split.
  match goal with
  | H : negb _ = true |- _ => apply negb_true_iff in H; rename H into Hp
  end.
  unfold apply_animation. rewrite !(getp_object a) by assumption. cbn [bind].
  rewrite Hp.
  repeat match goal with
         | H : finite_value _ = true |- _ => apply finite_value_number in H as [? ->]
         end.
  unfold linear_progress, js_add, vnum.
  cbn [js_nullish ToPrimitive is_string orb ToNumber bind].
  destruct (str_eq (get a "property") "x"), (str_eq (get a "property") "y"),
    (str_eq (get a "property") "r"); do 3 eexists; reflexivity.
Qed.

Lemma step_numbers (dur : value) (t nx ny nr : num) (a : value) :
  number_or_missing dur = true ->
  steppable a = true ->
  exists nx' ny' nr',
    apply_animation StringToNumber NumberToString cos sin PI dur t
                    (VNum nx, VNum ny, VNum nr) a
    = Some (VNum nx', VNum ny', VNum nr').
Proof.
  unfold steppable. intros Hd H. apply orb_prop in H as [H|H].
  - destruct (orbit_step_finite dur t (VNum nx) (VNum ny) (VNum nr) a Hd H)
      as (x' & y' & ->). unfold vnum. eauto.
  - now apply linear_step_numbers.
Qed.

Lemma run_numbers (dur : value) (t : num) (anims : list value) :
  number_or_missing dur = true ->
  forallb steppable anims = true ->
  forall nx ny nr, exists nx' ny' nr',
      run_animations StringToNumber NumberToString cos sin PI dur t anims
                     (VNum nx, VNum ny, VNum nr)
      = Some (VNum nx', VNum ny', VNum nr').
Proof.
  intros Hd.
  induction anims as [|a anims IH]; cbn [run_animations forallb]; intros H nx ny nr;
    [eauto|].
  apply andb_prop in H as [Ha H].
  destruct (step_numbers dur t nx ny nr a Hd Ha) as (x1 & y1 & r1 & ->).
  cbn [bind]. auto.
Qed.

Lemma resolve_layer_emits (dur : value) (t : num) (layer : value) :
  number_or_missing dur = true ->
  drawable layer = true ->
  exists o,
    resolve_layer StringToNumber NumberToString cos sin PI dur t layer = Some o
    /\ emits layer o /\ numeric o = true.
Proof.
  unfold drawable, props_ok. intros Hd H. andb_split.
  destruct (get layer "animations") as [| | | | |anims|] eqn:EA; try discriminate.
  unfold resolve_layer, emits.
  destruct (str_eq (get layer "type") "circle") eqn:Ec.
  - pose proof (str_eq_is_object _ _ _ Ec) as Ho. andb_split.
    match goal with
    | H : in_range (get (get layer "props") "x") _ _ = true |- _ =>
        pose proof (in_range_is_object _ _ _ _ H) as Hpo
    end.
    rewrite !(getp_object layer) by assumption. cbn [bind]. rewrite Ec.
    rewrite !(getp_object (get layer "props")) by assumption. cbn [bind].
    rewrite EA. cbn [js_nullish iterate bind].
    repeat match goal with
           | H : in_range _ _ _ = true |- _ => apply in_range_number in H as [? ->]
           end.
    unfold vnum.
    match goal with
    | |- context [run_animations _ _ _ _ _ dur t anims (VNum ?x, VNum ?y, VNum ?r)] =>
        destruct (run_numbers dur t anims Hd ltac:(assumption) x y r)
          as (x' & y' & r' & ->)
    end.
    cbn [bind]. eexists. split; [reflexivity|]. split; [eauto|reflexivity].
  - destruct (str_eq (get layer "type") "arrow") eqn:Ea.
    + pose proof (str_eq_is_object _ _ _ Ea) as Ho. andb_split.
      match goal with
      | H : in_range (get (get layer "props") "x") _ _ = true |- _ =>
          pose proof (in_range_is_object _ _ _ _ H) as Hpo
      end.
      rewrite !(getp_object layer) by assumption. cbn [bind]. rewrite Ec, Ea.
      rewrite !(getp_object (get layer "props")) by assumption. cbn [bind].
      eexists. split; [reflexivity|]. split; [reflexivity|].
      repeat match goal with
             | H : in_range _ _ _ = true |- _ => apply in_range_number in H as [? ->]
             end.
      reflexivity.
    + destruct (str_eq (get layer "type") "lottie") eqn:El; [|discriminate].
      pose proof (str_eq_is_object _ _ _ El) as Ho.
      rewrite !(getp_object layer) by assumption. cbn [bind]. rewrite Ec, Ea.
      eexists. split; [reflexivity|]. split; reflexivity.
Qed.

Lemma mapM_resolve (dur : value) (t : num) (layers : list value) :
  number_or_missing dur = true ->
  forallb drawable layers = true ->
  exists per,
    mapM (resolve_layer StringToNumber NumberToString cos sin PI dur t) layers = Some per
    /\ Forall2 emits layers per /\ forallb numeric per = true.
Proof.
  intros Hd.
  induction layers as [|l layers IH]; cbn [mapM forallb]; intros H.
  - eexists; split; [reflexivity|]. split; [constructor|reflexivity].
  - apply andb_prop in H as [Hl H].
    destruct (resolve_layer_emits dur t l Hd Hl) as (o & -> & Ho & Hn).
    destruct (IH H) as (per & -> & Hper & Hns). cbn [bind].
    eexists; split; [reflexivity|]. split; [now constructor|].
    cbn [forallb]. now rewrite Hn, Hns.
Qed.

Lemma drawn_numeric (per : list (option RenderState)) :
  forallb numeric per = true -> forallb numeric_state (drawn per) = true.
Proof.
  unfold drawn. induction per as [|[s|] per IH]; cbn [forallb flat_map app numeric];
    intros H; auto.
  apply andb_prop in H as [H1 H2]. now rewrite H1, IH.
Qed.

Lemma paint_total (s : RenderState) :
  numeric_state s = true ->
  exists calls, paint StringToNumber NumberToString cos sin PI atan2 s = Some calls.
Proof.
  destruct s as [x y r f|x y dx dy c]; cbn [numeric_state]; intros H; andb_split;
    repeat match goal with
           | H : is_number ?v = true |- _ =>
               destruct v; try discriminate H; clear H
           end;
    unfold paint, js_add; cbn [ToPrimitive is_string orb ToNumber bind];
    eexists; reflexivity.
Qed.

(** On a spec of the layout the sanitizer writes the evaluator returns,
    layer by layer, and every state it returns can be painted. *)
Lemma evaluate_shaped (id : value) (D fps : Q) (layers : list value) (elapsed : num) :
  forallb drawable layers = true ->
  exists per,
    evaluate StringToNumber NumberToString cos sin PI
             (obj_spec id (Fin D) (Fin fps) layers) elapsed = Some (drawn per)
    /\ Forall2 emits layers per
    /\ forallb numeric_state (drawn per) = true.
Proof.
  intros Hs. unfold evaluate, spec_dur, spec_layers.
  cbn [obj_spec getp get lookup String.eqb Ascii.eqb Bool.eqb bind js_nullish].
  assert (Hd : number_or_missing (js_or (VNum (Fin D)) (vnum 4000)) = true).
  { unfold js_or. now destruct (truthy (VNum (Fin D))). }
  destruct (number_or_missing_ToNumber _ Hd) as [nd ->]. cbn [bind].
  match goal with
  | |- context [mapM (resolve_layer _ _ _ _ _ ?d ?t) layers] =>
      destruct (mapM_resolve d t layers Hd Hs) as (per & -> & Hper & Hn)
  end.
  cbn [bind]. exists per. split; [reflexivity|]. split; [exact Hper|].
  now apply drawn_numeric.
Qed.

Lemma frame_shaped (id : value) (D fps : Q) (layers : list value) (elapsed : num) :
  forallb drawable layers = true ->
  exists calls,
    frame StringToNumber NumberToString cos sin PI atan2
          (obj_spec id (Fin D) (Fin fps) layers) elapsed = Some calls.
Proof.
  intros Hs. unfold frame.
  destruct (evaluate_shaped id D fps layers elapsed Hs) as (per & -> & _ & Hn).
  cbn [bind].
  destruct (mapM_total (paint StringToNumber NumberToString cos sin PI atan2)
              numeric_state (drawn per) paint_total Hn) as [calls ->].
  cbn [bind]. eauto.
Qed.

(** C6, as amended.  For every sanitized spec and every time the
    evaluator returns the render states of the circle and arrow layers, one
    each and in the order of [spec.layers]; a lottie layer has none, as the
    callback draws circles and arrows only.  The render state of an arrow is
    its base props unchanged, whatever the time, and a circle keeps its base
    fill. *)
Theorem evaluate_per_layer (ans r : value) (elapsed : num) :
  sanitizeAnswer StringToNumber NumberToString ans = Some r ->
  exists per,
    evaluate StringToNumber NumberToString cos sin PI (visualization r) elapsed
    = Some (drawn per)
    /\ Forall2 emits (layers_of (visualization r)) per.
Proof.
  intros Er.
  destruct (sanitized_layers_drawable _ _ _ _ Er)
    as (id & D & fps & layers & -> & _ & _ & Hs).
  destruct (evaluate_shaped id D fps layers elapsed Hs) as (per & E & Hper & _).
  exists per. split; [exact E|exact Hper].
Qed.

(** C5.  For every sanitized spec and every time [elapsed] at or past its
    duration, the evaluator returns, and returns what it returns at the
    duration itself: the same render states and the same calls on the
    canvas, for every layer. *)
Theorem evaluate_past_duration (ans r : value) (D elapsed : num) :
  sanitizeAnswer StringToNumber NumberToString ans = Some r ->
  get (visualization r) "duration" = VNum D ->
  n_le D elapsed = true ->
  let spec := visualization r in
  evaluate StringToNumber NumberToString cos sin PI spec elapsed
  = evaluate StringToNumber NumberToString cos sin PI spec D
  /\ frame StringToNumber NumberToString cos sin PI atan2 spec elapsed
     = frame StringToNumber NumberToString cos sin PI atan2 spec D
  /\ (exists states,
         evaluate StringToNumber NumberToString cos sin PI spec D = Some states)
  /\ (exists calls,
         frame StringToNumber NumberToString cos sin PI atan2 spec D = Some calls).
Proof.
  intros Er.
  destruct (sanitized_layers_drawable _ _ _ _ Er)
    as (id & Dq & fps & layers & -> & HD1 & HD2 & Hs).
  cbn [obj_spec get lookup String.eqb Ascii.eqb Bool.eqb].
  intros ED H. injection ED as <-.
  assert (E : evaluate StringToNumber NumberToString cos sin PI
                (obj_spec id (Fin Dq) (Fin fps) layers) elapsed
              = evaluate StringToNumber NumberToString cos sin PI
                  (obj_spec id (Fin Dq) (Fin fps) layers) (Fin Dq)).
  { unfold evaluate, spec_dur.
    cbn [obj_spec getp get lookup String.eqb Ascii.eqb Bool.eqb bind].
    rewrite js_or_number by lra. cbn [ToNumber bind].
    now rewrite (Math_min_past Dq elapsed H). }
  split; [exact E|]. split; [unfold frame; now rewrite E|].
  split.
  - destruct (evaluate_shaped id Dq fps layers (Fin Dq) Hs) as (per & -> & _). eauto.
  - now apply frame_shaped.
Qed.

(** *** Linear animations *)

Lemma linear_progress_fin (t start end_ : Q) :
  linear_progress StringToNumber NumberToString (Fin t) (vnum start) (vnum end_)
  = Some (fin (Qmin (Qmax ((t - start) / Qmax (end_ - start) 1) 0) 1)).
Proof.
  unfold linear_progress, vnum. cbn [ToNumber bind]. f_equal.
  change (n_sub (Fin end_) (Fin start)) with (Fin (Qred (end_ - start))).
  change (n_sub (Fin t) (Fin start)) with (Fin (Qred (t - start))).
  rewrite Math_max_fin.
  unfold fin at 1. rewrite n_div_fin.
  2:{ rewrite Qred_correct. pose proof (Q.le_max_r (Qred (end_ - start)) 1). lra. }
  unfold fin at 1. rewrite Math_max_fin. unfold fin at 1. rewrite Math_min_fin.
  apply fin_eq. rewrite !Qred_correct. reflexivity.
Qed.

(** The evaluator computes the rule of the specification: the property a
    Linear animation targets is [linear_value] at the clamped time. *)
Lemma linear_resolved (id lid : value) (D fps x0 y0 r0 : Q) (fillv : string)
      (p : target) (from to start end_ e : Q) :
  1000 <= D ->
  let spec := obj_spec id (Fin D) (Fin fps)
                [ circle_layer lid x0 y0 r0 fillv [ linear_anim p from to start end_ ] ] in
  let v := VNum (fin (Spec.linear_value from to start end_ (Qmin e D))) in
  evaluate StringToNumber NumberToString cos sin PI spec (Fin e)
  = Some [ RCircle (match p with TX => v | _ => vnum x0 end)
                   (match p with TY => v | _ => vnum y0 end)
                   (match p with TR => v | _ => vnum r0 end)
                   (VStr fillv) ].
Proof.
  intros HD spec v. subst spec v.
  unfold evaluate, spec_dur, spec_layers.
  cbn [obj_spec getp get lookup String.eqb Ascii.eqb Bool.eqb bind js_nullish].
  rewrite js_or_number by lra. cbn [ToNumber bind]. rewrite Math_min_fin.
  unfold fin at 1.
  assert (V : forall t, t == Qmin e D ->
            (prog <- linear_progress StringToNumber NumberToString
                       (Fin t) (vnum start) (vnum end_) ;;
             js_add StringToNumber NumberToString (vnum from)
               (VNum (n_mul (n_sub (Fin to) (Fin from)) prog)))
            = Some (VNum (fin (Spec.linear_value from to start end_ (Qmin e D))))).
  { intros t Ht. rewrite linear_progress_fin. cbn [bind].
    unfold js_add, vnum. cbn [ToPrimitive is_string orb ToNumber bind].
    do 2 f_equal. unfold fin. cbn [n_sub n_mul n_add]. apply fin_eq.
    unfold Spec.linear_value. rewrite !Qred_correct, Ht. reflexivity. }
  specialize (V (Qred (Qmin e D)) (Qred_correct _)).
  destruct (linear_progress StringToNumber NumberToString (Fin (Qred (Qmin e D)))
              (vnum start) (vnum end_)) as [prog|] eqn:EP; [|discriminate V].
  cbn [bind] in V.
  destruct p; cbn -[linear_progress js_add fin Qmin n_sub n_mul];
    rewrite EP; cbn -[linear_progress js_add fin Qmin n_sub n_mul];
    rewrite V; reflexivity.
Qed.



(** *** Orbit animations with a valid period *)

Lemma orbit_phase_valid (t P : Q) :
  0 <= t -> 0 < P ->
  orbit_phase StringToNumber NumberToString (Fin t) (VNum (Fin P))
  = Some (VNum (fin (Spec.orbit_phase_of t P))).
Proof.
  intros Ht HP. unfold orbit_phase. cbn [ToNumber bind].
  rewrite n_rem_fin by assumption.
  unfold fin at 1. rewrite n_div_fin by lra.
  rewrite js_or_fin_zero. do 2 f_equal. apply fin_eq.
  unfold Spec.orbit_phase_of. now rewrite Qred_correct.
Qed.

Lemma orbit_resolved (id lid : value) (D fps x0 y0 r0 : Q) (fillv : string)
      (cx cy rad P e : Q) :
  1000 <= D -> 0 < P -> 0 <= e ->
  let scene := obj_spec id (Fin D) (Fin fps)
                 [ circle_layer lid x0 y0 r0 fillv [ orbit_anim cx cy rad (vnum P) ] ] in
  let th := Qred (Spec.orbit_phase_of (Qmin e D) P * PI * 2) in
  evaluate StringToNumber NumberToString cos sin PI scene (Fin e)
  = Some [ RCircle (VNum (fin (cx + rad * cos th))) (VNum (fin (cy + rad * sin th)))
                   (vnum r0) (VStr fillv) ].
Proof.
  intros HD HP He scene th. subst scene th.
  unfold evaluate, spec_dur, spec_layers.
  cbn [obj_spec getp get lookup String.eqb Ascii.eqb Bool.eqb bind js_nullish].
  rewrite js_or_number by lra. cbn [ToNumber bind]. rewrite Math_min_fin.
  match goal with |- _ = ?r => set (R := r) end.
  cbn -[orbit_phase orbit_angle orbit_period js_add fin Qmin n_mul Math_cos Math_sin].
  unfold orbit_period. change (vnum P) with (VNum (Fin P)).
  rewrite js_or_number by lra. subst R.
  assert (Ph : orbit_phase StringToNumber NumberToString (fin (Qmin e D)) (VNum (Fin P))
               = Some (VNum (fin (Spec.orbit_phase_of (Qmin e D) P)))).
  { unfold fin at 1. rewrite orbit_phase_valid;
      [|rewrite Qred_correct; apply Q.min_glb; lra|lra].
    do 2 f_equal. apply fin_eq. unfold Spec.orbit_phase_of.
    assert (M : Spec.Qmod (Qred (Qmin e D)) P == Spec.Qmod (Qmin e D) P).
    { apply Qmod_wd, Qred_correct. }
    now rewrite M. }
  rewrite Ph. cbn [bind].
  unfold orbit_angle, js_add, vnum, Math_cos, Math_sin.
  cbn [ToPrimitive is_string orb ToNumber n_mul n_add bind fin mapM drawn flat_map app].
  unfold fin.
  do 2 f_equal.
  assert (A : Qred (Qred (Qred (Spec.orbit_phase_of (Qmin e D) P) * PI) * 2)
              = Qred (Spec.orbit_phase_of (Qmin e D) P * PI * 2)).
  { apply Qred_complete. now rewrite !Qred_correct. }
  rewrite A.
  f_equal; do 2 f_equal; apply Qred_complete; now rewrite !Qred_correct.
Qed.

(** The angle is the same one period later, as long as the time is not
    clamped. *)
Lemma orbit_angle_shift (D P e : Q) :
  0 < P -> 0 <= e -> e + P <= D ->
  Qred (Spec.orbit_phase_of (Qmin (e + P) D) P * PI * 2)
  = Qred (Spec.orbit_phase_of e P * PI * 2)
  /\ Qred (Spec.orbit_phase_of (Qmin e D) P * PI * 2)
     = Qred (Spec.orbit_phase_of e P * PI * 2).
Proof.
  intros HP He HeP.
  assert (E1 : Qmin (e + P) D == e + P) by (apply Q.min_l; lra).
  assert (E2 : Qmin e D == e) by (apply Q.min_l; lra).
  split; apply Qred_complete; unfold Spec.orbit_phase_of.
  - rewrite (Qmod_wd _ _ P E1), Qmod_period by assumption. reflexivity.
  - rewrite (Qmod_wd _ _ P E2). reflexivity.
Qed.

(** C8, as amended.  In a spec whose duration is at least 4000, a circle
    with the Orbit animation [{centerX: 320, centerY: 200, radius: 100,
    duration: 4000}] is drawn at the same place at times 0 and 4000.  In
    general, for a positive period [P] and a time [e >= 0] with
    [e + P <= durationMs], the circle is at
    [x = centerX + radius * cos(2 pi (e mod P) / P)],
    [y = centerY + radius * sin(2 pi (e mod P) / P)], and at the same place
    at time [e + P]. *)
Theorem orbit_periodic (id lid : value) (D fps x0 y0 r0 : Q) (fillv : string)
        (cx cy rad P e D4 : Q) :
  1000 <= D -> 0 < P -> 0 <= e -> e + P <= D -> 4000 <= D4 ->
  let scene d a := obj_spec id (Fin d) (Fin fps) [ circle_layer lid x0 y0 r0 fillv [ a ] ] in
  let th := Qred (Spec.orbit_phase_of e P * PI * 2) in
  let eval := evaluate StringToNumber NumberToString cos sin PI in
  eval (scene D4 (orbit_anim 320 200 100 (vnum 4000))) (Fin 0)
  = eval (scene D4 (orbit_anim 320 200 100 (vnum 4000))) (Fin 4000)
  /\ eval (scene D (orbit_anim cx cy rad (vnum P))) (Fin e)
     = Some [ RCircle (VNum (fin (cx + rad * cos th))) (VNum (fin (cy + rad * sin th)))
                      (vnum r0) (VStr fillv) ]
  /\ eval (scene D (orbit_anim cx cy rad (vnum P))) (Fin (e + P))
     = eval (scene D (orbit_anim cx cy rad (vnum P))) (Fin e).
Proof.
  intros HD HP He HeP HD4 scene th eval. subst scene th eval. cbv beta.
  destruct (orbit_angle_shift D P e HP He HeP) as [T1 T2].
  repeat split.
  - change (Fin 4000) with (Fin (0 + 4000)).
    rewrite !orbit_resolved by lra. cbv zeta.
    destruct (orbit_angle_shift D4 4000 0) as [U1 U2]; try lra.
    now rewrite U1, U2.
  - rewrite orbit_resolved by lra. cbv zeta. now rewrite T2.
  - rewrite !orbit_resolved by lra. cbv zeta. now rewrite T1, T2.
Qed.

(** *** Circles with Orbit and Linear animations, at any time that is a number *)

Lemma n_div_inf (m : Q) :
  0 < m -> n_div PInf (Fin m) = PInf /\ n_div NInf (Fin m) = NInf.
Proof.
  intros H. cbn [n_div]. unfold signed_inf, Qltb.
  destruct (Qeq_bool m 0) eqn:E.
  { apply Qeq_bool_iff in E. lra. }
  destruct (Qle_bool m 0) eqn:E'; qbool; [lra|]. split; reflexivity.
Qed.

(** The progress of a Linear animation is a number from 0 to 1 at every
    time that is not NaN. *)
Lemma linear_progress_unit (t : num) (start end_ : Q) :
  is_nan t = false ->
  exists q,
    linear_progress StringToNumber NumberToString t (vnum start) (vnum end_)
    = Some (Fin q)
    /\ 0 <= q /\ q <= 1.
Proof.
  intros Ht.
  assert (Hm : 0 < Qred (Qmax (Qred (end_ - start)) 1)).
  { rewrite Qred_correct. pose proof (Q.le_max_r (Qred (end_ - start)) 1). lra. }
  destruct t as [| | |x]; [discriminate| | |].
  - exists 1. split; [|lra].
    unfold linear_progress, vnum. cbn [ToNumber bind]. f_equal.
    change (n_sub (Fin end_) (Fin start)) with (Fin (Qred (end_ - start))).
    rewrite Math_max_fin. unfold fin at 1.
    change (n_sub PInf (Fin start)) with PInf.
    rewrite (proj1 (n_div_inf _ Hm)). reflexivity.
  - exists 0. split; [|lra].
    unfold linear_progress, vnum. cbn [ToNumber bind]. f_equal.
    change (n_sub (Fin end_) (Fin start)) with (Fin (Qred (end_ - start))).
    rewrite Math_max_fin. unfold fin at 1.
    change (n_sub NInf (Fin start)) with NInf.
    rewrite (proj2 (n_div_inf _ Hm)). reflexivity.
  - rewrite linear_progress_fin. unfold fin. eexists. split; [reflexivity|].
    rewrite Qred_correct. split.
    + apply Q.min_glb; [apply Q.le_max_r|lra].
    + apply Q.le_min_r.
Qed.

Lemma linear_step_finite (dur : value) (t : num) (x y r : Q) (a : value) :
  is_nan t = false ->
  linear_finite a = true ->
  exists x' y' r',
    apply_animation StringToNumber NumberToString cos sin PI dur t
                    (vnum x, vnum y, vnum r) a
    = Some (vnum x', vnum y', vnum r').
Proof.
  unfold linear_finite, is_orbit. intros Ht H. andb_split.
  match goal with
  | H : negb _ = true |- _ => apply negb_true_iff in H; rename H into Hp
  end.
  unfold apply_animation. rewrite !(getp_object a) by assumption. cbn [bind].
  rewrite Hp.
  repeat match goal with
         | H : finite_value _ = true |- _ => apply finite_value_number in H as [? ->]
         end.
  unfold vnum. cbn [js_nullish].
  match goal with
  | |- context [linear_progress _ _ t (VNum (Fin ?s)) (VNum (Fin ?e))] =>
      destruct (linear_progress_unit t s e Ht) as (q & Eq & _);
      unfold vnum in Eq; rewrite Eq
  end.
  unfold js_add, vnum.
  cbn [ToPrimitive is_string orb ToNumber bind n_sub n_mul n_add fin].
  destruct (str_eq (get a "property") "x"), (str_eq (get a "property") "y"),
    (str_eq (get a "property") "r"); do 3 eexists; reflexivity.
Qed.

Lemma animated_step_finite (dur : value) (t : num) (x y r : Q) (a : value) :
  number_or_missing dur = true ->
  is_nan t = false ->
  orbit_any_period a || linear_moderate a = true ->
  exists x' y' r',
    apply_animation StringToNumber NumberToString cos sin PI dur t
                    (vnum x, vnum y, vnum r) a
    = Some (vnum x', vnum y', vnum r').
Proof.
  intros Hd Ht H. apply orb_prop in H as [H|H].
  - destruct (orbit_step_finite dur t (vnum x) (vnum y) (vnum r) a Hd H)
      as (x' & y' & ->). eauto.
  - unfold linear_moderate in H. andb_split. now apply linear_step_finite.
Qed.

Lemma animated_run_finite (dur : value) (t : num) (anims : list value) :
  number_or_missing dur = true ->
  is_nan t = false ->
  forallb (fun a => orbit_any_period a || linear_moderate a) anims = true ->
  forall x y r, exists x' y' r',
      run_animations StringToNumber NumberToString cos sin PI dur t anims
                      (vnum x, vnum y, vnum r)
      = Some (vnum x', vnum y', vnum r').
Proof.
  intros Hd Ht.
  induction anims as [|a anims IH]; cbn [run_animations forallb]; intros H x y r;
    [eauto|].
  apply andb_prop in H as [Ha H].
  destruct (animated_step_finite dur t x y r a Hd Ht Ha) as (x1 & y1 & r1 & ->).
  cbn [bind]. auto.
Qed.

(** The period the evaluator divides by is [period_used], which is never
    zero and never NaN. *)
Lemma orbit_period_used (ad sd : value) :
  number_or_missing ad = true -> number_or_missing sd = true ->
  orbit_period ad (js_or sd (vnum 4000)) = VNum (period_used ad sd)
  /\ usable (period_used ad sd) = true.
Proof.
  unfold orbit_period, period_used, js_or, usable, vnum.
  destruct ad as [| | |a| | |]; try discriminate;
    destruct sd as [| | |s| | |]; try discriminate; intros _ _;
    cbn [truthy].
  - split; reflexivity.
  - destruct (is_zero s || is_nan s) eqn:E; cbn [negb]; split; auto.
    now rewrite E.
  - destruct (is_zero a || is_nan a) eqn:E; cbn [negb]; split; auto.
    now rewrite E.
  - destruct (is_zero a || is_nan a) eqn:E; cbn [negb].
    + destruct (is_zero s || is_nan s) eqn:E'; cbn [negb]; split; auto.
      now rewrite E'.
    + split; auto. now rewrite E.
Qed.

Lemma Qtrunc_opp (q : Q) : Qtrunc (- q) = (- Qtrunc q)%Z.
Proof.
  destruct q as [n d]. unfold Qtrunc. cbn [Qopp Qnum Qden].
  apply Z.quot_opp_l. discriminate.
Qed.

(** What rounding toward zero leaves has the sign of the number and is less
    than 1 in magnitude. *)
Lemma Qtrunc_bounds (q : Q) :
  (0 <= q -> 0 <= q - inject_Z (Qtrunc q) /\ q - inject_Z (Qtrunc q) < 1)
  /\ (q <= 0 -> -1 < q - inject_Z (Qtrunc q) /\ q - inject_Z (Qtrunc q) <= 0).
Proof.
  split; intros H.
  - rewrite Qtrunc_floor by assumption.
    pose proof (Qfloor_le q). pose proof (Qlt_floor q) as L.
    rewrite inject_Z_plus in L. change (inject_Z 1) with 1 in L. split; lra.
  - assert (H' : 0 <= - q) by lra.
    assert (E : Qtrunc q = (- Qfloor (- q))%Z).
    { rewrite <- (Qtrunc_floor _ H'), Qtrunc_opp. lia. }
    rewrite E, inject_Z_opp.
    pose proof (Qfloor_le (- q)). pose proof (Qlt_floor (- q)) as L.
    rewrite inject_Z_plus in L. change (inject_Z 1) with 1 in L. split; lra.
Qed.

(** The phase of an Orbit: a finite number from -1 to 1 whatever the time
    and the period; 0 when the time or the period is not finite; and, from
    time 0 on, not above 0 with a negative period and not below 0 with a
    positive one. *)
Lemma orbit_phase_bounds (t n : num) :
  usable n = true ->
  exists p,
    orbit_phase StringToNumber NumberToString t (VNum n) = Some (vnum p)
    /\ -1 <= p /\ p <= 1
    /\ (is_finite t && is_finite n = false -> p == 0)
    /\ (n_le (Fin 0) t = true -> n_lt n (Fin 0) = true -> p <= 0)
    /\ (n_le (Fin 0) t = true -> n_lt (Fin 0) n = true -> 0 <= p).
Proof.
  intros Hn.
  assert (Z0 : forall v, v = Some (vnum 0) ->
                 exists p, v = Some (vnum p) /\ -1 <= p /\ p <= 1
                   /\ (is_finite t && is_finite n = false -> p == 0)
                   /\ (n_le (Fin 0) t = true -> n_lt n (Fin 0) = true -> p <= 0)
                   /\ (n_le (Fin 0) t = true -> n_lt (Fin 0) n = true -> 0 <= p)).
  { intros v ->. exists 0. split; [reflexivity|]. repeat split; intros; lra. }
  destruct n as [| | |d]; [discriminate Hn| | |];
    destruct t as [| | |x]; try (apply Z0; reflexivity).
  unfold usable in Hn. cbn [is_zero is_nan orb] in Hn.
  rewrite orb_false_r in Hn. apply negb_true_iff in Hn.
  assert (Hd : ~ d == 0).
  { intros C. apply Qeq_bool_iff in C. congruence. }
  unfold orbit_phase. cbn [ToNumber bind n_rem]. rewrite Hn.
  unfold fin at 1. rewrite n_div_fin by assumption. rewrite js_or_fin_zero.
  unfold fin. eexists. split; [reflexivity|].
  set (T := inject_Z (Qtrunc (x / d))).
  assert (E : Qred (Qred (x - d * T) / d) == x / d - T).
  { rewrite !Qred_correct. field. exact Hd. }
  rewrite E. pose proof (Qtrunc_bounds (x / d)) as [B1 B2]. fold T in B1, B2.
  split; [|split; [|split; [|split]]].
  - destruct (Qlt_le_dec (x / d) 0) as [L|L]; [apply Qlt_le_weak in L|];
      [destruct (B2 L)|destruct (B1 L)]; lra.
  - destruct (Qlt_le_dec (x / d) 0) as [L|L]; [apply Qlt_le_weak in L|];
      [destruct (B2 L)|destruct (B1 L)]; lra.
  - discriminate.
  - cbn [n_le n_lt]. unfold Qltb. intros Hx Hneg.
    apply negb_true_iff in Hneg. qbool.
    assert (L : x / d <= 0).
    { assert (F : x / d == - (x / - d)) by (field; exact Hd).
      assert (0 <= x / - d) by (apply Qle_shift_div_l; lra). lra. }
    destruct (B2 L). lra.
  - cbn [n_le n_lt]. unfold Qltb. intros Hx Hpos.
    apply negb_true_iff in Hpos. qbool.
    assert (L : 0 <= x / d) by (apply Qle_shift_div_l; lra).
    destruct (B1 L). lra.
Qed.

(** C9, as amended.  For a circle layer with sanitized props whose
    animations are Orbit animations with a sanitized center and radius and
    a period that is any number (zero, negative, NaN, infinite) or missing,
    and Linear animations with finite numbers of at most 2^1000 in
    magnitude, and for every time that is not NaN, the evaluator resolves
    finite x, y and r and passes finite coordinates to [arc].  For every
    Orbit animation of the layer the period it divides by is never zero and
    never NaN: it is the period of the animation when that is a number
    other than 0 and NaN, else the duration of the spec when that is such a
    number, else 4000; a negative period is used as it is.  The phase is a
    finite number from -1 to 1: it is 0 when the time or the period is
    infinite (the NaN of the division is replaced by 0), and from time 0 on
    it is not above 0 with a negative period and not below 0 with a positive
    one. *)
Theorem orbit_never_nan (sd : value) (t : num) (layer : value) :
  number_or_missing sd = true ->
  is_nan t = false ->
  animated_circle layer = true ->
  let dur := js_or sd (vnum 4000) in
  (exists x y r calls,
      resolve_layer StringToNumber NumberToString cos sin PI dur t layer
      = Some (Some (RCircle (vnum x) (vnum y) (vnum r)
                            (get (get layer "props") "fill")))
      /\ paint StringToNumber NumberToString cos sin PI atan2
               (RCircle (vnum x) (vnum y) (vnum r) (get (get layer "props") "fill"))
         = Some calls
      /\ forallb finite_arcs calls = true)
  /\ forall a,
      In a (elements (get layer "animations")) -> is_orbit a = true ->
      let period := period_used (get a "duration") sd in
      orbit_period (get a "duration") dur = VNum period
      /\ usable period = true
      /\ exists p,
          orbit_phase StringToNumber NumberToString t
                      (orbit_period (get a "duration") dur)
          = Some (vnum p)
          /\ -1 <= p /\ p <= 1
          /\ (is_finite t && is_finite period = false -> p == 0)
          /\ (n_le (Fin 0) t = true -> n_lt period (Fin 0) = true -> p <= 0)
          /\ (n_le (Fin 0) t = true -> n_lt (Fin 0) period = true -> 0 <= p).
Proof.
  intros Hsd Ht Hl dur.
  assert (Hd : number_or_missing dur = true).
  { unfold dur, js_or. now destruct (truthy sd). }
  unfold animated_circle in Hl. andb_split.
  destruct (get layer "animations") as [| | | | |anims|] eqn:EA; try discriminate.
  match goal with
  | H : forallb _ anims = true |- _ => rename H into Han
  end.
  split.
  - match goal with
    | H : str_eq (get layer "type") "circle" = true |- _ =>
        pose proof (str_eq_is_object _ _ _ H) as Ho; rename H into Hty
    end.
    match goal with H : props_ok layer = true |- _ => rename H into Hp end.
    unfold props_ok in Hp. rewrite Hty in Hp. andb_split.
    match goal with
    | H : in_range (get (get layer "props") "x") _ _ = true |- _ =>
        pose proof (in_range_is_object _ _ _ _ H) as Hpo
    end.
    unfold resolve_layer.
    rewrite !(getp_object layer) by assumption. cbn [bind]. rewrite Hty.
    rewrite !(getp_object (get layer "props")) by assumption. cbn [bind].
    rewrite EA. cbn [js_nullish iterate bind].
    repeat match goal with
           | H : in_range _ _ _ = true |- _ => apply in_range_number in H as [? ->]
           end.
    match goal with
    | |- context [run_animations _ _ _ _ _ dur t anims (vnum ?x, vnum ?y, vnum ?r)] =>
        destruct (animated_run_finite dur t anims Hd Ht Han x y r)
          as (x' & y' & r' & ->)
    end.
    cbn [bind]. exists x', y', r'. eexists.
    split; [reflexivity|]. split; reflexivity.
  - cbn [elements]. intros a Ia Ho. cbv zeta.
    set (period := period_used (get a "duration") sd).
    assert (Ha : orbit_any_period a || linear_moderate a = true).
    { rewrite forallb_forall in Han. now apply Han. }
    assert (Hn : number_or_missing (get a "duration") = true).
    { apply orb_prop in Ha as [Ha|Ha].
      - unfold orbit_any_period in Ha. now andb_split.
      - unfold linear_moderate, linear_finite in Ha. andb_split.
        rewrite Ho in *. discriminate. }
    destruct (orbit_period_used (get a "duration") sd Hn Hsd) as [E U].
    fold dur in E. fold period in E, U. split; [exact E|]. split; [exact U|].
    rewrite E. now apply orbit_phase_bounds.
Qed.

(** *** Calls the canvas accepts *)

(** The progress of a Linear animation is NaN or a number from 0 to 1. *)
Lemma linear_progress_cases (t : num) (start end_ : Q) :
  exists prog,
    linear_progress StringToNumber NumberToString t (vnum start) (vnum end_)
    = Some prog
    /\ (prog = NaN \/ exists q, prog = Fin q /\ 0 <= q /\ q <= 1).
Proof.
  destruct (is_nan t) eqn:Ht.
  - destruct t; try discriminate Ht. exists NaN. split; [reflexivity|now left].
  - destruct (linear_progress_unit t start end_ Ht) as (q & E & H).
    exists (Fin q). split; [exact E|]. right. eauto.
Qed.

(** A value between two numbers that are not negative is not negative. *)
Lemma linear_value_nonneg (from to : Q) (prog : num) :
  0 <= from -> 0 <= to ->
  prog = NaN \/ (exists q, prog = Fin q /\ 0 <= q /\ q <= 1) ->
  n_lt (n_add (Fin from) (n_mul (n_sub (Fin to) (Fin from)) prog)) (Fin 0) = false.
Proof.
  intros Hf Ht [->|(q & -> & H0 & H1)]; [reflexivity|].
  cbn [n_sub n_mul n_add n_lt fin]. unfold Qltb. apply negb_false_iff.
  qbool. rewrite !Qred_correct. nra.
Qed.

Lemma nonneg_number (v : value) :
  nonneg v = true -> exists q, v = VNum (Fin q) /\ 0 <= q.
Proof.
  destruct v as [| | |[| | |q]| | |]; simpl; try discriminate.
  intros H. qbool. eauto.
Qed.

Lemma linear_step_radius (dur : value) (t nx ny nr : num) (a : value) :
  linear_finite a = true ->
  negb (str_eq (get a "property") "r") || nonneg (get a "from") && nonneg (get a "to")
  = true ->
  n_lt nr (Fin 0) = false ->
  exists nx' ny' nr',
    apply_animation StringToNumber NumberToString cos sin PI dur t
                    (VNum nx, VNum ny, VNum nr) a
    = Some (VNum nx', VNum ny', VNum nr')
    /\ n_lt nr' (Fin 0) = false.
Proof.
  unfold linear_finite, is_orbit. intros H Hs Hr. andb_split.
  match goal with
  | H : negb _ = true |- _ => apply negb_true_iff in H; rename H into Hp
  end.
  unfold apply_animation. rewrite !(getp_object a) by assumption. cbn [bind].
  rewrite Hp.
  destruct (str_eq (get a "property") "r") eqn:Er.
  - cbn [negb orb] in Hs. andb_split.
    repeat match goal with
           | H : nonneg _ = true |- _ =>
               apply nonneg_number in H as (? & -> & ?)
           end.
    repeat match goal with
           | H : finite_value _ = true |- _ => apply finite_value_number in H as [? ->]
           end.
    unfold vnum. cbn [js_nullish].
    match goal with
    | |- context [linear_progress _ _ t (VNum (Fin ?s)) (VNum (Fin ?e))] =>
        destruct (linear_progress_cases t s e) as (prog & Eq & Hprog);
        unfold vnum in Eq; rewrite Eq
    end.
    unfold js_add. cbn [ToPrimitive is_string orb ToNumber bind].
    destruct (str_eq (get a "property") "x"), (str_eq (get a "property") "y");
      do 3 eexists; (split; [reflexivity|]);
      now apply linear_value_nonneg.
  - repeat match goal with
           | H : finite_value _ = true |- _ => apply finite_value_number in H as [? ->]
           end.
    unfold linear_progress, js_add, vnum.
    cbn [js_nullish ToPrimitive is_string orb ToNumber bind].
    destruct (str_eq (get a "property") "x"), (str_eq (get a "property") "y");
      do 3 eexists; (split; [reflexivity|exact Hr]).
Qed.

Lemma step_radius (dur : value) (t nx ny nr : num) (a : value) :
  number_or_missing dur = true ->
  steppable a = true ->
  keeps_radius a = true ->
  n_lt nr (Fin 0) = false ->
  exists nx' ny' nr',
    apply_animation StringToNumber NumberToString cos sin PI dur t
                    (VNum nx, VNum ny, VNum nr) a
    = Some (VNum nx', VNum ny', VNum nr')
    /\ n_lt nr' (Fin 0) = false.
Proof.
  unfold steppable, keeps_radius. intros Hd H Hs Hr. apply orb_prop in H as [H|H].
  - destruct (orbit_step_finite dur t (VNum nx) (VNum ny) (VNum nr) a Hd H)
      as (x' & y' & ->). unfold vnum. eauto.
  - apply linear_step_radius; auto.
    assert (Ho : is_orbit a = false).
    { unfold linear_finite in H. andb_split.
      match goal with H : negb _ = true |- _ => now apply negb_true_iff in H end. }
    rewrite Ho in Hs. exact Hs.
Qed.

Lemma run_radius (dur : value) (t : num) (anims : list value) :
  number_or_missing dur = true ->
  forallb steppable anims = true ->
  forallb keeps_radius anims = true ->
  forall nx ny nr,
    n_lt nr (Fin 0) = false ->
    exists nx' ny' nr',
      run_animations StringToNumber NumberToString cos sin PI dur t anims
                     (VNum nx, VNum ny, VNum nr)
      = Some (VNum nx', VNum ny', VNum nr')
      /\ n_lt nr' (Fin 0) = false.
Proof.
  intros Hd.
  induction anims as [|a anims IH]; cbn [run_animations forallb];
    intros H Hs nx ny nr Hr; [eauto 6|].
  apply andb_prop in H as [Ha H]. apply andb_prop in Hs as [Hsa Hs].
  destruct (step_radius dur t nx ny nr a Hd Ha Hsa Hr) as (x1 & y1 & r1 & -> & Hr1).
  cbn [bind]. auto.
Qed.

Lemma in_range_inv (v : value) (lo hi : Q) :
  in_range v lo hi = true -> exists q, v = VNum (Fin q) /\ lo <= q /\ q <= hi.
Proof.
  destruct v as [| | |[| | |q]| | |]; simpl; try discriminate.
  intros H. andb_split. qbool. eauto.
Qed.

(** A layer whose Linear animations on the radius stay at or above zero
    resolves to a radius that is not below zero. *)
Lemma resolve_layer_radius (dur : value) (t : num) (layer : value) :
  number_or_missing dur = true ->
  drawable layer = true ->
  radius_safe layer = true ->
  exists o,
    resolve_layer StringToNumber NumberToString cos sin PI dur t layer = Some o
    /\ numeric o = true /\ resolved_radius_ok o = true.
Proof.
  unfold drawable, props_ok, radius_safe. intros Hd H Hs. andb_split.
  destruct (get layer "animations") as [| | | | |anims|] eqn:EA; try discriminate.
  cbn [elements] in Hs.
  match goal with H : forallb steppable anims = true |- _ => rename H into Hst end.
  unfold resolve_layer.
  destruct (str_eq (get layer "type") "circle") eqn:Ec.
  - pose proof (str_eq_is_object _ _ _ Ec) as Ho. andb_split.
    match goal with
    | H : in_range (get (get layer "props") "x") _ _ = true |- _ =>
        pose proof (in_range_is_object _ _ _ _ H) as Hpo
    end.
    rewrite !(getp_object layer) by assumption. cbn [bind]. rewrite Ec.
    rewrite !(getp_object (get layer "props")) by assumption. cbn [bind].
    rewrite EA. cbn [js_nullish iterate bind].
    repeat match goal with
           | H : in_range _ _ _ = true |- _ =>
               apply in_range_inv in H as (? & -> & ? & ?)
           end.
    match goal with
    | |- context [run_animations _ _ _ _ _ dur t anims (VNum ?x, VNum ?y, VNum (Fin ?r))] =>
        assert (Hr : n_lt (Fin r) (Fin 0) = false)
          by (cbn [n_lt]; unfold Qltb; apply negb_false_iff; qbool; lra);
        destruct (run_radius dur t anims Hd Hst Hs x y (Fin r) Hr)
          as (x' & y' & r' & -> & Hr')
    end.
    cbn [bind]. eexists. split; [reflexivity|]. split; [reflexivity|].
    cbn [resolved_radius_ok radius_ok]. now rewrite Hr'.
  - destruct (str_eq (get layer "type") "arrow") eqn:Ea.
    + pose proof (str_eq_is_object _ _ _ Ea) as Ho. andb_split.
      match goal with
      | H : in_range (get (get layer "props") "x") _ _ = true |- _ =>
          pose proof (in_range_is_object _ _ _ _ H) as Hpo
      end.
      rewrite !(getp_object layer) by assumption. cbn [bind]. rewrite Ec, Ea.
      rewrite !(getp_object (get layer "props")) by assumption. cbn [bind].
      eexists. split; [reflexivity|]. split; [|reflexivity].
      repeat match goal with
             | H : in_range _ _ _ = true |- _ => apply in_range_number in H as [? ->]
             end.
      reflexivity.
    + destruct (str_eq (get layer "type") "lottie") eqn:El; [|discriminate].
      pose proof (str_eq_is_object _ _ _ El) as Ho.
      rewrite !(getp_object layer) by assumption. cbn [bind]. rewrite Ec, Ea.
      eexists. split; [reflexivity|]. split; reflexivity.
Qed.

Lemma mapM_resolve_radius (dur : value) (t : num) (layers : list value) :
  number_or_missing dur = true ->
  forallb drawable layers = true ->
  forallb radius_safe layers = true ->
  exists per,
    mapM (resolve_layer StringToNumber NumberToString cos sin PI dur t) layers = Some per
    /\ forallb numeric_state (drawn per) = true
    /\ forallb radius_ok (drawn per) = true.
Proof.
  intros Hd.
  induction layers as [|l layers IH]; cbn [mapM forallb]; intros H Hs.
  - eexists; split; [reflexivity|]. split; reflexivity.
  - apply andb_prop in H as [Hl H]. apply andb_prop in Hs as [Hsl Hs].
    destruct (resolve_layer_radius dur t l Hd Hl Hsl) as (o & -> & Hn & Hr).
    destruct (IH H Hs) as (per & -> & Hns & Hrs). cbn [bind].
    eexists; split; [reflexivity|].
    destruct o as [s|]; cbn [drawn flat_map app forallb] in *; [|now split].
    cbn [numeric resolved_radius_ok] in Hn, Hr.
    fold (drawn per). now rewrite Hn, Hr, Hns, Hrs.
Qed.

Lemma paint_accepted (s : RenderState) :
  numeric_state s = true -> radius_ok s = true ->
  exists calls,
    paint StringToNumber NumberToString cos sin PI atan2 s = Some calls
    /\ forallb accepted calls = true.
Proof.
  destruct s as [x y r f|x y dx dy c]; cbn [numeric_state]; intros H Hr; andb_split;
    repeat match goal with
           | H : is_number ?v = true |- _ =>
               destruct v; try discriminate H; clear H
           end;
    unfold paint, js_add; cbn [ToPrimitive is_string orb ToNumber bind];
    eexists; (split; [reflexivity|]); [|reflexivity].
  cbn [radius_ok] in Hr. apply negb_true_iff in Hr.
  cbn [forallb accepted]. rewrite Hr, !andb_false_r. reflexivity.
Qed.

Lemma paint_all_accepted (states : list RenderState) :
  forallb numeric_state states = true ->
  forallb radius_ok states = true ->
  exists calls,
    mapM (paint StringToNumber NumberToString cos sin PI atan2) states = Some calls
    /\ forallb accepted (List.concat calls) = true.
Proof.
  induction states as [|s states IH]; cbn [mapM forallb]; intros Hn Hr.
  - eexists; split; reflexivity.
  - apply andb_prop in Hn as [Hn1 Hn]. apply andb_prop in Hr as [Hr1 Hr].
    destruct (paint_accepted s Hn1 Hr1) as (c & -> & Hc).
    destruct (IH Hn Hr) as (cs & -> & Hcs). cbn [bind].
    eexists; split; [reflexivity|].
    cbn [List.concat]. rewrite forallb_app. now rewrite Hc, Hcs.
Qed.

(** Every call of a frame is one the canvas accepts, on a spec of the
    layout the sanitizer writes whose radius animations stay at or above
    zero. *)
Lemma frame_accepted (id : value) (D fps : Q) (layers : list value) (elapsed : num) :
  forallb drawable layers = true ->
  forallb radius_safe layers = true ->
  exists calls,
    frame StringToNumber NumberToString cos sin PI atan2
          (obj_spec id (Fin D) (Fin fps) layers) elapsed = Some calls
    /\ forallb accepted calls = true.
Proof.
  intros Hs Hr. unfold frame, evaluate, spec_dur, spec_layers.
  cbn [obj_spec getp get lookup String.eqb Ascii.eqb Bool.eqb bind js_nullish].
  assert (Hd : number_or_missing (js_or (VNum (Fin D)) (vnum 4000)) = true).
  { unfold js_or. now destruct (truthy (VNum (Fin D))). }
  destruct (number_or_missing_ToNumber _ Hd) as [nd ->]. cbn [bind].
  match goal with
  | |- context [mapM (resolve_layer _ _ _ _ _ ?d ?t) layers] =>
      destruct (mapM_resolve_radius d t layers Hd Hs Hr) as (per & -> & Hn & Hro)
  end.
  cbn [bind].
  destruct (paint_all_accepted (drawn per) Hn Hro) as (calls & -> & Hc).
  cbn [bind]. eexists. split; [reflexivity|].
  cbn [forallb accepted]. exact Hc.
Qed.

Lemma frame_is_accepted (id : value) (D fps : Q) (layers : list value) (elapsed : num)
      (calls : list cmd) :
  forallb drawable layers = true ->
  forallb radius_safe layers = true ->
  frame StringToNumber NumberToString cos sin PI atan2
        (obj_spec id (Fin D) (Fin fps) layers) elapsed = Some calls ->
  forallb accepted calls = true.
Proof.
  intros Hs Hr E.
  destruct (frame_accepted id D fps layers elapsed Hs Hr) as (c & Ec & Hc).
  rewrite Ec in E. now injection E as <-.
Qed.


End EvaluatorProofs.

(** ** The theorems at concrete inputs, and the claims that fail *)

(** C1 fails as stated: an array given as the id is kept as the id, which
    is then no string; the default scene of a spec of duration 1000 has a
    Linear window from 0 to 0; and on a duration that is an object with a
    property [toString] the sanitizer throws. *)
Lemma sanitized_spec_not_ok :
  ~ exists s2n n2s,
      returned_ok (sanitizeAnswer s2n n2s input_array_id) = true
      \/ returned_ok (sanitizeAnswer s2n n2s input_short) = true
      \/ returned_ok (sanitizeAnswer s2n n2s input_toString) = true.
Proof. intros (s2n & n2s & [H|[H|H]]); vm_compute in H; discriminate. Qed.

(** The sanitizer throws on [input_toString]. *)
Lemma toString_throws (s2n : string -> num) (n2s : num -> string) :
  sanitizeAnswer s2n n2s input_toString = None.
Proof. reflexivity. Qed.

(** With ids of their own the two entries keep them. *)
Lemma same_ids_kept (s2n : string -> num) (n2s : num -> string) :
  exists r,
    sanitizeAnswer s2n n2s input_same_ids = Some r
    /\ layer_ids (visualization r) = [ VStr "a"; VStr "a" ].
Proof. eexists. split; reflexivity. Qed.

(** What [input_null_numbers] becomes: [r: null] counts as 0 and is clamped
    to 1, [from: null] is 0 and [to: true] is 1. *)
Lemma null_numbers_sanitized (s2n : string -> num) (n2s : num -> string) :
  exists r,
    sanitizeAnswer s2n n2s input_null_numbers = Some r
    /\ layers_of (visualization r)
       = [ circle_layer (VStr "layer_0") 160 200 1 "#3498db"
                        [ linear_anim TX 0 1 0 5000 ] ].
Proof. eexists. split; reflexivity. Qed.

(** ** The end-to-end scenario *)

Lemma scenario_json_parsed : JSON.parse scenario_json = Some scenario_object.
Proof. vm_compute. reflexivity. Qed.

(** Without the prose the fenced object is recovered. *)
Lemma scenario_fenced_extracted :
  askOllama_parse (VObj [ ("response", VStr scenario_fenced) ]) = Some scenario_object.
Proof. vm_compute. reflexivity. Qed.

(** The sanitizer does to the object what the scenario says. *)
Lemma scenario_object_sanitized (s2n : string -> num) (n2s : num -> string) :
  sanitizeAnswer s2n n2s scenario_object = Some scenario_sanitized.
Proof. reflexivity. Qed.

(** C3: on the raw text of the scenario the extractor recovers nothing.
    The text does not parse as a whole and does not end with a closing
    brace, so [extractJSON] returns [null]; the retry of [askOllama] removes
    the closing fence only (the opening one does not start the text), what
    is left ends with a line feed, [extractJSON] returns [null] again and
    [askOllama] throws. *)
Theorem scenario_not_extracted :
  extractJSON (VStr scenario_raw) = VNull
  /\ strip_fence_head scenario_raw = scenario_raw
  /\ strip_fence_tail scenario_raw
     = text_of "Sure! ```json|{'text':'ok','visualization':{'duration':20000,'layers':[{'type':'circle','props':{'x':-10,'r':0}}]}}|"
  /\ extractJSON (VStr (strip_fence_tail (strip_fence_head scenario_raw))) = VNull
  /\ askOllama_parse (VObj [ ("response", VStr scenario_raw) ]) = None.
Proof. repeat split; vm_compute; reflexivity. Qed.

(** ** The evaluator at concrete inputs *)

(** The witness of [evaluate_past_duration]: the default scene of a spec of
    duration 1000, at time 2000. *)
Lemma evaluate_past_duration_witness :
  exists r,
    sanitizeAnswer sample_s2n sample_n2s input_short = Some r
    /\ get (visualization r) "duration" = VNum (Fin 1000)
    /\ n_le (Fin 1000) (Fin 2000) = true
    /\ evaluate sample_s2n sample_n2s sample_cos sample_sin sample_PI
                (visualization r) (Fin 2000)
       = evaluate sample_s2n sample_n2s sample_cos sample_sin sample_PI
                  (visualization r) (Fin 1000).
Proof.
  eexists. refine (conj eq_refl (conj eq_refl (conj eq_refl _))).
  exact (proj1 (evaluate_past_duration sample_s2n sample_n2s sample_cos sample_sin
                  sample_PI sample_atan2 input_short _ (Fin 1000) (Fin 2000)
                  eq_refl eq_refl eq_refl)).
Defined.

(** The witness of [evaluate_per_layer]: a circle and an arrow, at time 0. *)
Lemma evaluate_per_layer_witness :
  exists r,
    sanitizeAnswer sample_s2n sample_n2s input_two_layers = Some r
    /\ exists per,
        evaluate sample_s2n sample_n2s sample_cos sample_sin sample_PI
                 (visualization r) (Fin 0) = Some (drawn per)
        /\ Forall2 emits (layers_of (visualization r)) per.
Proof.
  eexists. refine (conj eq_refl _).
  exact (evaluate_per_layer sample_s2n sample_n2s sample_cos sample_sin sample_PI
           input_two_layers _ (Fin 0) eq_refl).
Defined.

(** The layers of [input_lottie] after the sanitizer: one lottie layer,
    for which the evaluator has no render state, at any time. *)
Lemma lottie_states (s2n : string -> num) (n2s : num -> string) (cos sin : Q -> Q)
      (PI : Q) (elapsed : num) :
  exists r,
    sanitizeAnswer s2n n2s input_lottie = Some r
    /\ layers_of (visualization r)
       = [ VObj [ ("id", VStr "layer_0"); ("type", VStr "lottie");
                  ("props", VObj [ ("url", VStr "/animations/dna.json");
                                   ("x", vnum 430); ("y", vnum 140);
                                   ("width", vnum 180); ("height", vnum 180);
                                   ("loop", VBool true) ]);
                  ("animations", VArr []) ] ]
    /\ evaluate s2n n2s cos sin PI (visualization r) elapsed = Some [].
Proof. eexists. repeat split; reflexivity. Qed.

(** C6 fails as stated: the sanitized spec of [input_lottie] has one
    layer, and at no time does the evaluator return one render state. *)
Lemma lottie_layer_not_drawn :
  ~ exists s2n n2s cos sin PI elapsed r states,
      sanitizeAnswer s2n n2s input_lottie = Some r
      /\ evaluate s2n n2s cos sin PI (visualization r) elapsed = Some states
      /\ List.length states = List.length (layers_of (visualization r)).
Proof.
  intros (s2n & n2s & c & s & pi & e & r & states & E & H1 & H2).
  destruct (lottie_states s2n n2s c s pi e) as (r' & E' & Hl & Hs).
  rewrite E in E'. injection E' as <-.
  rewrite Hs in H1. injection H1 as <-.
  rewrite Hl in H2. discriminate.
Qed.



(** The witness of [orbit_periodic]. *)
Lemma orbit_periodic_witness :
  1000 <= 5000 /\ 0 < 4000 /\ 0 <= 500 /\ 500 + 4000 <= 5000 /\ 4000 <= 5000
  /\ evaluate sample_s2n sample_n2s sample_cos sample_sin sample_PI
              (obj_spec (VStr "v") (Fin 5000) (Fin 30)
                        [ circle_layer (VStr "c") 10 20 5 "#fff"
                                       [ orbit_anim 320 200 100 (vnum 4000) ] ])
              (Fin 0)
     = evaluate sample_s2n sample_n2s sample_cos sample_sin sample_PI
                (obj_spec (VStr "v") (Fin 5000) (Fin 30)
                          [ circle_layer (VStr "c") 10 20 5 "#fff"
                                         [ orbit_anim 320 200 100 (vnum 4000) ] ])
                (Fin 4000).
Proof.
  assert (H1 : 1000 <= 5000) by lra.
  assert (H2 : 0 < 4000) by lra.
  assert (H3 : 0 <= 500) by lra.
  assert (H4 : 500 + 4000 <= 5000) by lra.
  assert (H5 : 4000 <= 5000) by lra.
  refine (conj H1 (conj H2 (conj H3 (conj H4 (conj H5 _))))).
  exact (proj1 (orbit_periodic sample_s2n sample_n2s sample_cos sample_sin sample_PI
                               (VStr "v") (VStr "c") 5000 30 10 20 5 "#fff"
                               320 200 100 4000 500 5000 H1 H2 H3 H4 H5)).
Defined.

(** What the evaluator computes for [input_long_orbit], a spec of duration
    1000 with an orbit of period 4000: phase 0 at time 0, and at time 4000
    the phase of the clamped time 1000, a quarter of a turn. *)
Lemma long_orbit_states (s2n : string -> num) (n2s : num -> string) (cos sin : Q -> Q)
      (PI : Q) :
  let angle p := n_mul (n_mul (Fin p) (Fin PI)) (Fin 2) in
  let at_phase p :=
    Some [ RCircle
             (VNum (n_add (Fin 320) (n_mul (Fin 100) (Math_cos cos (angle p)))))
             (VNum (n_add (Fin 200) (n_mul (Fin 100) (Math_sin sin (angle p)))))
             (vnum 16) (VStr "#3498db") ] in
  exists r,
    sanitizeAnswer s2n n2s input_long_orbit = Some r
    /\ get (visualization r) "duration" = vnum 1000
    /\ evaluate s2n n2s cos sin PI (visualization r) (Fin 0) = at_phase 0
    /\ evaluate s2n n2s cos sin PI (visualization r) (Fin 4000) = at_phase (1 # 4).
Proof. eexists. repeat split; reflexivity. Qed.

(** C8 fails as stated: that the circle is at the same place at times 0 and
    4000 does not hold for every spec that carries the orbit, since in a
    spec shorter than the period the time 4000 is clamped to the duration.
    (The two places differ as soon as the cosine of a quarter turn is not
    the cosine of 0.) *)
Lemma orbit_not_periodic_past_duration :
  ~ forall (s2n : string -> num) (n2s : num -> string) (cos sin : Q -> Q) (PI : Q)
           (r : value),
      sanitizeAnswer s2n n2s input_long_orbit = Some r ->
      evaluate s2n n2s cos sin PI (visualization r) (Fin 0)
      = evaluate s2n n2s cos sin PI (visualization r) (Fin 4000).
Proof.
  intros H.
  specialize (H sample_s2n sample_n2s sample_cos sample_sin sample_PI _ eq_refl).
  vm_compute in H. discriminate.
Qed.


(** The witness of [orbit_never_nan]: an orbit with a negative period and
    a growing radius, at time 250. *)
Lemma orbit_never_nan_witness :
  number_or_missing (vnum 5000) = true
  /\ is_nan (Fin 250) = false
  /\ animated_circle backward_orbit = true
  /\ (exists x y r,
         resolve_layer sample_s2n sample_n2s sample_cos sample_sin sample_PI
                       (js_or (vnum 5000) (vnum 4000)) (Fin 250) backward_orbit
         = Some (Some (RCircle (vnum x) (vnum y) (vnum r) (VStr "#fff"))))
  /\ usable (period_used (vnum (-500 # 1)) (vnum 5000)) = true
  /\ exists p,
      orbit_phase sample_s2n sample_n2s (Fin 250)
                  (orbit_period (vnum (-500 # 1)) (js_or (vnum 5000) (vnum 4000)))
      = Some (vnum p)
      /\ -1 <= p /\ p <= 0.
Proof.
  assert (H3 : animated_circle backward_orbit = true) by (vm_compute; reflexivity).
  refine (conj eq_refl (conj eq_refl (conj H3 _))).
  destruct (orbit_never_nan sample_s2n sample_n2s sample_cos sample_sin sample_PI
              sample_atan2 (vnum 5000) (Fin 250) backward_orbit eq_refl eq_refl H3)
    as [(x & y & r & calls & E & _) H].
  destruct (H (orbit_anim 320 200 100 (vnum (-500 # 1))) (or_introl eq_refl) eq_refl)
    as (_ & U & p & Ep & P1 & _ & _ & Pneg & _).
  split; [exists x, y, r; exact E|].
  split; [exact U|].
  exists p. exact (conj Ep (conj P1 (Pneg eq_refl eq_refl))).
Defined.

(** With a period of -500 the phase at time 250 is -1/2. *)
Lemma negative_period_phase (s2n : string -> num) (n2s : num -> string) :
  orbit_phase s2n n2s (Fin 250) (orbit_period (vnum (-500 # 1)) (vnum 5000))
  = Some (vnum (-1 # 2)).
Proof. reflexivity. Qed.

(** A negative period is not replaced by a positive fallback; the
    evaluator divides by it. *)
Lemma negative_period_is_used :
  ~ exists s2n n2s n,
      ToNumber s2n n2s (orbit_period (vnum (-500 # 1)) (vnum 5000)) = Some n
      /\ n_lt (Fin 0) n = true.
Proof.
  intros (s2n & n2s & n & E & H). vm_compute in E. injection E as <-.
  vm_compute in H. discriminate.
Qed.

Section DoublePrecision.

Import PrimFloat.
Local Open Scope float_scope.


(** C9 fails as stated: a negative period is not replaced by a positive
    fallback, the evaluator divides by it; and nothing guards the Linear
    animations, whose value from -1e308 to 1e308, both left as they are by
    the sanitizer, is NaN at the start of the window and +Infinity in its
    middle. *)
Lemma evaluator_guard_fails :
  (~ exists s2n n2s n,
        ToNumber s2n n2s (orbit_period (vnum (-500 # 1)) (vnum 5000)) = Some n
        /\ n_lt (Fin 0) n = true)
  /\ is_nan (Doubles.linear_value (-1e308) 1e308 0 1000 0) = true
  /\ (Doubles.linear_value (-1e308) 1e308 0 1000 500 =? infinity) = true.
Proof.
  split; [exact negative_period_is_used|]. split; reflexivity.
Qed.

End DoublePrecision.

(** * More of the code: clamping, fixed points, the kept layers *)

Lemma Qred_fixed (q : Q) : Qred (Qred q) = Qred q.
Proof. apply Qred_complete, Qred_correct. Qed.

Lemma clamp_in_range (q lo hi : Q) :
  lo <= q -> q <= hi -> clamp (Fin q) (Fin lo) (Fin hi) = fin q.
Proof.
  intros H1 H2. unfold clamp. rewrite Math_min_fin. unfold fin at 1.
  rewrite Math_max_fin. apply fin_eq. rewrite Qred_correct.
  rewrite (Q.min_r hi q) by assumption. now apply Q.max_r.
Qed.

(** Clamping twice is clamping once. *)
Lemma clamp_idem (n lo hi : Q) :
  lo <= hi ->
  clamp (clamp (Fin n) (Fin lo) (Fin hi)) (Fin lo) (Fin hi)
  = clamp (Fin n) (Fin lo) (Fin hi).
Proof.
  intros H.
  assert (E : clamp (Fin n) (Fin lo) (Fin hi) = fin (Qmax lo (Qmin hi n))).
  { unfold clamp. rewrite Math_min_fin. unfold fin at 1. rewrite Math_max_fin.
    apply fin_eq. now rewrite Qred_correct. }
  rewrite E. unfold fin at 1. rewrite clamp_in_range.
  - unfold fin. now rewrite Qred_fixed.
  - rewrite Qred_correct. apply Q.le_max_l.
  - rewrite Qred_correct. apply Q.max_lub; [assumption|apply Q.le_min_l].
Qed.

Section FixedPoints.

Variable StringToNumber : string -> num.
Variable NumberToString : num -> string.

Lemma safeNumber_number (n : Q) (def : num) :
  safeNumber StringToNumber NumberToString (VNum (Fin n)) def = Some (Fin n).
Proof. reflexivity. Qed.

Lemma safeNumber_clamp (n lo hi : Q) (def : num) :
  lo <= hi ->
  safeNumber StringToNumber NumberToString
             (VNum (clamp (Fin n) (Fin lo) (Fin hi))) def
  = Some (clamp (Fin n) (Fin lo) (Fin hi)).
Proof.
  intros H. destruct (clamp_fin n lo hi H) as (q & -> & _). reflexivity.
Qed.

(** Reads off a successful [safeNumber] that its result is finite. *)
Ltac safe_inv H :=
  repeat match type of H with
         | bind (safeNumber ?s ?n ?v ?d) _ = Some _ =>
             let E := fresh "E" in
             let q := fresh "q" in
             destruct (safeNumber s n v d) eqn:E; [|discriminate H];
             apply safeNumber_finite in E as [q ->]; cbn [bind] in H
         end.

(** An animation the sanitizer wrote is one it leaves as it is. *)
Lemma sanitize_animation_fixed (D : Q) (a ra : value) :
  1000 <= D ->
  sanitize_animation StringToNumber NumberToString (Fin D) a = Some ra ->
  sanitize_animation StringToNumber NumberToString (Fin D) ra = Some ra.
Proof.
  intros HD. unfold sanitize_animation at 1.
  destruct (str_eq (get a "property") "orbit") eqn:E.
  - destruct (str_eq_get_obj _ _ _ E) as [fs ->]. cbn [getp bind]. intros H.
    safe_inv H. apply some_eq in H. subst ra.
    unfold sanitize_animation.
    cbn [get getp lookup String.eqb Ascii.eqb Bool.eqb str_eq bind].
    rewrite !safeNumber_clamp by lra. cbn [bind].
    rewrite !clamp_idem by lra. reflexivity.
  - intros H. safe_inv H. apply some_eq in H. subst ra.
    change (n_sub (Fin D) (Fin 100)) with (Fin (Qred (D - 100))).
    assert (B : 0 <= Qred (D - 100)) by (rewrite Qred_correct; lra).
    destruct (clamp_fin q 0 (Qred (D - 100)) B) as (s & Hs & Hs1 & Hs2).
    rewrite Qred_correct in Hs2.
    assert (EL : n_add (clamp (Fin q) (Fin 0) (Fin (Qred (D - 100)))) (Fin 100)
                 = Fin (Qred (s + 100))) by (rewrite Hs; reflexivity).
    rewrite EL.
    assert (BL : Qred (s + 100) <= D) by (rewrite Qred_correct; lra).
    unfold sanitize_animation.
    set (prop := if str_eq (get a "property") "y" then "y"
                 else if str_eq (get a "property") "r" then "r" else "x").
    assert (Ep : str_eq (VStr prop) "orbit" = false).
    { subst prop. destruct (str_eq (get a "property") "y"); [reflexivity|].
      destruct (str_eq (get a "property") "r"); reflexivity. }
    assert (Eq : (if str_eq (VStr prop) "y" then "y"
                  else if str_eq (VStr prop) "r" then "r" else "x") = prop).
    { subst prop. destruct (str_eq (get a "property") "y"); [reflexivity|].
      destruct (str_eq (get a "property") "r"); reflexivity. }
    cbn [get lookup String.eqb Ascii.eqb Bool.eqb].
    rewrite Ep, Eq.
    change (n_sub (Fin D) (Fin 100)) with (Fin (Qred (D - 100))).
    rewrite !safeNumber_clamp by assumption. cbn [bind].
    rewrite !safeNumber_number. cbn [bind].
    rewrite (clamp_idem q) by assumption. rewrite EL.
    rewrite clamp_idem by assumption. reflexivity.
Qed.

Lemma mapM_fixed {A : Type} (f : A -> option A) (xs rs : list A) :
  (forall a r, f a = Some r -> f r = Some r) ->
  mapM f xs = Some rs -> mapM f rs = Some rs.
Proof.
  intros H. revert rs. induction xs as [|x xs IH]; cbn [mapM]; intros rs E.
  - injection E as <-. reflexivity.
  - destruct (f x) as [r|] eqn:Er; [|discriminate]. cbn [bind] in E.
    destruct (mapM f xs) as [rs'|]; [|discriminate]. cbn [bind] in E.
    injection E as <-. cbn [mapM]. rewrite (H _ _ Er), (IH _ eq_refl). reflexivity.
Qed.

Lemma truthy_js_or (a b : value) : truthy b = true -> truthy (js_or a b) = true.
Proof. unfold js_or. intros H. now destruct (truthy a) eqn:E. Qed.

Lemma js_or_truthy (a b : value) : truthy a = true -> js_or a b = a.
Proof. unfold js_or. now intros ->. Qed.

(** A layer the sanitizer wrote is one it leaves as it is, at any index. *)
Lemma sanitize_layer_fixed (D : Q) (l r : value) (i j : nat) :
  1000 <= D ->
  sanitize_layer StringToNumber NumberToString (Fin D) l i = Some r ->
  r <> VNull ->
  sanitize_layer StringToNumber NumberToString (Fin D) r j = Some r.
Proof.
  intros HD. unfold sanitize_layer at 1.
  set (id := js_or (get l "id") (VStr ("layer_" ++ index_to_string i))).
  assert (Tid : truthy id = true) by (apply truthy_js_or; reflexivity).
  destruct (str_eq (get l "type") "circle") eqn:E1;
    [|destruct (str_eq (get l "type") "arrow") eqn:E2;
      [|destruct (str_eq (get l "type") "lottie") eqn:E3]].
  - destruct (str_eq_get_obj _ _ _ E1) as [fs ->]. cbn [getp bind].
    rewrite !getp_or_obj. cbn [bind]. intros H _.
    repeat (safe_inv H; rewrite ?getp_or_obj in H; cbn [bind] in H).
    destruct (sanitize_animations _ _ _ _) as [rs|] eqn:Ea; [|discriminate H].
    cbn [bind] in H. apply some_eq in H. subst r.
    assert (Ea' : sanitize_animations StringToNumber NumberToString (Fin D) (VArr rs)
                  = Some rs).
    { unfold sanitize_animations in *.
      destruct (get (VObj fs) "animations"); try (injection Ea as <-; reflexivity).
      eapply mapM_fixed; [|exact Ea].
      intros a ra. now apply sanitize_animation_fixed. }
    unfold sanitize_layer.
    cbn [get getp lookup String.eqb Ascii.eqb Bool.eqb bind].
    rewrite (js_or_truthy id) by assumption. cbn [get] in E1. rewrite E1.
    cbn [js_or truthy get getp lookup String.eqb Ascii.eqb Bool.eqb bind].
    rewrite !safeNumber_clamp by lra. cbn [bind].
    rewrite !clamp_idem by lra. rewrite Ea'. cbn [bind].
    rewrite is_string_or_default. reflexivity.
  - destruct (str_eq_get_obj _ _ _ E2) as [fs ->]. cbn [getp bind].
    rewrite !getp_or_obj. cbn [bind]. intros H _.
    repeat (safe_inv H; rewrite ?getp_or_obj in H; cbn [bind] in H).
    apply some_eq in H. subst r.
    unfold sanitize_layer.
    cbn [get getp lookup String.eqb Ascii.eqb Bool.eqb bind].
    rewrite (js_or_truthy id) by assumption. cbn [get] in E1, E2. rewrite E1, E2.
    cbn [js_or truthy get getp lookup String.eqb Ascii.eqb Bool.eqb bind].
    rewrite !safeNumber_clamp by lra. cbn [bind].
    rewrite !clamp_idem by lra.
    rewrite is_string_or_default. reflexivity.
  - destruct (str_eq_get_obj _ _ _ E3) as [fs ->]. cbn [getp bind].
    rewrite !getp_or_obj. cbn [bind]. intros H _.
    repeat (safe_inv H; rewrite ?getp_or_obj in H; cbn [bind] in H).
    apply some_eq in H. subst r.
    unfold sanitize_layer.
    cbn [get getp lookup String.eqb Ascii.eqb Bool.eqb bind].
    rewrite (js_or_truthy id) by assumption. cbn [get] in E1, E2, E3.
    rewrite E1, E2, E3.
    cbn [js_or truthy get getp lookup String.eqb Ascii.eqb Bool.eqb bind js_nullish].
    rewrite !safeNumber_clamp by lra. cbn [bind].
    rewrite !clamp_idem by lra.
    rewrite is_string_or_default. reflexivity.
  - intros H Hn. injection H as <-. now contradiction Hn.
Qed.

End FixedPoints.

(** ** Trimming *)

Lemma append_assoc (a b c : string) : ((a ++ b) ++ c = a ++ (b ++ c))%string.
Proof. induction a as [|x a IH]; simpl; [reflexivity|now rewrite IH]. Qed.

Lemma append_empty (s : string) : (s ++ EmptyString)%string = s.
Proof. induction s as [|x s IH]; cbn [String.append]; [reflexivity|now rewrite IH]. Qed.

Lemma strip_step (back : bool) (s : string) :
  (space_len back s = 0%nat /\ strip back s = s)
  \/ (space_len back s <> 0%nat
      /\ exists w r, s = (w ++ r)%string /\ (0 < String.length w)%nat
                     /\ strip back s = strip back r).
Proof.
  destruct s as [|a [|b [|c r]]]; cbn [space_len strip]; [now left|..].
  - destruct (is_space a); [right|now left].
    split; [discriminate|]. exists (String a EmptyString), EmptyString.
    cbn. split; [reflexivity|]. split; [lia|reflexivity].
  - destruct (is_space a).
    { right. split; [discriminate|].
      exists (String a EmptyString), (String b EmptyString).
      cbn. split; [reflexivity|]. split; [lia|reflexivity]. }
    destruct (if back then is_space2 b a else is_space2 a b); [right|now left].
    split; [discriminate|]. exists (String a (String b EmptyString)), EmptyString.
    cbn. split; [reflexivity|]. split; [lia|reflexivity].
  - destruct (is_space a).
    { right. split; [discriminate|].
      exists (String a EmptyString), (String b (String c r)).
      cbn. split; [reflexivity|]. split; [lia|reflexivity]. }
    destruct (if back then is_space2 b a else is_space2 a b).
    { right. split; [discriminate|].
      exists (String a (String b EmptyString)), (String c r).
      cbn. split; [reflexivity|]. split; [lia|reflexivity]. }
    destruct (if back then is_space3 c b a else is_space3 a b c); [right|now left].
    split; [discriminate|].
    exists (String a (String b (String c EmptyString))), r.
    cbn. split; [reflexivity|]. split; [lia|reflexivity].
Qed.

Lemma length_append (u v : string) :
  String.length (u ++ v) = (String.length u + String.length v)%nat.
Proof. induction u as [|a u IH]; cbn; [reflexivity|now rewrite IH]. Qed.

(** What is left starts with no white space, *)
Lemma strip_clean (back : bool) (s : string) : space_len back (strip back s) = 0%nat.
Proof.
  remember (String.length s) as n eqn:Hn.
  revert s Hn. induction n as [n IH] using lt_wf_ind. intros s Hn.
  destruct (strip_step back s) as [[H ->]|(_ & w & r & E & Hw & ->)]; [exact H|].
  apply (IH (String.length r)); [|reflexivity].
  subst s n. rewrite length_append. lia.
Qed.

(** a text that starts with none is left as it is, *)
Lemma strip_of_clean (back : bool) (s : string) :
  space_len back s = 0%nat -> strip back s = s.
Proof.
  intros H. destruct (strip_step back s) as [[_ E]|[N _]]; [exact E|contradiction].
Qed.

Lemma strip_idem (back : bool) (s : string) :
  strip back (strip back s) = strip back s.
Proof. apply strip_of_clean, strip_clean. Qed.

(** and what is left is the end of the text. *)
Lemma strip_suffix (back : bool) (s : string) :
  exists w, s = (w ++ strip back s)%string.
Proof.
  remember (String.length s) as n eqn:Hn.
  revert s Hn. induction n as [n IH] using lt_wf_ind. intros s Hn.
  destruct (strip_step back s) as [[_ ->]|(_ & w & r & E & Hw & ->)];
    [now exists EmptyString|].
  destruct (IH (String.length r)) with (s := r) as [w' E']; [|reflexivity|].
  { subst s n. rewrite length_append. lia. }
  exists (w ++ w')%string. rewrite append_assoc, <- E'. exact E.
Qed.

Lemma trim_start_idem (s : string) : trim_start (trim_start s) = trim_start s.
Proof. apply strip_idem. Qed.

Lemma rev_string_involutive (s : string) : rev_string (rev_string s) = s.
Proof.
  unfold rev_string. rewrite list_ascii_of_string_of_list_ascii, rev_involutive.
  apply string_of_list_ascii_of_string.
Qed.

Lemma trim_end_idem (s : string) : trim_end (trim_end s) = trim_end s.
Proof.
  unfold trim_end. now rewrite rev_string_involutive, strip_idem.
Qed.

Lemma trim_start_clean (s : string) : starts_clean (trim_start s).
Proof. apply strip_clean. Qed.

Lemma trim_start_of_clean (s : string) : starts_clean s -> trim_start s = s.
Proof. apply strip_of_clean. Qed.

Lemma string_of_list_app (l : list ascii) (c : ascii) :
  string_of_list_ascii (l ++ [c])
  = (string_of_list_ascii l ++ String c EmptyString)%string.
Proof. induction l as [|a l IH]; simpl; [reflexivity|now rewrite IH]. Qed.

Lemma rev_string_snoc (u : string) (c : ascii) :
  rev_string (u ++ String c EmptyString) = String c (rev_string u).
Proof.
  unfold rev_string.
  assert (E : list_ascii_of_string (u ++ String c EmptyString)
              = (list_ascii_of_string u ++ [c])%list).
  { induction u as [|a u IH]; simpl; [reflexivity|now rewrite IH]. }
  rewrite E, rev_unit. reflexivity.
Qed.

Lemma rev_string_cons (c : ascii) (s : string) :
  rev_string (String c s) = (rev_string s ++ String c EmptyString)%string.
Proof. unfold rev_string. simpl. apply string_of_list_app. Qed.

Lemma rev_string_app (u v : string) :
  rev_string (u ++ v) = (rev_string v ++ rev_string u)%string.
Proof.
  induction u as [|a u IH]; cbn [String.append].
  - change (rev_string EmptyString) with EmptyString.
    now rewrite append_empty.
  - now rewrite !rev_string_cons, IH, append_assoc.
Qed.

(** A text that starts with no white space has no beginning that does. *)
Lemma prefix_clean (p w : string) :
  starts_clean (p ++ w) -> starts_clean p.
Proof.
  unfold starts_clean.
  destruct p as [|a [|b [|c p]]]; cbn [String.append space_len]; [reflexivity|..].
  - destruct (is_space a); [discriminate|reflexivity].
  - destruct (is_space a); [discriminate|].
    destruct (is_space2 a b); [discriminate|reflexivity].
  - auto.
Qed.

(** The text without the white space at its end is a beginning of it. *)
Lemma trim_end_prefix (s : string) : exists w, s = (trim_end s ++ w)%string.
Proof.
  unfold trim_end. destruct (strip_suffix true (rev_string s)) as [w E].
  exists (rev_string w).
  rewrite <- rev_string_app, <- E. symmetry. apply rev_string_involutive.
Qed.

(** Removing the white space at the end leaves the start as it is. *)
Lemma trim_end_clean (s : string) : starts_clean s -> starts_clean (trim_end s).
Proof.
  intros H. destruct (trim_end_prefix s) as [w E].
  rewrite E in H. now apply prefix_clean in H.
Qed.

Lemma trim_idem (s : string) : trim (trim s) = trim s.
Proof.
  unfold trim.
  rewrite (trim_start_of_clean (trim_end (trim_start s))).
  - apply trim_end_idem.
  - apply trim_end_clean, trim_start_clean.
Qed.

(** A character of one byte that is not white space starts no white space
    and ends none. *)
Lemma one_byte_clean (back : bool) (a : ascii) (r : string) :
  one_byte a = true -> space_len back (String a r) = 0%nat.
Proof.
  unfold one_byte. intros H. apply andb_prop in H as [Hs Hn].
  apply negb_true_iff in Hs. apply Nat.ltb_lt in Hn.
  assert (T : forall k, (128 <= k)%nat -> (nat_of_ascii a =? k)%nat = false).
  { intros k Hk. apply Nat.eqb_neq. lia. }
  assert (L : (128 <=? nat_of_ascii a)%nat = false) by (apply Nat.leb_gt; lia).
  destruct r as [|b [|c r]]; cbn [space_len]; rewrite Hs; try reflexivity;
    unfold is_space2, is_space3; cbv zeta;
    rewrite ?L, ?(T 128%nat), ?(T 159%nat), ?(T 160%nat), ?(T 168%nat), ?(T 169%nat),
      ?(T 175%nat), ?(T 191%nat), ?(T 194%nat), ?(T 225%nat), ?(T 226%nat),
      ?(T 227%nat), ?(T 239%nat) by lia;
    destruct back; cbn [andb orb];
    rewrite ?andb_false_r, ?andb_false_l, ?orb_false_r; cbn [andb orb]; reflexivity.
Qed.

Section FixedPointTheorem.

Variable StringToNumber : string -> num.
Variable NumberToString : num -> string.

Lemma sanitize_text_fixed (ans t : value) (rest : list (string * value)) :
  sanitize_text ans = Some t ->
  sanitize_text (VObj (("text", t) :: rest)) = Some t.
Proof.
  unfold sanitize_text at 1.
  destruct (is_string (get ans "text")) eqn:E.
  - destruct ans; try discriminate E. cbn [getp bind].
    destruct (get (VObj fields) "text") eqn:G; try discriminate E.
    cbn [call_trim bind].
    destruct (truthy (VStr (trim s))) eqn:T.
    + cbn [call_trim bind]. intros H. injection H as <-.
      unfold sanitize_text.
      cbn [get getp lookup String.eqb Ascii.eqb Bool.eqb is_string call_trim bind].
      rewrite trim_idem, T. reflexivity.
    + intros H. injection H as <-. reflexivity.
  - intros H. injection H as <-. reflexivity.
Qed.

Lemma filter_truthy_fixed (rs : list value) :
  filter truthy (filter truthy rs) = filter truthy rs.
Proof.
  induction rs as [|r rs IH]; [reflexivity|]. cbn [filter].
  destruct (truthy r) eqn:T; [|exact IH]. cbn [filter]. now rewrite T, IH.
Qed.

(** The layers the sanitizer kept are layers it keeps as they are. *)
Lemma map_layers_fixed (D : Q) (xs : list value) :
  1000 <= D ->
  forall start rs j,
    map_layers StringToNumber NumberToString (Fin D) start xs = Some rs ->
    map_layers StringToNumber NumberToString (Fin D) j (filter truthy rs)
    = Some (filter truthy rs).
Proof.
  intros HD. induction xs as [|x xs IH]; cbn [map_layers]; intros start rs j E.
  - injection E as <-. reflexivity.
  - destruct (sanitize_layer _ _ _ x start) as [r|] eqn:Er; [|discriminate E].
    cbn [bind] in E.
    destruct (map_layers _ _ _ (S start) xs) as [rs'|] eqn:Ers; [|discriminate E].
    cbn [bind] in E. injection E as <-. cbn [filter].
    destruct (truthy r) eqn:T; [|now apply (IH (S start))].
    cbn [map_layers].
    rewrite (sanitize_layer_fixed StringToNumber NumberToString D x r start j HD Er).
    + cbn [bind]. now rewrite (IH (S start) rs' (S j) Ers).
    + intros ->. discriminate T.
Qed.

(** The default scene is left as it is when the duration is at least 1100. *)
Lemma default_layers_fixed (D : Q) :
  1100 <= D ->
  map_layers StringToNumber NumberToString (Fin D) 0 (default_layers (Fin D))
  = Some (default_layers (Fin D)).
Proof.
  intros HD. unfold default_layers, vnum.
  change (n_sub (Fin D) (Fin 1000)) with (Fin (Qred (D - 1000))).
  cbn [map_layers sanitize_layer sanitize_animations sanitize_animation mapM
       get getp lookup String.eqb Ascii.eqb Bool.eqb str_eq js_or truthy bind
       is_string negb is_zero is_nan orb].
  rewrite !safeNumber_number. cbn [bind].
  change (n_sub (Fin D) (Fin 100)) with (Fin (Qred (D - 100))).
  assert (B : 0 <= Qred (D - 100)) by (rewrite Qred_correct; lra).
  rewrite (clamp_in_range 0 0 (Qred (D - 100))) by lra.
  change (n_add (fin 0) (Fin 100)) with (Fin 100).
  rewrite (clamp_in_range (Qred (D - 1000)) 100 D)
    by (rewrite Qred_correct; lra).
  rewrite !clamp_in_range by lra.
  unfold fin. rewrite Qred_fixed. reflexivity.
Qed.

(** X2.  The sanitizer is idempotent wherever the default scene has a valid
    window: what it returns is a fixed point, unless the layers are the
    default scene and the duration is below 1100. *)
Theorem sanitize_fixed_point (ans r : value) (D : Q) :
  sanitizeAnswer StringToNumber NumberToString ans = Some r ->
  get (visualization r) "duration" = VNum (Fin D) ->
  (layers_of (visualization r) = default_layers (Fin D) -> 1100 <= D) ->
  sanitizeAnswer StringToNumber NumberToString r = Some r.
Proof.
  unfold sanitizeAnswer at 1.
  destruct (sanitize_text ans) as [text|] eqn:Et; [|discriminate].
  cbn [bind]. rewrite !getp_or_obj. cbn [bind]. rewrite !get_or_obj.
  intros H. 
  destruct (safeNumber _ _ (get (get ans "visualization") "duration") _) as [nd|] eqn:End;
    [|discriminate H].
  apply safeNumber_finite in End as [q ->]. cbn [bind] in H.
  destruct (clamp_fin q 1000 10000) as (D' & HD & HD1 & HD2); [lra|].
  assert (Idem : clamp (Fin D') (Fin 1000) (Fin 10000) = Fin D').
  { rewrite <- HD. apply clamp_idem. lra. }
  rewrite HD in H.
  destruct (safeNumber _ _ (get (get ans "visualization") "fps") _) as [nf|] eqn:Enf;
    [|discriminate H].
  apply safeNumber_finite in Enf as [q0 ->]. cbn [bind] in H.
  unfold kept_layers in H.
  destruct (map_layers _ _ _ _ _) as [rs|] eqn:Ers; [|discriminate H].
  cbn [bind] in H. apply some_eq in H. subst r.
  unfold visualization, layers_of.
  cbn [get lookup String.eqb Ascii.eqb Bool.eqb elements].
  intros ED Hdef. injection ED as <-.
  unfold sanitizeAnswer.
  rewrite (sanitize_text_fixed _ _ _ Et). cbn [bind].
  cbn [get lookup String.eqb Ascii.eqb Bool.eqb].
  rewrite !getp_or_obj. cbn [bind]. rewrite !get_or_obj.
  cbn [get lookup String.eqb Ascii.eqb Bool.eqb].
  rewrite safeNumber_number. cbn [bind]. rewrite Idem.
  rewrite safeNumber_clamp by lra. cbn [bind]. rewrite clamp_idem by lra.
  assert (Eid : forall x, js_or (js_or x (VStr "vis_safe")) (VStr "vis_safe")
                          = js_or x (VStr "vis_safe")).
  { intros x. apply js_or_truthy, truthy_js_or. reflexivity. }
  rewrite Eid.
  unfold kept_layers.
  destruct (filter truthy rs) as [|r0 rs0] eqn:F.
  - rewrite (default_layers_fixed D' (Hdef eq_refl)). cbn [bind].
    reflexivity.
  - rewrite <- F.
    rewrite (map_layers_fixed D' _ HD1 0%nat rs 0%nat Ers). cbn [bind].
    rewrite filter_truthy_fixed, F. reflexivity.
Qed.

End FixedPointTheorem.

Section KeptLayers.

Variable StringToNumber : string -> num.
Variable NumberToString : num -> string.

(** What the callback makes of one entry: a layer with the type and the
    id of the entry when the type is known, [null] otherwise. *)
Lemma sanitize_layer_kind (duration : num) (l r : value) (i : nat) :
  sanitize_layer StringToNumber NumberToString duration l i = Some r ->
  (known_type l = true /\ truthy r = true
   /\ get r "type" = get l "type" /\ get r "id" = entry_id (i, l))
  \/ (known_type l = false /\ r = VNull).
Proof.
  unfold sanitize_layer, known_type, entry_id. cbn [fst snd].
  destruct (str_eq (get l "type") "circle") eqn:E1;
    [|destruct (str_eq (get l "type") "arrow") eqn:E2;
      [|destruct (str_eq (get l "type") "lottie") eqn:E3]];
    intros H; [left|left|left|right; split; [reflexivity|congruence]];
    repeat match type of H with
           | bind ?m _ = Some _ =>
               let x := fresh "x" in destruct m as [x|]; [|discriminate H];
               cbn [bind] in H
           end;
    apply some_eq in H; subst r; repeat split.
Qed.

Lemma kept_of_mapped (duration : num) (xs : list value) :
  forall start rs,
    map_layers StringToNumber NumberToString duration start xs = Some rs ->
    let kept := filter (fun il => known_type (snd il)) (indexed_from start xs) in
    map (fun l => get l "type") (filter truthy rs) = map entry_type kept
    /\ map (fun l => get l "id") (filter truthy rs) = map entry_id kept.
Proof.
  induction xs as [|x xs IH]; cbn [map_layers indexed_from filter]; intros start rs E.
  - injection E as <-. split; reflexivity.
  - destruct (sanitize_layer _ _ _ x start) as [r|] eqn:Er; [|discriminate E].
    cbn [bind] in E.
    destruct (map_layers _ _ _ (S start) xs) as [rs'|] eqn:Ers; [|discriminate E].
    cbn [bind] in E. injection E as <-.
    destruct (IH _ _ Ers) as [IH1 IH2]. cbv zeta in IH1, IH2. cbn [snd filter].
    destruct (sanitize_layer_kind _ _ _ _ Er) as [(K & T & Ety & Eid)|(K & ->)];
      rewrite K.
    + rewrite T. cbn [map]. unfold entry_type at 1. cbn [snd].
      rewrite Ety, Eid, IH1, IH2. split; reflexivity.
    + cbn [truthy]. split; assumption.
Qed.

(** X3.  The sanitizer keeps exactly the entries of [visualization.layers]
    whose type is circle, arrow or lottie, in the order of the input: each
    comes out with its type, and with its own id when that is truthy and
    [layer_<i>] otherwise, where [i] is the position of the entry in the
    input array (dropped entries count).  When no entry is kept the layers
    are the default scene. *)
Theorem sanitize_keeps_known_types (ans r : value) :
  sanitizeAnswer StringToNumber NumberToString ans = Some r ->
  match kept_entries ans with
  | [] => exists D, get (visualization r) "duration" = VNum D
                    /\ layers_of (visualization r) = default_layers D
  | kept => layer_types (visualization r) = map entry_type kept
            /\ layer_ids (visualization r) = map entry_id kept
  end.
Proof.
  unfold sanitizeAnswer.
  destruct (sanitize_text ans) as [text|]; [|discriminate].
  cbn [bind]. rewrite !getp_or_obj. cbn [bind]. rewrite !get_or_obj.
  intros H.
  repeat match type of H with
         | bind (safeNumber ?s ?n ?v ?d) _ = Some _ =>
             let x := fresh "x" in
             destruct (safeNumber s n v d) as [x|]; [|discriminate H];
             cbn [bind] in H
         end.
  unfold kept_layers in H.
  destruct (map_layers _ _ _ _ _) as [rs|] eqn:Ers; [|discriminate H].
  cbn [bind] in H. apply some_eq in H. subst r.
  apply kept_of_mapped in Ers. cbv zeta in Ers. destruct Ers as [Ety Eid].
  unfold kept_entries, layer_types, layer_ids, layers_of, visualization.
  cbn [get lookup String.eqb Ascii.eqb Bool.eqb elements].
  change (match get (get ans "visualization") "layers" with
          | VArr xs => xs
          | _ => []
          end) with (elements (get (get ans "visualization") "layers")) in *.
  destruct (filter (fun il => known_type (snd il)) _) as [|k kept] eqn:F.
  - destruct (filter truthy rs) as [|r0 rs0]; [|discriminate Ety].
    eexists. split; reflexivity.
  - destruct (filter truthy rs) as [|r0 rs0]; [discriminate Ety|].
    split; assumption.
Qed.

(** X4.  [Number(n)] throws on an object that has an own property [toString],
    and so does the sanitizer when the duration or the fps of the input is
    such an object. *)
Theorem sanitize_throws_on_toString (ans : value) (fs : list (string * value)) :
  has_key "toString" fs = true ->
  get (get ans "visualization") "duration" = VObj fs
  \/ get (get ans "visualization") "fps" = VObj fs ->
  sanitizeAnswer StringToNumber NumberToString ans = None.
Proof.
  intros Hk H. unfold sanitizeAnswer.
  destruct (sanitize_text ans) as [text|]; [|reflexivity].
  cbn [bind]. rewrite !getp_or_obj. cbn [bind]. rewrite !get_or_obj.
  destruct H as [H|H].
  - rewrite H. unfold safeNumber at 1. cbn [ToNumber]. rewrite Hk. reflexivity.
  - destruct (safeNumber _ _ (get (get ans "visualization") "duration") _);
      [|reflexivity].
    cbn [bind]. rewrite H. unfold safeNumber at 1. cbn [ToNumber]. rewrite Hk.
    reflexivity.
Qed.

End KeptLayers.

(** ** The fields of the output, from the fields of the input *)

Section OutputFields.

Variable StringToNumber : string -> num.
Variable NumberToString : num -> string.

Lemma safeNumber_converted (v : value) (def n : num) :
  safeNumber StringToNumber NumberToString v def = Some n ->
  converted StringToNumber NumberToString v def n.
Proof.
  unfold safeNumber, converted, Number_isFinite.
  destruct (ToNumber StringToNumber NumberToString v) as [x|]; [|discriminate].
  cbn [bind]. intros H. injection H as <-. eauto.
Qed.

(** Reads off a successful [safeNumber] what it converted. *)
Ltac conv_inv H :=
  repeat match type of H with
         | bind (safeNumber ?s ?n ?v ?d) _ = Some _ =>
             let E := fresh "E" in
             destruct (safeNumber s n v d) eqn:E; [|discriminate H];
             apply safeNumber_converted in E; cbn [bind] in H
         end.

Ltac field_ok := eexists; (split; [eassumption|reflexivity]).

Lemma sanitize_animation_fields (D : num) (a r : value) :
  sanitize_animation StringToNumber NumberToString D a = Some r ->
  animation_fields StringToNumber NumberToString D a r.
Proof.
  unfold sanitize_animation, animation_fields, is_orbit.
  destruct (str_eq (get a "property") "orbit") eqn:E.
  - destruct (str_eq_get_obj _ _ _ E) as [fs ->]. cbn [getp bind]. intros H.
    conv_inv H. apply some_eq in H. subst r.
    cbn [get lookup String.eqb Ascii.eqb Bool.eqb].
    repeat split; field_ok.
  - intros H. conv_inv H. apply some_eq in H. subst r.
    cbn [get lookup String.eqb Ascii.eqb Bool.eqb].
    eexists. split; [reflexivity|]. repeat split; field_ok.
Qed.

Lemma sanitize_animations_fields (D : num) (la : value) (rs : list value) :
  sanitize_animations StringToNumber NumberToString D la = Some rs ->
  Forall2 (animation_fields StringToNumber NumberToString D) (elements la) rs.
Proof.
  unfold sanitize_animations.
  destruct la as [| | | | |xs|]; try (intros H; injection H as <-; constructor).
  cbn [elements]. revert rs. induction xs as [|x xs IH]; cbn [mapM]; intros rs H.
  - injection H as <-. constructor.
  - destruct (sanitize_animation _ _ D x) as [r|] eqn:Er; [|discriminate H].
    cbn [bind] in H.
    destruct (mapM _ xs) as [rs'|]; [|discriminate H]. cbn [bind] in H.
    injection H as <-. constructor; [now apply sanitize_animation_fields|now apply IH].
Qed.

Lemma sanitize_layer_fields (D : num) (l r : value) (i : nat) :
  sanitize_layer StringToNumber NumberToString D l i = Some r ->
  r = VNull \/ layer_fields StringToNumber NumberToString D l r.
Proof.
  unfold sanitize_layer, layer_fields.
  destruct (str_eq (get l "type") "circle") eqn:E1;
    [|destruct (str_eq (get l "type") "arrow") eqn:E2;
      [|destruct (str_eq (get l "type") "lottie") eqn:E3]].
  - destruct (str_eq_get_obj _ _ _ E1) as [fs ->]. cbn [getp bind].
    rewrite !getp_or_obj. cbn [bind]. rewrite !get_or_obj. intros H.
    repeat (conv_inv H; rewrite ?getp_or_obj in H; cbn [bind] in H).
    destruct (sanitize_animations _ _ _ _) as [rs|] eqn:Ea; [|discriminate H].
    cbn [bind] in H. apply some_eq in H. subst r. right.
    apply sanitize_animations_fields in Ea.
    cbn [get lookup String.eqb Ascii.eqb Bool.eqb elements] in *.
    repeat split; try field_ok. exact Ea.
  - destruct (str_eq_get_obj _ _ _ E2) as [fs ->]. cbn [getp bind].
    rewrite !getp_or_obj. cbn [bind]. rewrite !get_or_obj. intros H.
    repeat (conv_inv H; rewrite ?getp_or_obj in H; cbn [bind] in H).
    apply some_eq in H. subst r. right.
    cbn [get lookup String.eqb Ascii.eqb Bool.eqb] in *.
    repeat split; field_ok.
  - destruct (str_eq_get_obj _ _ _ E3) as [fs ->]. cbn [getp bind].
    rewrite !getp_or_obj. cbn [bind]. rewrite !get_or_obj. intros H.
    repeat (conv_inv H; rewrite ?getp_or_obj in H; cbn [bind] in H).
    apply some_eq in H. subst r. right.
    cbn [get lookup String.eqb Ascii.eqb Bool.eqb] in *.
    repeat split; field_ok.
  - intros H. injection H as <-. now left.
Qed.

Lemma kept_fields (D : Q) (xs : list value) :
  1000 <= D -> D <= 10000 ->
  forall start rs,
    map_layers StringToNumber NumberToString (Fin D) start xs = Some rs ->
    Forall2 (kept_as StringToNumber NumberToString D)
            (filter (fun il => known_type (snd il)) (indexed_from start xs))
            (filter truthy rs).
Proof.
  intros H1 H2.
  induction xs as [|x xs IH]; cbn [map_layers indexed_from filter]; intros start rs E.
  - injection E as <-. constructor.
  - destruct (sanitize_layer _ _ _ x start) as [r|] eqn:Er; [|discriminate E].
    cbn [bind] in E.
    destruct (map_layers _ _ _ (S start) xs) as [rs'|] eqn:Ers; [|discriminate E].
    cbn [bind] in E. injection E as <-. cbn [snd filter].
    destruct (sanitize_layer_kind _ _ _ _ _ _ Er) as [(K & T & Ety & Eid)|(K & ->)];
      rewrite K; [|cbn [truthy]; now apply IH].
    rewrite T. constructor; [|now apply IH].
    destruct (sanitize_layer_ok _ _ _ _ _ _ H1 H2 Er) as [->|(_ & _ & Hok)];
      [discriminate T|].
    destruct (sanitize_layer_fields _ _ _ _ Er) as [->|Hf]; [discriminate T|].
    repeat split; assumption.
Qed.

(** Every answer, by its parts. *)
Lemma sanitizeAnswer_kept (ans r : value) :
  sanitizeAnswer StringToNumber NumberToString ans = Some r ->
  exists text D fps layers,
    r = VObj [ ("text", text);
               ("visualization",
                obj_spec (js_or (get (get ans "visualization") "id") (VStr "vis_safe"))
                         (Fin D) (Fin fps) layers) ]
    /\ 1000 <= D /\ D <= 10000 /\ 1 <= fps /\ fps <= 60
    /\ field StringToNumber NumberToString (get (get ans "visualization") "duration")
             (Fin 5000) (Fin 1000) (Fin 10000) (VNum (Fin D))
    /\ field StringToNumber NumberToString (get (get ans "visualization") "fps")
             (Fin 30) (Fin 1) (Fin 60) (VNum (Fin fps))
    /\ match kept_entries ans with
       | [] => layers = default_layers (Fin D)
       | kept => Forall2 (kept_as StringToNumber NumberToString D) kept layers
       end.
Proof.
  unfold sanitizeAnswer.
  destruct (sanitize_text ans) as [text|]; [|discriminate]. cbn [bind].
  rewrite !getp_or_obj. cbn [bind]. rewrite !get_or_obj. intros H.
  destruct (safeNumber _ _ (get (get ans "visualization") "duration") _) as [nd|] eqn:Ed;
    [|discriminate H].
  cbn [bind] in H.
  destruct (safeNumber _ _ (get (get ans "visualization") "fps") _) as [nf|] eqn:Ef;
    [|discriminate H].
  cbn [bind] in H.
  destruct (safeNumber_finite _ _ _ _ _ Ed) as [qd ->].
  destruct (safeNumber_finite _ _ _ _ _ Ef) as [qf ->].
  apply safeNumber_converted in Ed, Ef.
  destruct (clamp_fin qd 1000 10000) as (D & HD & HD1 & HD2); [lra|].
  destruct (clamp_fin qf 1 60) as (fps & Hf & Hf1 & Hf2); [lra|].
  rewrite HD, Hf in H. unfold kept_layers in H.
  destruct (map_layers _ _ _ _ _) as [rs|] eqn:Ers; [|discriminate H].
  cbn [bind] in H. apply some_eq in H. subst r.
  pose proof (kept_fields D _ HD1 HD2 _ _ Ers) as K.
  change (match get (get ans "visualization") "layers" with
          | VArr xs => xs
          | _ => []
          end) with (elements (get (get ans "visualization") "layers")) in K.
  fold (kept_entries ans) in K.
  exists text, D, fps. eexists. split; [reflexivity|].
  repeat (split; [assumption|]).
  split; [exists (Fin qd); split; [exact Ed|now rewrite HD]|].
  split; [exists (Fin qf); split; [exact Ef|now rewrite Hf]|].
  destruct (kept_entries ans) as [|k kept].
  - inversion K as [E0|]. reflexivity.
  - inversion K as [|? r0 ? rs0 ? ? E0]. subst. now constructor.
Qed.

End OutputFields.

(** ** What the sanitizer guarantees *)

Lemma indexed_from_lower (start : nat) (xs : list value) (il : nat * value) :
  In il (indexed_from start xs) -> (start <= fst il)%nat.
Proof.
  revert start. induction xs as [|x xs IH]; cbn [indexed_from]; intros start; [intros []|].
  intros [<-|H]; [reflexivity|]. apply IH in H. lia.
Qed.

Lemma indexed_from_NoDup (f : nat * value -> bool) (start : nat) (xs : list value) :
  NoDup (map fst (filter f (indexed_from start xs))).
Proof.
  revert start. induction xs as [|x xs IH]; cbn [indexed_from filter]; intros start;
    [constructor|].
  destruct (f (start, x)); [|apply IH]. cbn [map fst]. constructor; [|apply IH].
  intros H. apply in_map_iff in H as (il & E & H). apply filter_In in H as [H _].
  apply indexed_from_lower in H. lia.
Qed.

Lemma own_id_listed (kept : list (nat * value)) (il : nat * value) :
  In il kept -> has_own_id il = true -> In (entry_id il) (own_ids kept).
Proof.
  intros H T. unfold own_ids, entry_id, js_or. unfold has_own_id in T. rewrite T.
  apply in_map_iff. exists il. split; [reflexivity|].
  apply filter_In. now split.
Qed.

Lemma assigned_id_listed (kept : list (nat * value)) (il : nat * value) :
  In il kept -> has_own_id il = false -> In (entry_id il) (assigned_ids kept).
Proof.
  intros H T. unfold assigned_ids, entry_id, js_or. unfold has_own_id in T. rewrite T.
  apply in_map_iff. exists il. split; [reflexivity|].
  apply filter_In. split; [exact H|]. unfold has_own_id. now rewrite T.
Qed.

(** The ids the entries come out with are pairwise different when their
    own ids are, and none of these is an assigned one. *)
Lemma entry_ids_NoDup (kept : list (nat * value)) :
  NoDup (map fst kept) ->
  NoDup (own_ids kept) ->
  (forall v, In v (own_ids kept) -> ~ In v (assigned_ids kept)) ->
  NoDup (map entry_id kept).
Proof.
  induction kept as [|a kept IH]; cbn [map]; intros Hi Ho Hc; [constructor|].
  inversion Hi as [|? ? Hia Hik]. subst.
  destruct (has_own_id a) eqn:T.
  - assert (Eo : own_ids (a :: kept) = entry_id a :: own_ids kept).
    { unfold own_ids, entry_id, js_or. cbn [filter]. rewrite T. cbn [map].
      unfold has_own_id in T. now rewrite T. }
    assert (Ea : assigned_ids (a :: kept) = assigned_ids kept).
    { unfold assigned_ids. cbn [filter]. now rewrite T. }
    rewrite Eo in Ho, Hc. rewrite Ea in Hc. inversion Ho as [|? ? Hn Ho']. subst.
    constructor.
    + intros H. apply in_map_iff in H as (b & E & Hb).
      destruct (has_own_id b) eqn:Tb.
      * apply Hn. rewrite <- E. now apply own_id_listed.
      * apply (Hc (entry_id a)); [now left|].
        rewrite <- E. now apply assigned_id_listed.
    + apply IH; auto. intros v Hv. apply Hc. now right.
  - assert (Eo : own_ids (a :: kept) = own_ids kept).
    { unfold own_ids. cbn [filter]. now rewrite T. }
    assert (Ea : assigned_ids (a :: kept) = entry_id a :: assigned_ids kept).
    { unfold assigned_ids, entry_id, js_or. cbn [filter]. rewrite T. cbn [negb map].
      unfold has_own_id in T. now rewrite T. }
    rewrite Eo in Ho, Hc. rewrite Ea in Hc.
    constructor.
    + intros H. apply in_map_iff in H as (b & E & Hb).
      destruct (has_own_id b) eqn:Tb.
      * apply (Hc (entry_id b)); [now apply own_id_listed|].
        left. now symmetry.
      * apply Hia. apply in_map_iff. exists b. split; [|exact Hb].
        unfold entry_id, js_or in E. unfold has_own_id in T, Tb.
        rewrite T, Tb in E. injection E as E. now apply index_to_string_inj in E.
    + apply IH; auto. intros v Hv C. apply (Hc v Hv). now right.
Qed.

Lemma no_input_ids_own (ans : value) :
  no_input_ids ans = true -> own_ids (kept_entries ans) = [].
Proof.
  unfold no_input_ids, kept_entries, own_ids.
  generalize 0%nat. induction (elements _) as [|x xs IH]; intros start;
    cbn [forallb indexed_from filter]; [reflexivity|].
  intros H. apply andb_prop in H as [Hx Hxs]. apply negb_true_iff in Hx.
  cbn [snd]. destruct (known_type x); [|now apply IH].
  cbn [filter]. unfold has_own_id at 1. cbn [snd]. rewrite Hx. now apply IH.
Qed.

Section SanitizerClaims.

Variable StringToNumber : string -> num.
Variable NumberToString : num -> string.

Lemma kept_as_ok (D : Q) (kept : list (nat * value)) (layers : list value) :
  Forall2 (kept_as StringToNumber NumberToString D) kept layers ->
  forallb (layer_ok D) layers = true
  /\ map (fun l => get l "id") layers = map entry_id kept
  /\ Forall2 (fun il out => layer_fields StringToNumber NumberToString (Fin D) (snd il) out)
             kept layers.
Proof.
  induction 1 as [|il r kept layers (Hid & _ & Hok & Hf) _ (IH1 & IH2 & IH3)];
    [repeat split; constructor|].
  cbn [forallb map]. rewrite Hok, IH1, Hid, IH2.
  repeat split. now constructor.
Qed.

(** C1, as amended.  For every input in which no object has an own
    property named [toString] and no array is nested more than 100 deep in
    arrays, the sanitizer returns, without throwing, an answer whose
    visualization has as id the [visualization.id] of the input when that
    is truthy, of whatever type, and "vis_safe" otherwise (so a truthy id),
    a duration within 1000..10000, an fps within 1..60, layers that are not
    empty and every prop within its clamp range.  When entries of the input
    are kept, every animation of the layers is valid: an Orbit within its
    ranges, a Linear one with [0 <= start] and
    [start + 100 <= end <= duration]; when none is kept, the layers are the
    default scene. *)
Theorem sanitizeAnswer_valid (ans : value) :
  plain ans = true ->
  shallow safe_nesting ans = true ->
  exists text spec D,
    sanitizeAnswer StringToNumber NumberToString ans
    = Some (VObj [ ("text", text); ("visualization", spec) ]) /\
    get spec "id" = js_or (get (get ans "visualization") "id") (VStr "vis_safe") /\
    truthy (get spec "id") = true /\
    get spec "duration" = VNum (Fin D) /\ 1000 <= D /\ D <= 10000 /\
    in_range (get spec "fps") 1 60 = true /\
    layers_of spec <> [] /\
    forallb props_ok (layers_of spec) = true /\
    match kept_entries ans with
    | [] => layers_of spec = default_layers (Fin D)
    | _ => forallb (animations_ok D) (layers_of spec) = true
    end.
Proof.
  intros Hp _.
  destruct (sanitizeAnswer_total StringToNumber NumberToString ans Hp) as [r Er].
  destruct (sanitizeAnswer_kept _ _ _ _ Er)
    as (text & D & fps & layers & -> & HD1 & HD2 & Hf1 & Hf2 & _ & _ & K).
  exists text. eexists. exists D. split; [exact Er|].
  unfold layers_of. cbn [obj_spec get lookup String.eqb Ascii.eqb Bool.eqb elements].
  split; [reflexivity|].
  split.
  { unfold js_or.
    destruct (truthy (get (get ans "visualization") "id")) eqn:T; auto. }
  split; [reflexivity|]. split; [assumption|]. split; [assumption|].
  split; [simpl; apply andb_true_intro; split; qbool; assumption|].
  destruct (kept_entries ans) as [|k kept].
  - subst layers. split; [discriminate|]. split; reflexivity.
  - destruct (kept_as_ok _ _ _ K) as (Hok & _ & _).
    apply layer_ok_split in Hok as [Hp' Ha].
    split; [|split; assumption].
    inversion K. discriminate.
Qed.

(** C4, as amended.  The sanitizer passes ids through and checks nothing:
    in every spec it returns each layer has the id of the entry it was kept
    from when that id is truthy, whatever its value, and [layer_<index>]
    otherwise, the index being the position of the entry in the input
    array; with no entry kept the ids are those of the default scene.  So
    the ids are pairwise different whenever the ids the kept entries carry
    are pairwise different and none of them is the [layer_<index>] assigned
    to a kept entry without an id; in particular when no entry carries an
    id of its own. *)
Theorem assigned_ids_unique (ans r : value) :
  sanitizeAnswer StringToNumber NumberToString ans = Some r ->
  let kept := kept_entries ans in
  layer_ids (visualization r)
  = match kept with
    | [] => [ VStr "ball"; VStr "arrow" ]
    | _ => map entry_id kept
    end
  /\ (NoDup (own_ids kept) ->
      (forall v, In v (own_ids kept) -> ~ In v (assigned_ids kept)) ->
      NoDup (layer_ids (visualization r)))
  /\ (no_input_ids ans = true -> NoDup (layer_ids (visualization r))).
Proof.
  intros Er kept.
  destruct (sanitizeAnswer_kept _ _ _ _ Er)
    as (text & D & fps & layers & -> & _ & _ & _ & _ & _ & _ & K).
  unfold layer_ids, layers_of, visualization.
  cbn [obj_spec get lookup String.eqb Ascii.eqb Bool.eqb elements].
  assert (E : map (fun l => get l "id") layers
              = match kept with
                | [] => [ VStr "ball"; VStr "arrow" ]
                | _ => map entry_id kept
                end).
  { subst kept. destruct (kept_entries ans) as [|k kept'].
    - subst layers. reflexivity.
    - now destruct (kept_as_ok _ _ _ K) as (_ & Hid & _). }
  assert (U : NoDup (own_ids kept) ->
              (forall v, In v (own_ids kept) -> ~ In v (assigned_ids kept)) ->
              NoDup (map (fun l => get l "id") layers)).
  { intros Ho Hc. rewrite E.
    assert (N : NoDup (map entry_id kept)).
    { apply entry_ids_NoDup; auto. apply indexed_from_NoDup. }
    destruct kept; [|exact N].
    repeat constructor; simpl; intuition discriminate. }
  split; [exact E|]. split; [exact U|].
  intros Hn. apply U; subst kept; rewrite (no_input_ids_own _ Hn);
    [constructor|intros v []].
Qed.

(** C10, as amended.  Every numeric field of a spec the sanitizer returns
    is a finite number, and each one is computed from the field of the
    input by the same rule: the input value is converted by [Number(v)];
    when the result is NaN or infinite it is replaced by the default of the
    field, and otherwise it is used as converted (so [null] counts as 0 and
    [true] as 1); then the number is clamped to the range of the field.
    This holds of the duration and the fps of the spec, of the props of
    every layer kept from the input and of the fields of its animations;
    the [from] and [to] of a Linear animation have the defaults 100 and 500
    and no range.  With no layer kept the layers are the default scene. *)
Theorem sanitized_numbers_finite (ans r : value) :
  sanitizeAnswer StringToNumber NumberToString ans = Some r ->
  let vis := get ans "visualization" in
  let spec := visualization r in
  let field := field StringToNumber NumberToString in
  spec_numbers_finite spec = true
  /\ exists D,
      get spec "duration" = VNum D
      /\ field (get vis "duration") (Fin 5000) (Fin 1000) (Fin 10000) (get spec "duration")
      /\ field (get vis "fps") (Fin 30) (Fin 1) (Fin 60) (get spec "fps")
      /\ match kept_entries ans with
         | [] => layers_of spec = default_layers D
         | kept =>
             Forall2 (fun il out =>
                        layer_fields StringToNumber NumberToString D (snd il) out)
                     kept (layers_of spec)
         end.
Proof.
  intros Er vis spec fld. subst vis spec fld.
  destruct (sanitizeAnswer_kept _ _ _ _ Er)
    as (text & D & fps & layers & -> & _ & _ & _ & _ & Fd & Ff & K).
  unfold spec_numbers_finite, layers_of, visualization.
  cbn [obj_spec get lookup String.eqb Ascii.eqb Bool.eqb elements finite_value andb].
  split.
  - destruct (kept_entries ans) as [|k kept].
    + subst layers. reflexivity.
    + destruct (kept_as_ok _ _ _ K) as (Hok & _ & _).
      now apply layers_ok_finite in Hok.
  - exists (Fin D). split; [reflexivity|]. split; [exact Fd|]. split; [exact Ff|].
    destruct (kept_entries ans) as [|k kept]; [exact K|].
    now destruct (kept_as_ok _ _ _ K) as (_ & _ & Hf).
Qed.

End SanitizerClaims.

(** The witness of [sanitizeAnswer_valid]: the object of the end-to-end
    scenario. *)
Lemma sanitizeAnswer_valid_witness :
  plain scenario_object = true
  /\ shallow safe_nesting scenario_object = true
  /\ exists text spec D,
      sanitizeAnswer sample_s2n sample_n2s scenario_object
      = Some (VObj [ ("text", text); ("visualization", spec) ]) /\
      get spec "id" = js_or (get (get scenario_object "visualization") "id")
                            (VStr "vis_safe") /\
      truthy (get spec "id") = true /\
      get spec "duration" = VNum (Fin D) /\ 1000 <= D /\ D <= 10000 /\
      in_range (get spec "fps") 1 60 = true /\
      layers_of spec <> [] /\
      forallb props_ok (layers_of spec) = true /\
      forallb (animations_ok D) (layers_of spec) = true.
Proof.
  refine (conj eq_refl (conj eq_refl _)).
  exact (sanitizeAnswer_valid sample_s2n sample_n2s scenario_object eq_refl eq_refl).
Defined.

(** The witness of [assigned_ids_unique]: two entries without ids. *)
Lemma assigned_ids_unique_witness :
  exists r,
    sanitizeAnswer sample_s2n sample_n2s input_two_layers = Some r
    /\ layer_ids (visualization r) = [ VStr "layer_0"; VStr "layer_1" ]
    /\ NoDup (layer_ids (visualization r)).
Proof.
  eexists. split; [reflexivity|].
  destruct (assigned_ids_unique sample_s2n sample_n2s input_two_layers _ eq_refl)
    as (E & _ & U).
  exact (conj E (U eq_refl)).
Defined.

(** With the id [layer_1] of its own the first entry comes out with the id
    that is assigned to the second. *)
Lemma clash_ids_kept (s2n : string -> num) (n2s : num -> string) :
  exists r,
    sanitizeAnswer s2n n2s input_clash = Some r
    /\ layer_ids (visualization r) = [ VStr "layer_1"; VStr "layer_1" ].
Proof. eexists. split; reflexivity. Qed.

(** C4 fails as stated: two entries with the same id [a] come out as two
    layers with the same id, and so do an entry with the id [layer_1] and
    the entry without an id at index 1, whatever the conversions on strings
    are. *)
Lemma same_ids_not_unique :
  (~ exists s2n n2s r,
       sanitizeAnswer s2n n2s input_same_ids = Some r
       /\ NoDup (layer_ids (visualization r)))
  /\ (~ exists s2n n2s r,
         sanitizeAnswer s2n n2s input_clash = Some r
         /\ NoDup (layer_ids (visualization r))).
Proof.
  split.
  - intros (s2n & n2s & r & E & H).
    destruct (same_ids_kept s2n n2s) as (r' & E' & Hids).
    rewrite E in E'. injection E' as <-. rewrite Hids in H.
    inversion H as [|? ? Hin _]. apply Hin. now left.
  - intros (s2n & n2s & r & E & H).
    destruct (clash_ids_kept s2n n2s) as (r' & E' & Hids).
    rewrite E in E'. injection E' as <-. rewrite Hids in H.
    inversion H as [|? ? Hin _]. apply Hin. now left.
Qed.

(** The witness of [sanitized_numbers_finite]: [null] counts as 0, [true]
    as 1. *)
Lemma sanitized_numbers_finite_witness :
  exists r,
    sanitizeAnswer sample_s2n sample_n2s input_null_numbers = Some r
    /\ spec_numbers_finite (visualization r) = true
    /\ exists D,
        get (visualization r) "duration" = VNum D
        /\ field sample_s2n sample_n2s
                 (get (get input_null_numbers "visualization") "duration")
                 (Fin 5000) (Fin 1000) (Fin 10000) (get (visualization r) "duration")
        /\ field sample_s2n sample_n2s
                 (get (get input_null_numbers "visualization") "fps")
                 (Fin 30) (Fin 1) (Fin 60) (get (visualization r) "fps")
        /\ Forall2 (fun il out => layer_fields sample_s2n sample_n2s D (snd il) out)
                   (kept_entries input_null_numbers) (layers_of (visualization r)).
Proof.
  eexists. split; [reflexivity|].
  exact (sanitized_numbers_finite sample_s2n sample_n2s input_null_numbers _ eq_refl).
Defined.

(** C10 fails as stated: [null] is not a number, and it is not replaced by
    the default 16 of the radius; it counts as 0, which is clamped to 1. *)
Lemma null_is_not_defaulted :
  ~ exists s2n n2s r,
      sanitizeAnswer s2n n2s input_null_numbers = Some r
      /\ let layer := hd VUndef (layers_of (visualization r)) in
         get (get layer "props") "r" = vnum 16.
Proof.
  intros (s2n & n2s & r & E & H).
  destruct (null_numbers_sanitized s2n n2s) as (r' & E' & Hl).
  rewrite E in E'. injection E' as <-. rewrite Hl in H.
  vm_compute in H. discriminate.
Qed.

(** ** The extractor on texts of any content *)

Lemma list_ascii_of_string_app (a b : string) :
  list_ascii_of_string (a ++ b) = (list_ascii_of_string a ++ list_ascii_of_string b)%list.
Proof. induction a as [|x a IH]; simpl; [reflexivity|now rewrite IH]. Qed.

(** The match of the regular expression is a non-empty end of the text. *)
Lemma from_first_brace_suffix (s m : list ascii) :
  from_first_brace s = Some m -> exists p c m', s = (p ++ c :: m')%list /\ m = c :: m'.
Proof.
  induction s as [|c s IH]; cbn [from_first_brace]; [discriminate|].
  destruct (Ascii.eqb c "{").
  - intros H. injection H as <-. now exists [], c, s.
  - intros H. destruct (IH H) as (p & c' & m' & -> & ->).
    now exists (c :: p), c', m'.
Qed.

Lemma from_first_brace_app (p m : list ascii) :
  forallb (fun c => negb (Ascii.eqb c "{")) p = true ->
  from_first_brace (p ++ "{"%char :: m) = Some ("{"%char :: m).
Proof.
  induction p as [|c p IH]; cbn [forallb app from_first_brace]; intros H.
  - reflexivity.
  - apply andb_prop in H as [H1 H2]. apply negb_true_iff in H1. rewrite H1. auto.
Qed.

Lemma rev_head_app (p m : list ascii) (c : ascii) :
  exists t, rev (p ++ c :: m) = (match rev (c :: m) with x :: _ => x | [] => c end) :: t.
Proof.
  rewrite rev_app_distr.
  destruct (rev (c :: m)) as [|x t] eqn:E.
  - apply (f_equal (@List.length ascii)) in E. rewrite length_rev in E. discriminate.
  - cbn [app]. eauto.
Qed.

(** Without a closing brace at its end a text has no match. *)
Lemma match_braces_none (text : string) :
  ends_with_brace text = false -> match_braces text = None.
Proof.
  unfold ends_with_brace, match_braces. intros H.
  destruct (from_first_brace (list_ascii_of_string text)) as [m|] eqn:F; [|reflexivity].
  destruct (from_first_brace_suffix _ _ F) as (p & c & m' & Es & ->).
  rewrite Es in H. destruct (rev_head_app p m' c) as [t Et]. rewrite Et in H.
  destruct (rev (c :: m')) as [|x t']; [reflexivity|]. now rewrite H.
Qed.

(** X5.  [extractJSON] recovers nothing from a text that is not JSON as a whole
    and does not end with a closing brace: an object followed by anything,
    even by a line feed or a closing fence, is not found. *)
Theorem extractJSON_needs_closing_brace (text : string) :
  JSON.parse text = None ->
  ends_with_brace text = false ->
  extractJSON (VStr text) = VNull.
Proof.
  intros Hp He. unfold extractJSON.
  destruct (negb (truthy (VStr text)) || negb (is_string (VStr text))); [reflexivity|].
  now rewrite Hp, (match_braces_none _ He).
Qed.

(** X6.  [extractJSON] ignores prose before an object: when the text is not
    JSON as a whole, it returns what the text from its first opening brace
    on parses to, provided the text ends with a closing brace. *)
Theorem extractJSON_after_prose (prose body : string) (v : value) :
  no_brace prose = true ->
  JSON.parse (prose ++ "{" ++ body ++ "}") = None ->
  JSON.parse ("{" ++ body ++ "}") = Some v ->
  extractJSON (VStr (prose ++ "{" ++ body ++ "}")) = v.
Proof.
  intros Hn Hp Hv. unfold extractJSON.
  assert (T : truthy (VStr (prose ++ "{" ++ body ++ "}")) = true).
  { destruct prose; reflexivity. }
  rewrite T. cbn [negb orb is_string]. rewrite Hp.
  assert (M : match_braces (prose ++ "{" ++ body ++ "}") = Some ("{" ++ body ++ "}")%string).
  { unfold match_braces. rewrite list_ascii_of_string_app.
    cbn [String.append list_ascii_of_string].
    rewrite from_first_brace_app by exact Hn.
    change ("{"%char :: list_ascii_of_string (body ++ "}"))
      with (list_ascii_of_string (String "{" (body ++ "}"))).
    rewrite string_of_list_ascii_of_string.
    cbn [list_ascii_of_string]. rewrite list_ascii_of_string_app.
    change (("{"%char :: (list_ascii_of_string body ++ list_ascii_of_string "}"))%list)
      with ((("{"%char :: list_ascii_of_string body) ++ ["}"%char])%list).
    rewrite rev_unit. reflexivity. }
  rewrite M. now rewrite Hv.
Qed.

(** ** The tolerant parsing of [askOllama] *)

Lemma trim_clean (s : string) :
  starts_clean s -> ends_clean s -> trim s = s.
Proof.
  intros H1 H2. unfold trim, trim_end, trim_start.
  rewrite (strip_of_clean false s H1), (strip_of_clean true _ H2).
  apply rev_string_involutive.
Qed.

Lemma strip_space (back : bool) (a : ascii) (r : string) :
  is_space a = true -> strip back (String a r) = strip back r.
Proof. intros H. cbn [strip]. now rewrite H. Qed.

Lemma strip_fence_tail_fence (x : string) : strip_fence_tail (x ++ "```") = x.
Proof.
  unfold strip_fence_tail. rewrite list_ascii_of_string_app, rev_app_distr.
  cbn [list_ascii_of_string rev app Ascii.eqb Bool.eqb andb].
  rewrite rev_involutive. apply string_of_list_ascii_of_string.
Qed.

Lemma strip_fence_head_fence (y : string) :
  strip_fence_head ("```json" ++ y) = trim_start y.
Proof.
  unfold strip_fence_head.
  assert (E : starts_with_ci (list_ascii_of_string "```json")
                (list_ascii_of_string ("```json" ++ y))
              = Some (list_ascii_of_string y)) by reflexivity.
  rewrite E. now rewrite string_of_list_ascii_of_string.
Qed.

(** A text that starts with a backquote is not JSON. *)
Lemma parse_backquote (s : string) : JSON.parse (String "`" s) = None.
Proof.
  unfold JSON.parse. cbn [list_ascii_of_string List.length].
  rewrite Nat.add_comm. cbn [Nat.add Nat.mul].
  cbn [JSON.parse_value JSON.skip_ws JSON.is_ws]. reflexivity.
Qed.

(** The members of an object make an object. *)
Lemma parse_members_object (fuel : nat) :
  forall s acc v r, JSON.parse_members fuel s acc = Some (v, r) -> exists fs, v = VObj fs.
Proof.
  induction fuel as [|fuel IH]; intros s acc v r; [discriminate|].
  cbn [JSON.parse_members].
  destruct (JSON.skip_ws s) as [|q r0]; [discriminate|].
  destruct (Ascii.eqb q JSON.dquote); [|discriminate].
  destruct (JSON.parse_chars r0) as [[ks r1]|]; [|discriminate].
  destruct (JSON.skip_ws r1) as [|colon r2]; [discriminate|].
  destruct (Ascii.eqb colon ":"); [|discriminate].
  destruct (JSON.parse_value fuel r2) as [[v' r3]|]; [|discriminate].
  destruct (JSON.skip_ws r3) as [|c r4]; [discriminate|].
  destruct (Ascii.eqb c ","); [apply IH|].
  destruct (Ascii.eqb c "}"); [|discriminate].
  intros H. injection H as <- _. eauto.
Qed.

(** A text that starts with an opening brace parses to an object, if it
    parses at all. *)
Lemma parse_brace_object (s : string) (v : value) :
  JSON.parse (String "{" s) = Some v -> exists fs, v = VObj fs.
Proof.
  unfold JSON.parse. cbn [list_ascii_of_string List.length].
  rewrite Nat.add_comm. cbn [Nat.add Nat.mul].
  cbn [JSON.parse_value JSON.skip_ws JSON.is_ws].
  change (JSON.is_ws "{") with false. cbv iota.
  change (Ascii.eqb "{" "{") with true. cbv iota.
  destruct (JSON.skip_ws (list_ascii_of_string s)) as [|c' r'] eqn:W; [discriminate|].
  destruct (Ascii.eqb c' "}").
  - destruct (JSON.skip_ws r'); [|discriminate]. intros H. injection H as <-. eauto.
  - destruct (JSON.parse_members _ _ _) as [[v' r]|] eqn:M; [|discriminate].
    destruct (JSON.skip_ws r); [|discriminate]. intros H. injection H as <-.
    eapply parse_members_object, M.
Qed.

(** X7.  [askOllama] recovers an object that the model wrapped in a code fence
    tagged json, when nothing comes before the fence: the first attempt
    fails, the fences are removed, and what is left is parsed. *)
Theorem askOllama_recovers_fenced (body : string) (v : value) :
  JSON.parse ("{" ++ body ++ "}" ++ LF) = Some v ->
  askOllama_parse (VObj [ ("response", VStr (fenced body)) ]) = Some v.
Proof.
  intros Hv. unfold askOllama_parse.
  cbn [truthy get lookup String.eqb Ascii.eqb Bool.eqb is_string andb].
  assert (Et : trim (fenced body) = fenced body).
  { apply trim_clean; [reflexivity|].
    replace (fenced body)
      with (("```json" ++ LF ++ "{" ++ body ++ "}" ++ LF ++ "``") ++ "`")%string
      by (unfold fenced; rewrite !append_assoc; reflexivity).
    unfold ends_clean. rewrite rev_string_snoc. now apply one_byte_clean. }
  rewrite Et.
  assert (E1 : extractJSON (VStr (fenced body)) = VNull).
  { unfold extractJSON. cbn [truthy is_string].
    destruct (negb (negb (fenced body =? EmptyString)%string) || negb true);
      [reflexivity|].
    assert (P : JSON.parse (fenced body) = None)
      by (unfold fenced; cbn [String.append]; apply parse_backquote).
    rewrite P, match_braces_none; [reflexivity|].
    unfold ends_with_brace, fenced.
    rewrite <- !append_assoc. rewrite list_ascii_of_string_app, rev_app_distr.
    reflexivity. }
  rewrite E1. cbn [truthy negb].
  assert (E2 : strip_fence_tail (strip_fence_head (fenced body))
               = ("{" ++ body ++ "}" ++ LF)%string).
  { unfold fenced. rewrite strip_fence_head_fence.
    unfold trim_start. cbn [LF String.append].
    rewrite strip_space by reflexivity.
    rewrite strip_of_clean by now apply one_byte_clean.
    replace (String "{" (body ++ String "}" (String (ascii_of_nat 10) "```")))%string
      with ((String "{" (body ++ String "}" (String (ascii_of_nat 10) EmptyString)))
              ++ "```")%string.
    - apply strip_fence_tail_fence.
    - cbn [String.append]. rewrite append_assoc. reflexivity. }
  rewrite E2.
  assert (E3 : extractJSON (VStr ("{" ++ body ++ "}" ++ LF)) = v).
  { unfold extractJSON. cbn [truthy is_string].
    assert (T : negb (negb (("{" ++ body ++ "}" ++ LF) =? EmptyString)%string) = false)
      by reflexivity.
    rewrite T. cbn [negb orb]. now rewrite Hv. }
  rewrite E3.
  cbn [String.append] in Hv. destruct (parse_brace_object _ _ Hv) as [fs ->].
  reflexivity.
Qed.

(** X8.  [askOllama] never returns a falsy value, whatever JSON the model
    answered with, and returns nothing when the body of the response has no
    string under [response]. *)
Theorem askOllama_returns_truthy (data v : value) :
  askOllama_parse data = Some v ->
  truthy v = true /\ truthy data = true /\ is_string (get data "response") = true.
Proof.
  unfold askOllama_parse.
  destruct (truthy data && is_string (get data "response")) eqn:E.
  - apply andb_prop in E as [E1 E2].
    match goal with
    | |- (if negb (truthy ?p) then _ else _) = _ -> _ => destruct (truthy p) eqn:T
    end; cbn [negb]; [|discriminate].
    intros H. injection H as <-. auto.
  - change (extractJSON (VStr EmptyString)) with VNull. cbn [truthy negb].
    change (strip_fence_tail (strip_fence_head EmptyString)) with EmptyString.
    change (extractJSON (VStr EmptyString)) with VNull. cbn [truthy negb].
    discriminate.
Qed.

(** ** [clamp] *)

(** X1.  [clamp] brings every number but NaN within its bounds, the infinities
    included, and leaves a number within the bounds as it is; NaN passes
    through, which is why the sanitizer applies [safeNumber] first. *)
Theorem clamp_bounds (n : num) (lo hi : Q) :
  lo <= hi ->
  (is_nan n = false ->
   exists q, clamp n (Fin lo) (Fin hi) = Fin q /\ lo <= q /\ q <= hi
             /\ (forall x, n = Fin x -> lo <= x -> x <= hi -> q == x))
  /\ clamp NaN (Fin lo) (Fin hi) = NaN.
Proof.
  intros H. split; [|reflexivity]. intros Hn.
  destruct n as [| | |x]; [discriminate Hn| | |].
  - exists (Qred (if Qle_bool lo (Qred hi) then Qred hi else lo)).
    split; [reflexivity|].
    destruct (Qle_bool lo (Qred hi)) eqn:E; qbool; rewrite ?Qred_correct in *;
      repeat split; try lra; intros; discriminate.
  - exists (Qred lo). split; [reflexivity|]. rewrite Qred_correct.
    repeat split; try lra; intros; discriminate.
  - destruct (clamp_fin x lo hi H) as (q & Eq & H1 & H2).
    exists q. repeat split; auto.
    intros y Ey Hy1 Hy2. injection Ey as <-.
    rewrite (clamp_in_range x lo hi Hy1 Hy2) in Eq. injection Eq as <-.
    apply Qred_correct.
Qed.

(** ** The mock answers *)

Lemma generic_text_trimmed (shown : string) :
  trim ("Here’s a clear explanation of “" ++ shown ++ "”.")
  = ("Here’s a clear explanation of “" ++ shown ++ "”.")%string.
Proof.
  apply trim_clean; [reflexivity|].
  replace ("Here’s a clear explanation of “" ++ shown ++ "”.")%string
    with (("Here’s a clear explanation of “" ++ shown ++ "”") ++ ".")%string
    by (rewrite !append_assoc; reflexivity).
  unfold ends_clean. rewrite rev_string_snoc. now apply one_byte_clean.
Qed.

Section MockAnswers.

Variable StringToNumber : string -> num.
Variable NumberToString : num -> string.

Lemma mock_generic_fixed (shown : string) :
  sanitizeAnswer StringToNumber NumberToString (mock_generic shown)
  = Some (mock_generic shown).
Proof.
  unfold sanitizeAnswer, mock_generic, sanitize_text.
  cbn [get getp lookup String.eqb Ascii.eqb Bool.eqb is_string call_trim bind].
  rewrite generic_text_trimmed.
  cbn [truthy String.append String.eqb negb bind call_trim].
  reflexivity.
Qed.

Lemma js_or_string (s : string) : js_or (VStr s) (VStr EmptyString) = VStr s.
Proof. destruct s; reflexivity. Qed.

(** The four answers, by the words the question contains. *)
Lemma mockAnswer_string (q : string) :
  mockAnswer NumberToString (VStr q)
  = Some (if includes (toLowerCase q) "solar" then mock_solar
          else if includes (toLowerCase q) "newton" then mock_newton
          else if includes (toLowerCase q) "dna" then mock_dna
          else mock_generic q).
Proof.
  unfold mockAnswer. rewrite js_or_string. cbv zeta.
  destruct (includes (toLowerCase q) "solar"); [reflexivity|].
  destruct (includes (toLowerCase q) "newton"); [reflexivity|].
  destruct (includes (toLowerCase q) "dna"); reflexivity.
Qed.

Lemma mock_sanitized (q : string) :
  exists m,
    mockAnswer NumberToString (VStr q) = Some m
    /\ sanitizeAnswer StringToNumber NumberToString m = Some m.
Proof.
  rewrite mockAnswer_string. eexists. split; [reflexivity|].
  destruct (includes (toLowerCase q) "solar"); [reflexivity|].
  destruct (includes (toLowerCase q) "newton"); [reflexivity|].
  destruct (includes (toLowerCase q) "dna"); [reflexivity|].
  apply mock_generic_fixed.
Qed.

(** No mock answer animates a radius. *)
Lemma mock_radius_safe (q : string) (m : value) :
  mockAnswer NumberToString (VStr q) = Some m ->
  spec_radius_safe (visualization m) = true.
Proof.
  rewrite mockAnswer_string. intros [= <-].
  destruct (includes (toLowerCase q) "solar"); [reflexivity|].
  destruct (includes (toLowerCase q) "newton"); [reflexivity|].
  destruct (includes (toLowerCase q) "dna"); reflexivity.
Qed.

(** X9.  Whatever the question, as long as it is a string, the mock answer
    satisfies every invariant of the data model, has distinct layer ids,
    and is a fixed point of the sanitizer. *)
Theorem mock_answers_canonical (q : string) :
  exists m,
    mockAnswer NumberToString (VStr q) = Some m
    /\ sanitizeAnswer StringToNumber NumberToString m = Some m
    /\ spec_ok (visualization m) = true
    /\ NoDup (layer_ids (visualization m)).
Proof.
  rewrite mockAnswer_string. eexists. split; [reflexivity|].
  assert (N : forall a b : string, a <> b -> NoDup [VStr a; VStr b]).
  { intros a b H. repeat constructor; simpl; intuition congruence. }
  destruct (includes (toLowerCase q) "solar");
    [|destruct (includes (toLowerCase q) "newton");
      [|destruct (includes (toLowerCase q) "dna")]].
  - split; [reflexivity|]. split; [reflexivity|]. apply N. discriminate.
  - split; [reflexivity|]. split; [reflexivity|]. apply N. discriminate.
  - split; [reflexivity|]. split; [reflexivity|]. apply N. discriminate.
  - split; [apply mock_generic_fixed|]. split; [reflexivity|]. apply N. discriminate.
Qed.

Lemma mockAnswer_string_only (question : value) :
  is_string question = false -> truthy question = true ->
  mockAnswer NumberToString question = None.
Proof.
  destruct question as [| |[]|n|s|xs|fs]; try discriminate; intros _ T; try reflexivity.
  unfold mockAnswer, js_or. now rewrite T.
Qed.

(** X10.  A question that is not a string: [mockAnswer] throws when it is
    truthy (a number, [true], an array, an object), and builds the generic
    answer around its printed form when it is falsy. *)
Theorem mockAnswer_not_a_string (question : value) :
  is_string question = false ->
  mockAnswer NumberToString question
  = if truthy question then None
    else shown <- ToString NumberToString question ;; Some (mock_generic shown).
Proof.
  destruct question as [| |[]|n|s|xs|fs]; try discriminate; intros _; try reflexivity.
  unfold mockAnswer, js_or. destruct (truthy (VNum n)); reflexivity.
Qed.

End MockAnswers.

(** ** The public entry *)

Section PublicEntry.

Variable StringToNumber : string -> num.
Variable NumberToString : num -> string.

(** Every frame of a spec the sanitizer returned can be drawn. *)
Lemma sanitized_frames (ans r : value) (cos sin : Q -> Q) (PI : Q)
      (atan2 : num -> num -> num) (elapsed : num) :
  sanitizeAnswer StringToNumber NumberToString ans = Some r ->
  exists calls,
    frame StringToNumber NumberToString cos sin PI atan2 (visualization r) elapsed
    = Some calls.
Proof.
  intros Er.
  destruct (sanitized_layers_drawable _ _ _ _ Er)
    as (id & D & fps & layers & -> & _ & _ & Hs).
  now apply frame_shaped.
Qed.

(** And the canvas accepts every call of the frame, when no animation of
    the radius starts or ends below zero. *)
Lemma sanitized_frames_accepted (ans r : value) (cos sin : Q -> Q) (PI : Q)
      (atan2 : num -> num -> num) (elapsed : num) :
  sanitizeAnswer StringToNumber NumberToString ans = Some r ->
  spec_radius_safe (visualization r) = true ->
  exists calls,
    frame StringToNumber NumberToString cos sin PI atan2 (visualization r) elapsed
    = Some calls
    /\ forallb accepted calls = true.
Proof.
  intros Er.
  destruct (sanitized_layers_drawable _ _ _ _ Er)
    as (id & D & fps & layers & -> & _ & _ & Hs).
  intros Hr. now apply frame_accepted.
Qed.

(** What [callLLMService] resolves with on a string: an answer the
    sanitizer returned, the mock answer unless the model gave one. *)
Lemma callLLMService_string (LLM_MODE : value) (data : option value) (q : string) :
  exists r r0,
    callLLMService StringToNumber NumberToString LLM_MODE data (VStr q) = Some r
    /\ sanitizeAnswer StringToNumber NumberToString r0 = Some r
    /\ (mockAnswer NumberToString (VStr q) = Some r
        \/ (str_eq (js_or LLM_MODE (VStr "mock")) "ollama" = true
            /\ askOllama NumberToString data (VStr q) = Some r0))
    /\ (str_eq (js_or LLM_MODE (VStr "mock")) "ollama" = false ->
        mockAnswer NumberToString (VStr q) = Some r).
Proof.
  destruct (mock_sanitized StringToNumber NumberToString q) as (m & Em & Sm).
  unfold callLLMService. rewrite Em. cbn [bind]. rewrite Sm.
  destruct (str_eq (js_or LLM_MODE (VStr "mock")) "ollama") eqn:Mode.
  - destruct (askOllama NumberToString data (VStr q)) as [res|] eqn:Ea; cbn [bind].
    + destruct (sanitizeAnswer StringToNumber NumberToString res) as [r|] eqn:Er.
      * exists r, res. repeat split; auto; discriminate.
      * exists m, m. repeat split; auto; discriminate.
    + exists m, m. repeat split; auto; discriminate.
  - exists m, m. repeat split; auto.
Qed.

(** X11.  For a question that is a string [callLLMService] always resolves, in
    every mode and whatever the model server answers or fails to answer:
    with the sanitized answer of the model in mode ollama when the model
    gave one, and with the mock answer otherwise.  When no animation of a
    radius in the visualization it resolves with starts or ends below zero,
    as in every mock answer, each frame is drawn, at every time, by calls
    the canvas accepts.  (The sanitizer does not clamp [from] and [to]: with
    a negative radius [arc] throws, see [negative_radius_is_drawn].) *)
Theorem callLLMService_answers_strings (LLM_MODE : value) (data : option value)
        (q : string) :
  exists r,
    callLLMService StringToNumber NumberToString LLM_MODE data (VStr q) = Some r
    /\ (mockAnswer NumberToString (VStr q) = Some r
        \/ (str_eq (js_or LLM_MODE (VStr "mock")) "ollama" = true
            /\ exists res,
                askOllama NumberToString data (VStr q) = Some res
                /\ sanitizeAnswer StringToNumber NumberToString res = Some r))
    /\ (str_eq (js_or LLM_MODE (VStr "mock")) "ollama" = false ->
        mockAnswer NumberToString (VStr q) = Some r)
    /\ (mockAnswer NumberToString (VStr q) = Some r ->
        spec_radius_safe (visualization r) = true)
    /\ (spec_radius_safe (visualization r) = true ->
        forall cos sin PI atan2 elapsed,
        exists calls,
          frame StringToNumber NumberToString cos sin PI atan2
                (visualization r) elapsed = Some calls
          /\ forallb accepted calls = true).
Proof.
  destruct (callLLMService_string LLM_MODE data q) as (r & r0 & E & S & [M|[M A]] & F);
    exists r; (split; [exact E|]);
    (split; [|split; [exact F|split; [apply mock_radius_safe|]]]).
  - now left.
  - intros Hr **. now apply (sanitized_frames_accepted r0).
  - right. eauto.
  - intros Hr **. now apply (sanitized_frames_accepted r0).
Qed.

(** X12.  For a truthy question that is not a string the fallback throws too:
    [callLLMService] rejects in every mode but ollama, and in mode ollama
    resolves only if the model answers. *)
Theorem callLLMService_rejects_other_questions (LLM_MODE : value) (data : option value)
        (question : value) :
  is_string question = false ->
  truthy question = true ->
  callLLMService StringToNumber NumberToString LLM_MODE data question
  = if str_eq (js_or LLM_MODE (VStr "mock")) "ollama"
    then res <- askOllama NumberToString data question ;;
         sanitizeAnswer StringToNumber NumberToString res
    else None.
Proof.
  intros Hs Ht. unfold callLLMService.
  rewrite (mockAnswer_string_only NumberToString question Hs Ht). cbn [bind].
  destruct (str_eq (js_or LLM_MODE (VStr "mock")) "ollama"); [|reflexivity].
  destruct (askOllama NumberToString data question) as [res|]; [|reflexivity].
  cbn [bind]. destruct (sanitizeAnswer _ _ res); reflexivity.
Qed.

End PublicEntry.

(** * The server *)

Lemma lookup_set_field (k k' : string) (v : value) (fs : list (string * value)) :
  lookup k (JSON.set_field k' v fs) = if String.eqb k k' then v else lookup k fs.
Proof.
  induction fs as [|[k0 v0] fs IH]; cbn [JSON.set_field lookup].
  - destruct (String.eqb k k'); reflexivity.
  - destruct (String.eqb k' k0) eqn:E0; cbn [lookup].
    + apply String.eqb_eq in E0. subst k0.
      destruct (String.eqb k k'); reflexivity.
    + rewrite IH. destruct (String.eqb k k') eqn:E; [|reflexivity].
      apply String.eqb_eq in E. subst k. now rewrite E0.
Qed.

Lemma nth_error_assign_same (i : nat) (v : value) (qs : list value)
      (fs : list (string * value)) :
  nth_error qs i = Some (VObj fs) ->
  nth_error (Server.assign_answerId i v qs) i
  = Some (VObj (JSON.set_field "answerId" v fs)).
Proof.
  revert i. induction qs as [|q qs IH]; intros [|i]; cbn; try discriminate.
  - intros H. injection H as ->. reflexivity.
  - apply IH.
Qed.

Lemma nth_error_assign_other (i j : nat) (v : value) (qs : list value) :
  i <> j -> nth_error (Server.assign_answerId i v qs) j = nth_error qs j.
Proof.
  revert i j. induction qs as [|q qs IH]; intros [|i] [|j] H; cbn; try reflexivity.
  - contradiction.
  - destruct q; reflexivity.
  - apply IH. congruence.
Qed.

Lemma length_assign (i : nat) (v : value) (qs : list value) :
  List.length (Server.assign_answerId i v qs) = List.length qs.
Proof.
  revert i. induction qs as [|q qs IH]; intros [|i]; cbn; try reflexivity.
  - destruct q; reflexivity.
  - now rewrite IH.
Qed.

(** After the assignment a question is the one assigned to, or one that
    was there. *)
Lemma In_assign (i : nat) (v x : value) (qs : list value) :
  In x (Server.assign_answerId i v qs) ->
  (exists j, j <> i /\ nth_error qs j = Some x)
  \/ nth_error (Server.assign_answerId i v qs) i = Some x.
Proof.
  intros H. apply In_nth_error in H as [j Hj].
  destruct (Nat.eq_dec i j) as [->|N]; [now right|].
  left. exists j. split; [congruence|].
  now rewrite nth_error_assign_other in Hj.
Qed.

Lemma assign_keeps (i : nat) (v x : value) (qs : list value) :
  In x qs -> nth_error qs i <> Some x -> In x (Server.assign_answerId i v qs).
Proof.
  intros H N. apply In_nth_error in H as [j Hj].
  destruct (Nat.eq_dec i j) as [->|Nij]; [congruence|].
  apply nth_error_In with j. now rewrite nth_error_assign_other.
Qed.

Lemma NoDup_set_add (c : nat) (s : list nat) : NoDup s -> NoDup (Server.set_add c s).
Proof.
  intros H. unfold Server.set_add.
  destruct (existsb (Nat.eqb c) s) eqn:E; [exact H|].
  apply NoDup_app; [exact H|repeat constructor; intros []|].
  intros x Hx [->|[]].
  assert (existsb (Nat.eqb x) s = true); [|congruence].
  apply existsb_exists. exists x. split; [exact Hx|apply Nat.eqb_refl].
Qed.

Lemma NoDup_set_delete (c : nat) (s : list nat) :
  NoDup s -> NoDup (Server.set_delete c s).
Proof. apply NoDup_filter. Qed.

Lemma In_remove_nth {A : Type} (k : nat) (x : A) (xs : list A) :
  In x (Server.remove_nth k xs) -> In x xs.
Proof.
  revert k. induction xs as [|y xs IH]; intros [|k]; cbn; auto.
  intros [->|H]; [now left|right; eauto].
Qed.

Lemma NoDup_remove_nth {A B : Type} (f : A -> B) (k : nat) (xs : list A) :
  NoDup (map f xs) -> NoDup (map f (Server.remove_nth k xs)).
Proof.
  revert k. induction xs as [|y xs IH]; intros [|k]; cbn; auto.
  - intros H. now inversion H.
  - intros H. inversion H as [|? ? Hn Hd]. subst. constructor; [|auto].
    intros Hin. apply Hn. apply in_map_iff in Hin as (z & <- & Hz).
    apply in_map. eapply In_remove_nth, Hz.
Qed.

(** The handler removed from those that wait is not among the rest. *)
Lemma removed_differs {A B : Type} (f : A -> B) (k : nat) (xs : list A) (p x : A) :
  NoDup (map f xs) -> nth_error xs k = Some p ->
  In x (Server.remove_nth k xs) -> f x <> f p.
Proof.
  revert k. induction xs as [|y xs IH]; intros [|k]; cbn; try discriminate.
  - intros H E Hx. injection E as ->. inversion H as [|? ? Hn _]. subst.
    intros Heq. apply Hn. rewrite <- Heq. now apply in_map.
  - intros H E [->|Hx].
    + inversion H as [|? ? Hn _]. subst. intros Heq. apply Hn. rewrite Heq.
      apply in_map. eapply nth_error_In, E.
    + inversion H. subst. eauto.
Qed.

Section ServerProofs.

Variable StringToNumber : string -> num.
Variable NumberToString : num -> string.
Variable JSON_stringify : value -> string.
Variable LLM_MODE : value.

Lemma waits_for_questions (st st' : Server.state) (p : Server.pending) :
  Server.questions st' = Server.questions st -> waits_for st p -> waits_for st' p.
Proof. unfold waits_for. now intros ->. Qed.

Lemma consistent_clients (st st' : Server.state) :
  Server.questions st' = Server.questions st ->
  Server.answers st' = Server.answers st ->
  NoDup (Server.clients st') ->
  consistent st -> consistent st'.
Proof.
  unfold consistent. intros -> -> H (A & B & _). auto.
Qed.

(** The store stays consistent over every event. *)
Lemma react_ok (s : Server.server) (e : Server.event) :
  server_ok s ->
  server_ok (fst (fst (Server.react StringToNumber NumberToString JSON_stringify
                                    LLM_MODE s e))).
Proof.
  intros (C & Ids & W & N). destruct e as [res|res|req_body now|k data now| |id];
    cbn [Server.react]; try (split; [|split; [|split]]; assumption).
  - (* a stream opens *)
    cbn [Server.stream fst Server.store Server.waiting].
    split; [|split; [|split]]; try assumption.
    apply (consistent_clients (Server.store s)); [reflexivity|reflexivity| |exact C].
    apply NoDup_set_add. apply C.
  - (* a stream closes *)
    cbn [Server.stream_closed fst Server.store Server.waiting].
    split; [|split; [|split]]; try assumption.
    apply (consistent_clients (Server.store s)); [reflexivity|reflexivity| |exact C].
    apply NoDup_set_delete. apply C.
  - (* a question is posted *)
    unfold Server.post_question.
    destruct (negb (truthy (get (js_or req_body (VObj [])) "question")));
      cbn [fst Server.store Server.waiting];
      [split; [|split; [|split]]; assumption|].
    set (q := VObj [ ("id", _); ("userId", _); ("question", _); ("answerId", VNull) ]).
    destruct C as (A & B & Cl).
    split; [split; [|split]| split; [|split]];
      cbn [Server.store Server.waiting Server.questions Server.answers Server.clients].
    + intros a Ha. destruct (A a Ha) as (q' & Hq & Hab).
      exists q'. split; [apply in_or_app; now left|exact Hab].
    + intros x Hx. apply in_app_or in Hx as [Hx|[<-|[]]]; [now apply B|now left].
    + exact Cl.
    + exact Ids.
    + intros p Hp. apply in_app_or in Hp as [Hp|[<-|[]]].
      * destruct (W p Hp) as (fs & E & H1 & H2). exists fs.
        cbn [Server.store Server.questions]. split; [|now split].
        rewrite nth_error_app1; [exact E|].
        apply nth_error_Some. congruence.
      * eexists. cbn [Server.store Server.questions Server.qObj Server.questionId].
        split.
        { rewrite nth_error_app2 by reflexivity. rewrite Nat.sub_diag.
          subst q. reflexivity. }
        split; reflexivity.
    + rewrite map_app. cbn [map Server.qObj].
      apply NoDup_app; [exact N|repeat constructor; intros []|].
      intros i Hi [<-|[]].
      apply in_map_iff in Hi as (p & Ep & Hp).
      destruct (W p Hp) as (fs & E & _).
      assert (L : (Server.qObj p < List.length (Server.questions (Server.store s)))%nat).
      { apply nth_error_Some. congruence. }
      lia.
  - (* a waiting handler resumes *)
    destruct (nth_error (Server.waiting s) k) as [p|] eqn:Ek;
      [|split; [|split; [|split]]; assumption].
    assert (Rest : forall st',
               Server.questions st' = Server.questions (Server.store s) ->
               forall p', In p' (Server.remove_nth k (Server.waiting s)) ->
                          waits_for st' p').
    { intros st' E p' Hp'. eapply waits_for_questions; [exact E|].
      apply W. eapply In_remove_nth, Hp'. }
    assert (Failed : server_ok {| Server.store := Server.store s;
                                  Server.waiting := Server.remove_nth k (Server.waiting s) |}).
    { split; [|split; [|split]]; try assumption; cbn [Server.store Server.waiting].
      - now apply Rest.
      - now apply NoDup_remove_nth. }
    unfold Server.post_answer.
    destruct (callLLMService _ _ _ _ _) as [llm|]; [|exact Failed].
    destruct (getp llm "text") as [text|]; [|exact Failed].
    destruct (getp llm "visualization") as [vis|]; [|exact Failed].
    cbn [fst Server.store Server.waiting].
    pose proof (W p (nth_error_In _ _ Ek)) as (fs & Eq & Hid & Hnull).
    set (aid := ("a_" ++ Server.decimal now)%string).
    set (a := VObj [ ("id", VStr aid); ("questionId", _); ("text", text);
                     ("visualization", vis) ]).
    set (q := VObj (JSON.set_field "answerId" (VStr aid) fs)).
    assert (Hq : nth_error (Server.assign_answerId (Server.qObj p) (VStr aid)
                              (Server.questions (Server.store s))) (Server.qObj p)
                 = Some q) by now apply nth_error_assign_same.
    assert (Hqa : answered_by q a).
    { split; cbn [get lookup String.eqb Ascii.eqb Bool.eqb].
      - subst q. cbn [get]. now rewrite lookup_set_field.
      - subst q. cbn [get]. rewrite lookup_set_field. cbn [String.eqb Ascii.eqb Bool.eqb].
        now rewrite Hid. }
    destruct C as (A & B & Cl).
    split; [split; [|split]| split; [|split]];
      cbn [Server.store Server.waiting Server.questions Server.answers Server.clients].
    + intros a' Ha'. apply in_app_or in Ha' as [Ha'|[<-|[]]].
      * destruct (A a' Ha') as (q' & Hq' & Hab). exists q'. split; [|exact Hab].
        apply assign_keeps; [exact Hq'|]. rewrite Eq. intros E. injection E as <-.
        destruct Hab as [Hab _]. cbn [get] in Hab. rewrite Hnull in Hab.
        specialize (Ids a' Ha'). rewrite <- Hab in Ids. discriminate.
      * exists q. split; [eapply nth_error_In, Hq|exact Hqa].
    + intros x Hx. apply In_assign in Hx as [(j & _ & Hj)|Hx].
      * destruct (B x (nth_error_In _ _ Hj)) as [Hn|(a' & Ha' & Hab)]; [now left|].
        right. exists a'. split; [apply in_or_app; now left|exact Hab].
      * rewrite Hq in Hx. injection Hx as <-. right. exists a.
        split; [apply in_or_app; right; now left|exact Hqa].
    + exact Cl.
    + intros a' Ha'. apply in_app_or in Ha' as [Ha'|[<-|[]]]; [now apply Ids|reflexivity].
    + intros p' Hp'.
      destruct (W p' (In_remove_nth _ _ _ Hp')) as (fs' & E' & H1 & H2).
      exists fs'. cbn [Server.store Server.questions]. split; [|now split].
      rewrite nth_error_assign_other; [exact E'|].
      intros E. symmetry in E. revert E.
      now apply (removed_differs Server.qObj k (Server.waiting s) p p').
    + now apply NoDup_remove_nth.
Qed.

Lemma run_ok (es : list Server.event) :
  forall s, server_ok s ->
            server_ok (Server.run StringToNumber NumberToString JSON_stringify
                                  LLM_MODE s es).
Proof.
  induction es as [|e es IH]; intros s H; [exact H|].
  cbn [Server.run fold_left]. apply IH. now apply react_ok.
Qed.

Lemma started_ok : server_ok Server.started.
Proof.
  split; [split; [|split]|split; [|split]]; cbn; try (intros ? []); constructor.
Qed.

(** X13.  Whatever requests arrive and in whatever order the waiting handlers
    resume, the store of the server stays consistent: every answer belongs
    to a recorded question that points to it, every question is unanswered
    or points to a recorded answer of its own, and no connection of the
    event stream is registered twice. *)
Theorem server_store_consistent (es : list Server.event) :
  consistent (Server.store (Server.run StringToNumber NumberToString JSON_stringify
                                       LLM_MODE Server.started es)).
Proof. apply run_ok, started_ok. Qed.

End ServerProofs.

Section ServerTheorems.

Variable StringToNumber : string -> num.
Variable NumberToString : num -> string.
Variable JSON_stringify : value -> string.
Variable LLM_MODE : value.

Lemma find_app {A : Type} (f : A -> bool) (l l' : list A) :
  find f (l ++ l') = match find f l with Some x => Some x | None => find f l' end.
Proof.
  induction l as [|x l IH]; cbn [app find]; [reflexivity|].
  destruct (f x); [reflexivity|exact IH].
Qed.

Lemma find_none_forallb {A : Type} (f : A -> bool) (l : list A) :
  forallb (fun x => negb (f x)) l = true -> find f l = None.
Proof.
  induction l as [|x l IH]; cbn [forallb find]; [reflexivity|].
  intros H. apply andb_prop in H as [H1 H2]. apply negb_true_iff in H1.
  rewrite H1. auto.
Qed.

Lemma find_new (x : string) (fs : list (string * value)) :
  find (fun a => str_eq (get a "id") x) [VObj (("id", VStr x) :: fs)]
  = Some (VObj (("id", VStr x) :: fs)).
Proof.
  cbn [find]. unfold get, lookup, str_eq.
  change ("id" =? "id")%string with true. cbv iota.
  now rewrite String.eqb_refl.
Qed.

(** X14.  An answer that was created can be fetched: after the handler answered
    with status 200 and an [answerId], [GET /api/answers/<answerId>] finds
    an answer with that id.  It is the answer just created, with the text
    and the visualization [callLLMService] resolved with, unless an earlier
    answer has the same id (two answers created in the same millisecond),
    in which case the earlier one is returned. *)
Theorem answer_can_be_fetched (st st' : Server.state) (p : Server.pending)
        (data : option value) (now : N) (out : list Server.output)
        (r : Server.response) :
  Server.post_answer StringToNumber NumberToString JSON_stringify LLM_MODE
                     st p data now = (st', out, r) ->
  Server.status r = 200%nat ->
  let answerId := ("a_" ++ Server.decimal now)%string in
  Server.body r = VObj [ ("questionId", VStr (Server.questionId p));
                         ("answerId", VStr answerId) ]
  /\ exists a,
      Server.get_answer st' answerId = {| Server.status := 200; Server.body := a |}
      /\ get a "id" = VStr answerId
      /\ (forallb (fun a' => negb (str_eq (get a' "id") answerId)) (Server.answers st)
          = true ->
          exists llm,
            callLLMService StringToNumber NumberToString LLM_MODE data
                           (Server.question p) = Some llm
            /\ a = VObj [ ("id", VStr answerId);
                          ("questionId", VStr (Server.questionId p));
                          ("text", get llm "text");
                          ("visualization", get llm "visualization") ]).
Proof.
  unfold Server.post_answer.
  destruct (callLLMService _ _ _ _ _) as [llm|];
    [|intros H; injection H as _ _ <-; discriminate].
  destruct (getp llm "text") as [text|] eqn:Et;
    [|intros H; injection H as _ _ <-; discriminate].
  destruct (getp llm "visualization") as [vis|] eqn:Ev;
    [|intros H; injection H as _ _ <-; discriminate].
  intros H _. injection H as <- _ <-.
  cbn [Server.body]. split; [reflexivity|].
  unfold Server.get_answer. cbn [Server.answers]. rewrite find_app.
  set (aid := ("a_" ++ Server.decimal now)%string).
  destruct (find (fun a => str_eq (get a "id") aid) (Server.answers st)) as [a0|] eqn:F.
  - exists a0. split; [reflexivity|].
    pose proof F as F0. apply find_some in F as [_ F].
    split.
    + destruct (get a0 "id"); try discriminate F. cbn [str_eq] in F.
      apply String.eqb_eq in F. now subst.
    + intros Hn. apply find_none_forallb in Hn. congruence.
  - rewrite find_new. eexists. split; [reflexivity|].
    split; [reflexivity|]. intros _. exists llm. split; [reflexivity|].
    assert (T : text = get llm "text").
    { unfold getp in Et. destruct llm; try discriminate Et; now injection Et as <-. }
    assert (V : vis = get llm "visualization").
    { unfold getp in Ev. destruct llm; try discriminate Ev; now injection Ev as <-. }
    now rewrite T, V.
Qed.

(** X15.  A question that is a non-empty string is always answered: the
    handler accepts it, records it and announces it, and when it resumes,
    in whatever state of the store, it answers with status 200, records the
    answer with the text and the visualization [callLLMService] resolved
    with, and announces it.  When no animation of a radius in that
    visualization starts or ends below zero, as is the case in every mode
    but ollama, each of its frames is drawn, at every time, by calls the
    canvas accepts. *)
Theorem string_question_is_answered (st : Server.state) (req_body : value)
        (q : string) (now : N) :
  get (js_or req_body (VObj [])) "question" = VStr q ->
  q <> EmptyString ->
  exists p qobj,
    Server.post_question JSON_stringify st req_body now
    = ({| Server.questions := Server.questions st ++ [qobj];
          Server.answers := Server.answers st;
          Server.clients := Server.clients st |},
       Server.broadcast JSON_stringify st "question_created" qobj,
       inr p)
    /\ get qobj "question" = VStr q /\ get qobj "answerId" = VNull
    /\ get qobj "id" = VStr (Server.questionId p)
    /\ forall st1 data now1,
        exists llm a,
          callLLMService StringToNumber NumberToString LLM_MODE data (VStr q) = Some llm
          /\ a = VObj [ ("id", VStr ("a_" ++ Server.decimal now1));
                        ("questionId", VStr (Server.questionId p));
                        ("text", get llm "text");
                        ("visualization", visualization llm) ]
          /\ Server.post_answer StringToNumber NumberToString JSON_stringify LLM_MODE
                                st1 p data now1
             = ({| Server.questions :=
                     Server.assign_answerId (Server.qObj p)
                       (VStr ("a_" ++ Server.decimal now1)) (Server.questions st1);
                   Server.answers := Server.answers st1 ++ [a];
                   Server.clients := Server.clients st1 |},
                Server.broadcast JSON_stringify st1 "answer_created" a,
                {| Server.status := 200;
                   Server.body := VObj [ ("questionId", VStr (Server.questionId p));
                                         ("answerId",
                                          VStr ("a_" ++ Server.decimal now1)) ] |})
          /\ (str_eq (js_or LLM_MODE (VStr "mock")) "ollama" = false ->
              spec_radius_safe (visualization llm) = true)
          /\ (spec_radius_safe (visualization llm) = true ->
              forall cos sin PI atan2 elapsed,
              exists calls,
                frame StringToNumber NumberToString cos sin PI atan2
                      (visualization llm) elapsed = Some calls
                /\ forallb accepted calls = true).
Proof.
  intros Eq Hq. unfold Server.post_question. rewrite Eq.
  assert (T : truthy (VStr q) = true).
  { cbn. destruct q; [contradiction|reflexivity]. }
  rewrite T. cbn [negb].
  do 2 eexists. split; [reflexivity|].
  cbn [get lookup String.eqb Ascii.eqb Bool.eqb Server.questionId].
  repeat split.
  intros st1 data now1.
  destruct (callLLMService_string StringToNumber NumberToString LLM_MODE data q)
    as (llm & r0 & E & S & _ & F).
  exists llm. eexists. split; [exact E|]. split; [reflexivity|].
  split; [|split].
  - unfold Server.post_answer. cbn [Server.question]. rewrite E.
    destruct (sanitizeAnswer_shape _ _ _ _ S) as (text & id & D & fps & rs & -> & _).
    reflexivity.
  - intros Hm. exact (mock_radius_safe NumberToString q llm (F Hm)).
  - intros Hr **. now apply (sanitized_frames_accepted _ _ r0).
Qed.

(** X16.  A truthy question that is not a string (a number, [true], an array,
    an object) is accepted, recorded and announced like any other, but in
    every mode except ollama the handler then answers with status 500 and
    leaves the store as it is: the question stays recorded without an
    answer. *)
Theorem other_question_is_never_answered (st : Server.state) (req_body question : value)
        (now : N) :
  get (js_or req_body (VObj [])) "question" = question ->
  is_string question = false ->
  truthy question = true ->
  str_eq (js_or LLM_MODE (VStr "mock")) "ollama" = false ->
  exists p qobj,
    Server.post_question JSON_stringify st req_body now
    = ({| Server.questions := Server.questions st ++ [qobj];
          Server.answers := Server.answers st;
          Server.clients := Server.clients st |},
       Server.broadcast JSON_stringify st "question_created" qobj,
       inr p)
    /\ get qobj "question" = question /\ get qobj "answerId" = VNull
    /\ forall st1 data now1,
        Server.post_answer StringToNumber NumberToString JSON_stringify LLM_MODE
                           st1 p data now1
        = (st1, [], {| Server.status := 500;
                       Server.body := VObj [ ("error", VStr "LLM failed") ] |}).
Proof.
  intros Eq Hs Ht Hm. unfold Server.post_question. rewrite Eq, Ht. cbn [negb].
  do 2 eexists. split; [reflexivity|].
  cbn [get lookup String.eqb Ascii.eqb Bool.eqb].
  repeat split.
  intros st1 data now1. unfold Server.post_answer, callLLMService.
  cbn [Server.question].
  rewrite (mockAnswer_string_only NumberToString question Hs Ht), Hm.
  reflexivity.
Qed.

Lemma written_to_app (res : nat) (o1 o2 : list Server.output) :
  written_to res (o1 ++ o2) = (written_to res o1 ++ written_to res o2)%list.
Proof. unfold written_to. apply flat_map_app. Qed.

Lemma broadcast_to (cl : list nat) (res : nat) (a b : string) :
  NoDup cl ->
  written_to res (flat_map (fun c => [Server.write c a; Server.write c b]) cl)
  = if existsb (Nat.eqb res) cl then [a; b] else [].
Proof.
  induction cl as [|c cl IH]; intros H; [reflexivity|].
  inversion H as [|? ? Hn Hd]. subst. cbn [flat_map existsb].
  rewrite written_to_app, (IH Hd). cbn [written_to flat_map app].
  rewrite (Nat.eqb_sym res c).
  destruct (Nat.eqb c res) eqn:E; cbn [orb app]; [|reflexivity].
  apply Nat.eqb_eq in E. subst c.
  destruct (existsb (Nat.eqb res) cl) eqn:X; [|reflexivity].
  apply existsb_exists in X as (x & Hx & Ex). apply Nat.eqb_eq in Ex. subst x.
  contradiction.
Qed.

(** X17.  Every announcement reaches every connection of the event stream that
    is open, once: whatever happened before, [broadcast] writes on each
    registered connection the event line and then the data line, and
    nothing on any other. *)
Theorem broadcast_reaches_each_once (es : list Server.event) (event : string)
        (data : value) (res : nat) :
  let st := Server.store (Server.run StringToNumber NumberToString JSON_stringify
                                     LLM_MODE Server.started es) in
  written_to res (Server.broadcast JSON_stringify st event data)
  = if existsb (Nat.eqb res) (Server.clients st)
    then [ ("event: " ++ event ++ LF)%string;
           ("data: " ++ JSON_stringify data ++ LF ++ LF)%string ]
    else [].
Proof.
  intros st. unfold Server.broadcast. apply broadcast_to.
  apply (run_ok StringToNumber NumberToString JSON_stringify LLM_MODE es
                Server.started started_ok).
Qed.

End ServerTheorems.

(** * The client *)

Section ClientProofs.

Variable StringToNumber : string -> num.
Variable NumberToString : num -> string.

Lemma mapM_nth {A B : Type} (f : A -> option B) (xs : list A) (ys : list B) :
  mapM f xs = Some ys ->
  forall i x, nth_error xs i = Some x ->
              exists y, nth_error ys i = Some y /\ f x = Some y.
Proof.
  revert ys. induction xs as [|x0 xs IH]; cbn [mapM]; intros ys E i x Hi.
  - destruct i; discriminate.
  - destruct (f x0) as [y0|] eqn:E0; [|discriminate]. cbn [bind] in E.
    destruct (mapM f xs) as [ys'|]; [|discriminate]. cbn [bind] in E.
    injection E as <-. destruct i as [|i]; cbn in *.
    + injection Hi as <-. eauto.
    + eapply IH; eauto.
Qed.

Lemma mapM_length {A B : Type} (f : A -> option B) (xs : list A) (ys : list B) :
  mapM f xs = Some ys -> List.length ys = List.length xs.
Proof.
  revert ys. induction xs as [|x0 xs IH]; cbn [mapM]; intros ys E.
  - now injection E as <-.
  - destruct (f x0) as [y0|]; [|discriminate]. cbn [bind] in E.
    destruct (mapM f xs) as [ys'|]; [|discriminate]. cbn [bind] in E.
    injection E as <-. cbn. now rewrite (IH _ eq_refl).
Qed.

(** X18.  An answer that arrives is paired with its question: the listener of
    [answer_created] keeps the number and the order of the questions,
    leaves every question with another id as it is, and gives every
    question with the id [a.questionId] the id of the answer, under which
    the chat then finds the answer itself.  It shows the visualization of
    the answer and starts playing. *)
Theorem answer_is_paired (a : value) (st st' : Client.state) (aid : string) :
  Client.answer_created NumberToString a st = Some st' ->
  get a "id" = VStr aid ->
  aid <> EmptyString ->
  List.length (Client.questions st') = List.length (Client.questions st)
  /\ (forall i q,
         nth_error (Client.questions st) i = Some q ->
         exists q',
           nth_error (Client.questions st') i = Some q'
           /\ if Client.strict_eq (get q "id") (get a "questionId")
              then get q' "answerId" = VStr aid
                   /\ Client.shown_answer NumberToString st' q' = Some a
              else q' = q)
  /\ Client.currentVis st' = js_or (get a "visualization") VNull
  /\ Client.isPlaying st' = true.
Proof.
  unfold Client.answer_created. intros H Ha Hne.
  destruct (getp a "id") as [aid'|] eqn:Eid; [|discriminate H].
  assert (aid' = VStr aid).
  { unfold getp in Eid. destruct a; try discriminate Eid; injection Eid as <-;
      exact Ha. }
  subst aid'. cbn [bind ToString] in H.
  destruct (mapM _ _) as [qs|] eqn:Eqs; [|discriminate H]. cbn [bind] in H.
  destruct (getp a "visualization") as [vis|] eqn:Ev; [|discriminate H].
  cbn [bind] in H. injection H as <-.
  cbn [Client.questions Client.currentVis Client.isPlaying].
  split; [eapply mapM_length, Eqs|]. split; [|split; [|reflexivity]].
  - intros i q Hi. destruct (mapM_nth _ _ _ Eqs i q Hi) as (q' & Hq' & Ep).
    exists q'. split; [exact Hq'|].
    unfold Client.pair_answer in Ep.
    destruct (getp q "id") as [qid|] eqn:Eq; [|discriminate Ep]. cbn [bind] in Ep.
    destruct (getp a "questionId") as [aq|] eqn:Eaq; [|discriminate Ep].
    cbn [bind] in Ep.
    assert (qid = get q "id").
    { unfold getp in Eq. destruct q; try discriminate Eq; now injection Eq as <-. }
    assert (aq = get a "questionId").
    { unfold getp in Eaq. destruct a; try discriminate Eaq; now injection Eaq as <-. }
    subst qid aq.
    destruct (Client.strict_eq (get q "id") (get a "questionId")).
    + rewrite Eid in Ep. cbn [bind] in Ep. injection Ep as <-.
      assert (G : get (VObj (JSON.set_field "answerId" (VStr aid) (Client.spread q)))
                      "answerId" = VStr aid).
      { cbn [get]. rewrite lookup_set_field. now rewrite String.eqb_refl. }
      split; [exact G|].
      unfold Client.shown_answer. cbn [getp bind]. rewrite G.
      assert (T : truthy (VStr aid) = true).
      { cbn. destruct aid; [contradiction|reflexivity]. }
      rewrite T. cbn [ToString bind Client.answers].
      rewrite lookup_set_field. now rewrite String.eqb_refl.
    + now injection Ep as <-.
  - unfold getp in Ev. destruct a; try discriminate Ev; now injection Ev as <-.
Qed.

End ClientProofs.

Section ClientTheorems.

Variable StringToNumber : string -> num.
Variable NumberToString : num -> string.
Variable JSON_stringify : value -> string.
Variable cos sin : Q -> Q.
Variable PI : Q.
Variable atan2 : num -> num -> num.

(** X19.  The client never sends a blank question: [sendQuestion] sends nothing
    when the input is empty or white space only, and otherwise a body with
    the trimmed input as its question, which the server accepts, records
    under the user u1 and announces, in whatever state it is (the status
    400 is never the answer to this client).  White space is what
    [String.prototype.trim] removes, the no-break space and the other
    Unicode spaces included, see [trim] and [no_break_space_is_not_sent]. *)
Theorem sent_question_is_accepted (st : Client.state) :
  match Client.sendQuestion st with
  | None => trim (Client.input st) = EmptyString
  | Some req_body =>
      req_body = VObj [ ("userId", VStr "u1");
                        ("question", VStr (trim (Client.input st))) ]
      /\ trim (Client.input st) <> EmptyString
      /\ forall sst now,
          exists p qobj,
            Server.post_question JSON_stringify sst req_body now
            = ({| Server.questions := Server.questions sst ++ [qobj];
                  Server.answers := Server.answers sst;
                  Server.clients := Server.clients sst |},
               Server.broadcast JSON_stringify sst "question_created" qobj,
               inr p)
            /\ get qobj "question" = VStr (trim (Client.input st))
            /\ get qobj "userId" = VStr "u1"
  end.
Proof.
  unfold Client.sendQuestion.
  destruct (trim (Client.input st)) as [|c s] eqn:E; cbn [truthy String.eqb negb].
  - reflexivity.
  - split; [reflexivity|]. split; [discriminate|].
    intros sst now. do 2 eexists. split; [reflexivity|]. split; reflexivity.
Qed.

(** *** The animation loop *)

Lemma frame_past_shaped (id : value) (D fps : Q) (layers : list value) (e : num) :
  1000 <= D -> n_le (Fin D) e = true ->
  frame StringToNumber NumberToString cos sin PI atan2
        (obj_spec id (Fin D) (Fin fps) layers) e
  = frame StringToNumber NumberToString cos sin PI atan2
          (obj_spec id (Fin D) (Fin fps) layers) (Fin D).
Proof.
  intros HD H. unfold frame, evaluate, spec_dur.
  cbn [obj_spec getp get lookup String.eqb Ascii.eqb Bool.eqb bind].
  rewrite js_or_number by lra. cbn [ToNumber bind].
  now rewrite (Math_min_past D e H).
Qed.

(** One call of [draw] on a spec of the layout the sanitizer writes. *)
Lemma draw_shaped (id : value) (D fps : Q) (layers : list value) (playing : bool)
      (startTime now : num) :
  1000 <= D ->
  let spec := obj_spec id (Fin D) (Fin fps) layers in
  let start := if negb (truthy (VNum startTime)) then now else startTime in
  draw StringToNumber NumberToString cos sin PI atan2 spec playing startTime now
  = (calls <- frame StringToNumber NumberToString cos sin PI atan2 spec
                    (n_sub now start) ;;
     Some (start, calls,
           n_lt (Math_min (n_sub now start) (Fin D)) (Fin D) && playing)).
Proof.
  intros HD spec start. unfold draw, spec_dur. subst spec.
  cbn [obj_spec getp get lookup String.eqb Ascii.eqb Bool.eqb bind].
  rewrite js_or_number by lra. cbn [ToNumber bind]. fold start.
  destruct (frame _ _ _ _ _ _ _ _); reflexivity.
Qed.

Lemma n_lt_fin (x y : Q) : n_lt (Fin x) (Fin y) = negb (Qle_bool y x).
Proof. reflexivity. Qed.

Lemma n_le_fin (x y : Q) : n_le (Fin x) (Fin y) = Qle_bool x y.
Proof. reflexivity. Qed.

Lemma fin_zero (x : Q) : x == 0 -> fin x = Fin 0.
Proof. intros H. unfold fin. now rewrite (Qred_complete _ _ H). Qed.

(** The frames of the loop from a start time on: one per time stamp
    before the duration has elapsed, then the frame of the duration, then
    nothing. *)
Lemma loop_shaped (id : value) (D fps : Q) (layers : list value) (t0 : Q)
      (last : Q) (rest : list Q) :
  1000 <= D -> ~ t0 == 0 -> forallb drawable layers = true ->
  D <= last - t0 ->
  let spec := obj_spec id (Fin D) (Fin fps) layers in
  forall pre,
    Forall (fun x => x - t0 < D) pre ->
    exists frames final,
      Client.loop StringToNumber NumberToString cos sin PI atan2 spec true (Fin t0)
                  (map Fin (pre ++ last :: rest)%list)
      = Some (frames ++ [final])%list
      /\ Forall2 (fun x f => frame StringToNumber NumberToString cos sin PI atan2
                                   spec (fin (x - t0)) = Some f) pre frames
      /\ frame StringToNumber NumberToString cos sin PI atan2 spec (Fin D)
         = Some final.
Proof.
  intros HD Ht Hl Hlast spec. subst spec.
  assert (St : (if negb (truthy (VNum (Fin t0))) then Fin last else Fin t0) = Fin t0).
  { cbn. destruct (Qeq_bool t0 0) eqn:E; [|reflexivity].
    apply Qeq_bool_iff in E. contradiction. }
  assert (St' : forall x, (if negb (truthy (VNum (Fin t0))) then Fin x else Fin t0)
                          = Fin t0).
  { intros x. cbn. destruct (Qeq_bool t0 0) eqn:E; [|reflexivity].
    apply Qeq_bool_iff in E. contradiction. }
  induction pre as [|x pre IH]; intros Hpre.
  - destruct (frame_shaped StringToNumber NumberToString cos sin PI atan2
                           id D fps layers (Fin D) Hl) as [final Ef].
    exists [], final. cbn [app map Client.loop].
    rewrite draw_shaped by assumption. cbv zeta. rewrite (St' last).
    change (n_sub (Fin last) (Fin t0)) with (Fin (Qred (last - t0))).
    assert (P : n_le (Fin D) (Fin (Qred (last - t0))) = true).
    { rewrite n_le_fin. qbool. now rewrite Qred_correct. }
    rewrite (frame_past_shaped id D fps layers _ HD P), Ef. cbn [bind].
    rewrite (Math_min_past D _ P).
    assert (N : n_lt (Math_min (Fin D) (Fin D)) (Fin D) = false).
    { rewrite Math_min_fin. unfold fin. rewrite n_lt_fin.
      replace (Qle_bool D (Qred (Qmin D D))) with true; [reflexivity|].
      symmetry. qbool. rewrite Qred_correct, Q.min_id. lra. }
    rewrite N. cbn [andb]. split; [reflexivity|]. split; [apply Forall2_nil|reflexivity].
  - inversion Hpre as [|? ? Hx Hpre']. subst.
    destruct (IH Hpre') as (frames & final & El & Hf & Ef).
    destruct (frame_shaped StringToNumber NumberToString cos sin PI atan2
                           id D fps layers (fin (x - t0)) Hl) as [f Efx].
    exists (f :: frames), final. cbn [app map Client.loop].
    rewrite draw_shaped by assumption. cbv zeta. rewrite (St' x).
    change (n_sub (Fin x) (Fin t0)) with (fin (x - t0)).
    rewrite Efx. cbn [bind].
    assert (A : n_lt (Math_min (fin (x - t0)) (Fin D)) (Fin D) = true).
    { unfold fin at 1. rewrite Math_min_fin. unfold fin. rewrite n_lt_fin.
      replace (Qle_bool D (Qred (Qmin (Qred (x - t0)) D))) with false; [reflexivity|].
      symmetry. apply not_true_iff_false. intros C. qbool.
      rewrite Qred_correct in C.
      assert (M : Qmin (Qred (x - t0)) D == Qred (x - t0)).
      { apply Q.min_l. rewrite Qred_correct. lra. }
      rewrite M, Qred_correct in C. lra. }
    rewrite A. cbn [andb]. rewrite El. cbn [bind].
    split; [reflexivity|]. split; [now apply Forall2_cons|exact Ef].
Qed.

(** X20.  The animation of a sanitized spec in which no animation of a
    radius starts or ends below zero plays once and stops.  From the first
    time stamp [t0] on the canvas shows the frame of the time elapsed since
    [t0], starting with the frame of time 0; the first frame at or past the
    duration is the frame of the duration, and it is the last one: no later
    time stamp is drawn.  Every call of every frame is one the canvas
    accepts, so that no frame ends the loop early.  Without a spec, or when
    paused, nothing is drawn. *)
Theorem animation_plays_once (ans r : value) (D t0 last : Q) (pre rest : list Q) :
  sanitizeAnswer StringToNumber NumberToString ans = Some r ->
  get (visualization r) "duration" = VNum (Fin D) ->
  spec_radius_safe (visualization r) = true ->
  ~ t0 == 0 ->
  Forall (fun x => x - t0 < D) pre ->
  D <= last - t0 ->
  let spec := visualization r in
  let shows e f :=
    frame StringToNumber NumberToString cos sin PI atan2 spec e = Some f
    /\ forallb accepted f = true in
  let animation := Client.animation StringToNumber NumberToString cos sin PI atan2 in
  (exists first frames final,
      animation spec true (map Fin (t0 :: pre ++ last :: rest)%list)
      = Some (first :: frames ++ [final])%list
      /\ shows (Fin 0) first
      /\ Forall2 (fun x f => shows (fin (x - t0)) f) pre frames
      /\ shows (Fin D) final)
  /\ animation spec false (map Fin (t0 :: pre ++ last :: rest)%list) = Some []
  /\ animation VNull true (map Fin (t0 :: pre ++ last :: rest)%list) = Some [].
Proof.
  intros Er ED Hrs Ht Hpre Hlast.
  destruct (sanitized_layers_drawable _ _ _ _ Er)
    as (id & D' & fps & layers & Ev & HD1 & HD2 & Hl).
  rewrite Ev in *.
  cbn [obj_spec get lookup String.eqb Ascii.eqb Bool.eqb] in ED.
  injection ED as ->. cbv zeta.
  assert (Hr : forallb radius_safe layers = true) by exact Hrs.
  pose proof (fun e f => frame_is_accepted StringToNumber NumberToString cos sin PI
                           atan2 id D fps layers e f Hl Hr) as Acc.
  split; [|split; reflexivity].
  destruct (loop_shaped id D fps layers t0 last rest HD1 Ht Hl Hlast pre Hpre)
    as (frames & final & El & Hf & Ef).
  destruct (frame_shaped StringToNumber NumberToString cos sin PI atan2
                         id D fps layers (Fin 0) Hl) as [first E0].
  exists first, frames, final.
  split; [|split; [split; [exact E0|exact (Acc _ _ E0)]
                  |split; [|split; [exact Ef|exact (Acc _ _ Ef)]]]].
  2:{ clear El. induction Hf as [|x f pre' frames' Hx Hf IH]; constructor.
      - split; [exact Hx|exact (Acc _ _ Hx)].
      - apply IH. now inversion Hpre. }
  unfold Client.animation. cbn [truthy obj_spec negb orb map Client.loop].
  rewrite draw_shaped by assumption. cbv zeta.
  cbn [truthy is_zero is_nan orb negb].
  change (Qeq_bool 0 0) with true. cbn [orb negb].
  change (n_sub (Fin t0) (Fin t0)) with (fin (t0 - t0)).
  rewrite (fin_zero (t0 - t0)) by ring.
  fold (obj_spec id (Fin D) (Fin fps) layers). rewrite E0. cbn [bind].
  assert (A : n_lt (Math_min (Fin 0) (Fin D)) (Fin D) = true).
  { rewrite Math_min_fin. unfold fin. rewrite n_lt_fin.
    replace (Qle_bool D (Qred (Qmin 0 D))) with false; [reflexivity|].
    symmetry. apply not_true_iff_false. intros C. qbool.
    rewrite Qred_correct, Q.min_l in C; lra. }
  rewrite A. cbn [andb].
  rewrite El. reflexivity.
Qed.

End ClientTheorems.

(** * Two more properties of the sanitizer and the evaluator *)

Section TextAndMotion.

Variable StringToNumber : string -> num.
Variable NumberToString : num -> string.
Variable cos sin : Q -> Q.
Variable PI : Q.

(** X21.  The text of every answer is a string that is not empty and has no
    white space at either end: it is the text of the input, trimmed, when
    that is a string with more than white space in it, and the stock
    sentence otherwise, that is when the input has no string as its text or
    one of white space only.  (White space is what [String.prototype.trim]
    removes, see [trim].) *)
Theorem sanitized_text (ans r : value) :
  sanitizeAnswer StringToNumber NumberToString ans = Some r ->
  exists t,
    get r "text" = VStr t /\ t <> EmptyString /\ trim t = t
    /\ ((exists s, get ans "text" = VStr s /\ trim s <> EmptyString /\ t = trim s)
        \/ ((forall s, get ans "text" = VStr s -> trim s = EmptyString)
            /\ t = fallback_text)).
Proof.
  unfold sanitizeAnswer.
  destruct (sanitize_text ans) as [text|] eqn:Et; [|discriminate].
  cbn [bind]. intros H.
  assert (G : get r "text" = text).
  { repeat match type of H with
           | bind ?m _ = Some _ =>
               let x := fresh "x" in destruct m as [x|]; [|discriminate H];
               cbn [bind] in H
           end.
    injection H as <-. reflexivity. }
  rewrite G. clear H G. unfold sanitize_text in Et.
  destruct (is_string (get ans "text")) eqn:E.
  - destruct ans; try discriminate E. cbn [getp bind] in Et.
    destruct (get (VObj fields) "text") as [| | | |s| |] eqn:Gs; try discriminate E.
    cbn [call_trim bind] in Et.
    destruct (truthy (VStr (trim s))) eqn:T.
    + cbn [call_trim bind] in Et. injection Et as <-.
      assert (N : trim s <> EmptyString).
      { intros C. rewrite C in T. discriminate T. }
      exists (trim s). split; [reflexivity|]. split; [exact N|].
      split; [apply trim_idem|left; eauto].
    + injection Et as <-. exists fallback_text.
      split; [reflexivity|]. split; [discriminate|]. split; [reflexivity|].
      right. split; [|reflexivity].
      intros s' [= <-]. destruct (trim s); [reflexivity|discriminate T].
  - injection Et as <-. exists fallback_text.
    split; [reflexivity|]. split; [discriminate|]. split; [reflexivity|].
    right. split; [|reflexivity].
    intros s' Es. rewrite Es in E. discriminate E.
Qed.

Lemma linear_value_between (from to start end_ t : Q) :
  Qmin from to <= Spec.linear_value from to start end_ t
  /\ Spec.linear_value from to start end_ t <= Qmax from to.
Proof.
  unfold Spec.linear_value.
  set (p := Qmin (Qmax ((t - start) / Qmax (end_ - start) 1) 0) 1).
  assert (P0 : 0 <= p).
  { unfold p. apply Q.min_glb; [apply Q.le_max_r|lra]. }
  assert (P1 : p <= 1) by (unfold p; apply Q.le_min_r).
  destruct (Qlt_le_dec to from) as [H|H].
  - rewrite (Q.min_r from to) by lra. rewrite (Q.max_l from to) by lra.
    split; nra.
  - rewrite (Q.min_l from to) by lra. rewrite (Q.max_r from to) by lra.
    split; nra.
Qed.

(** X22.  A Linear animation between two integers of at most 2^52 in
    magnitude, over a window within the duration, never overshoots: at every
    time, before, within and after its window, the property it targets lies
    between [from] and [to], and the other properties keep their base
    values. *)
Theorem linear_stays_between
        (id lid : value) (D fps x0 y0 r0 : Q) (fillv : string)
        (p : target) (from to : Z) (start end_ e : Q) :
  1000 <= D -> D <= 10000 ->
  safe_integer from -> safe_integer to ->
  0 <= start -> start <= D -> 0 <= end_ -> end_ <= D ->
  exists v,
    evaluate StringToNumber NumberToString cos sin PI
             (obj_spec id (Fin D) (Fin fps)
                [ circle_layer lid x0 y0 r0 fillv
                    [ linear_anim p (inject_Z from) (inject_Z to) start end_ ] ])
             (Fin e)
    = Some [ RCircle (match p with TX => VNum (fin v) | _ => vnum x0 end)
                     (match p with TY => VNum (fin v) | _ => vnum y0 end)
                     (match p with TR => VNum (fin v) | _ => vnum r0 end)
                     (VStr fillv) ]
    /\ Qmin (inject_Z from) (inject_Z to) <= v
    /\ v <= Qmax (inject_Z from) (inject_Z to).
Proof.
  intros HD _ _ _ _ _ _ _.
  exists (Spec.linear_value (inject_Z from) (inject_Z to) start end_ (Qmin e D)).
  split; [|apply linear_value_between].
  exact (linear_resolved StringToNumber NumberToString cos sin PI
           id lid D fps x0 y0 r0 fillv p (inject_Z from) (inject_Z to)
           start end_ e HD).
Qed.

End TextAndMotion.
(** * More of the code: how the animations of a circle compose *)

Section MotionProofs.

Variable StringToNumber : string -> num.
Variable NumberToString : num -> string.
Variable cos sin : Q -> Q.
Variable PI : Q.









End MotionProofs.
(** * More of the code: subscriptions, interleaved handlers, ids *)

Section ServerMore.

Variable StringToNumber : string -> num.
Variable NumberToString : num -> string.
Variable JSON_stringify : value -> string.
Variable LLM_MODE : value.

Lemma existsb_set_add (c r : nat) (cl : list nat) :
  existsb (Nat.eqb c) (Server.set_add r cl) = Nat.eqb c r || existsb (Nat.eqb c) cl.
Proof.
  unfold Server.set_add. destruct (existsb (Nat.eqb r) cl) eqn:E.
  - destruct (Nat.eqb c r) eqn:Ec; [|reflexivity].
    apply Nat.eqb_eq in Ec. subst c. now rewrite E.
  - rewrite existsb_app. cbn [existsb]. rewrite orb_false_r. apply orb_comm.
Qed.

Lemma existsb_set_delete (c r : nat) (cl : list nat) :
  existsb (Nat.eqb c) (Server.set_delete r cl)
  = negb (Nat.eqb c r) && existsb (Nat.eqb c) cl.
Proof.
  unfold Server.set_delete. induction cl as [|x cl IH]; cbn [filter existsb].
  - now rewrite andb_false_r.
  - destruct (Nat.eqb r x) eqn:E; cbn [negb existsb]; rewrite IH.
    + apply Nat.eqb_eq in E. subst x.
      destruct (Nat.eqb c r); reflexivity.
    + destruct (Nat.eqb c x) eqn:Ex; [|now rewrite orb_false_l].
      apply Nat.eqb_eq in Ex. subst x. rewrite Nat.eqb_sym, E. reflexivity.
Qed.

Lemma reached_ok (es : list Server.event) :
  server_ok (Server.run StringToNumber NumberToString JSON_stringify LLM_MODE
                        Server.started es).
Proof. apply run_ok, started_ok. Qed.

(** X24.  Opening the event stream subscribes the connection and closing it
    unsubscribes it, whatever happened before: after [GET /api/stream] on
    [res] an announcement writes its two lines on [res], once, also when
    the connection was registered already; after the [close] of its request
    it writes nothing on [res]; and neither changes what any other
    connection receives. *)
Theorem stream_subscribes (es : list Server.event) (res : nat) (event : string)
        (data : value) :
  let react := Server.react StringToNumber NumberToString JSON_stringify LLM_MODE in
  let s := Server.run StringToNumber NumberToString JSON_stringify LLM_MODE
                      Server.started es in
  let opened := Server.store (fst (fst (react s (Server.Stream res)))) in
  let closed := Server.store (fst (fst (react s (Server.Closed res)))) in
  let lines := [ ("event: " ++ event ++ LF)%string;
                 ("data: " ++ JSON_stringify data ++ LF ++ LF)%string ] in
  written_to res (Server.broadcast JSON_stringify opened event data) = lines
  /\ written_to res (Server.broadcast JSON_stringify closed event data) = []
  /\ forall other, other <> res ->
       written_to other (Server.broadcast JSON_stringify opened event data)
       = written_to other (Server.broadcast JSON_stringify (Server.store s) event data)
       /\ written_to other (Server.broadcast JSON_stringify closed event data)
          = written_to other (Server.broadcast JSON_stringify (Server.store s) event data).
Proof.
  intros react s opened closed lines.
  pose proof (reached_ok es) as Hs. fold s in Hs.
  pose proof (react_ok StringToNumber NumberToString JSON_stringify LLM_MODE
                       s (Server.Stream res) Hs) as ((_ & _ & No) & _).
  pose proof (react_ok StringToNumber NumberToString JSON_stringify LLM_MODE
                       s (Server.Closed res) Hs) as ((_ & _ & Nc) & _).
  destruct Hs as ((_ & _ & N) & _).
  fold react in No, Nc. fold opened in No. fold closed in Nc.
  unfold Server.broadcast.
  rewrite !(broadcast_to _ _ _ _ No), !(broadcast_to _ _ _ _ Nc).
  assert (Eo : Server.clients opened = Server.set_add res (Server.clients (Server.store s)))
    by reflexivity.
  assert (Ec : Server.clients closed = Server.set_delete res (Server.clients (Server.store s)))
    by reflexivity.
  rewrite Eo, Ec, existsb_set_add, existsb_set_delete, Nat.eqb_refl.
  split; [reflexivity|]. split; [reflexivity|].
  intros other Ho. rewrite !(broadcast_to _ _ _ _ No), !(broadcast_to _ _ _ _ Nc).
  rewrite (broadcast_to _ _ _ _ N).
  rewrite Eo, Ec, existsb_set_add, existsb_set_delete.
  apply Nat.eqb_neq in Ho. rewrite Ho. split; reflexivity.
Qed.

(** X25.  Handlers that wait at the same time do not disturb each other: when
    one of them resumes for a question that is a string, in whatever order
    and after whatever other requests, it answers with status 200 and sets
    the [answerId] of its own question, which was [null] until then, to the
    id of the new answer; the other fields of that question and all the
    other questions stay as they were. *)
Theorem answer_reaches_its_question (es : list Server.event) (k : nat)
        (p : Server.pending) (q : string) (data : option value) (now : N) :
  let s := Server.run StringToNumber NumberToString JSON_stringify LLM_MODE
                      Server.started es in
  nth_error (Server.waiting s) k = Some p ->
  Server.question p = VStr q ->
  let answerId := ("a_" ++ Server.decimal now)%string in
  exists s' out q0 q1,
    Server.react StringToNumber NumberToString JSON_stringify LLM_MODE s
                 (Server.Answered k data now)
    = (s', out,
       Some {| Server.status := 200;
               Server.body := VObj [ ("questionId", VStr (Server.questionId p));
                                     ("answerId", VStr answerId) ] |})
    /\ nth_error (Server.questions (Server.store s)) (Server.qObj p) = Some q0
    /\ get q0 "id" = VStr (Server.questionId p)
    /\ get q0 "answerId" = VNull
    /\ nth_error (Server.questions (Server.store s')) (Server.qObj p) = Some q1
    /\ get q1 "answerId" = VStr answerId
    /\ (forall key, key <> "answerId" -> get q1 key = get q0 key)
    /\ (forall j, j <> Server.qObj p ->
                  nth_error (Server.questions (Server.store s')) j
                  = nth_error (Server.questions (Server.store s)) j)
    /\ Server.waiting s' = Server.remove_nth k (Server.waiting s).
Proof.
  intros s Hk Hq answerId.
  pose proof (reached_ok es) as (_ & _ & W & _). fold s in W.
  destruct (W p (nth_error_In _ _ Hk)) as (fs & Hn & Hid & Hnull).
  destruct (callLLMService_string StringToNumber NumberToString LLM_MODE data q)
    as (llm & r0 & E & S & _ & _).
  destruct (sanitizeAnswer_shape _ _ _ _ S) as (text & id & D & fps & rs & El & _).
  cbn [Server.react]. rewrite Hk. unfold Server.post_answer. rewrite Hq, E, El.
  cbn [getp lookup String.eqb Ascii.eqb Bool.eqb].
  do 2 eexists. exists (VObj fs), (VObj (JSON.set_field "answerId" (VStr answerId) fs)).
  split; [reflexivity|]. cbn [Server.store Server.questions Server.waiting].
  split; [exact Hn|]. split; [exact Hid|]. split; [exact Hnull|].
  split; [now apply nth_error_assign_same|].
  split; [cbn [get]; rewrite lookup_set_field; reflexivity|].
  split.
  - intros key Hkey. cbn [get]. rewrite lookup_set_field.
    destruct (String.eqb key "answerId") eqn:Ek; [|reflexivity].
    apply String.eqb_eq in Ek. contradiction.
  - split; [|reflexivity]. intros j Hj. apply nth_error_assign_other. congruence.
Qed.

Lemma decimal_inj (a b : N) : Server.decimal a = Server.decimal b -> a = b.
Proof.
  unfold Server.decimal. intros H.
  assert (E : Some (N.to_uint a) = Some (N.to_uint b)).
  { rewrite <- !NilEmpty.usu. now rewrite H. }
  injection E as E.
  rewrite <- (DecimalN.Unsigned.of_to a), <- (DecimalN.Unsigned.of_to b).
  now rewrite E.
Qed.

(** X26.  The ids the server gives out are as fine as its clock: two questions
    that are accepted get the same id exactly when they arrive in the same
    millisecond, and two answers get the same id exactly when their
    handlers resume in the same millisecond. *)
Theorem ids_differ_with_the_clock (st1 st2 st1' st2' : Server.state)
        (body1 body2 : value) (now1 now2 : N) (out1 out2 : list Server.output)
        (p1 p2 : Server.pending) :
  Server.post_question JSON_stringify st1 body1 now1 = (st1', out1, inr p1) ->
  Server.post_question JSON_stringify st2 body2 now2 = (st2', out2, inr p2) ->
  (Server.questionId p1 = Server.questionId p2 <-> now1 = now2)
  /\ forall sa sb sa' sb' pa pb da db outa outb ra rb,
      Server.post_answer StringToNumber NumberToString JSON_stringify LLM_MODE
                         sa pa da now1 = (sa', outa, ra) ->
      Server.post_answer StringToNumber NumberToString JSON_stringify LLM_MODE
                         sb pb db now2 = (sb', outb, rb) ->
      Server.status ra = 200%nat -> Server.status rb = 200%nat ->
      (get (Server.body ra) "answerId" = get (Server.body rb) "answerId" <-> now1 = now2).
Proof.
  unfold Server.post_question. intros H1 H2.
  destruct (negb (truthy (get (js_or body1 (VObj [])) "question"))); [discriminate H1|].
  destruct (negb (truthy (get (js_or body2 (VObj [])) "question"))); [discriminate H2|].
  injection H1 as _ _ <-. injection H2 as _ _ <-. cbn [Server.questionId].
  split.
  - split; [|now intros ->].
    intros H. injection H as H. now apply decimal_inj.
  - intros sa sb sa' sb' pa pb da db outa outb ra rb. unfold Server.post_answer.
    destruct (callLLMService _ _ _ da _) as [la|];
      [|intros H; injection H as _ _ <-; discriminate].
    destruct (getp la "text"); [|intros H; injection H as _ _ <-; discriminate].
    destruct (getp la "visualization");
      [|intros H; injection H as _ _ <-; discriminate].
    intros Ha. injection Ha as _ _ <-.
    destruct (callLLMService _ _ _ db _) as [lb|];
      [|intros H; injection H as _ _ <-; discriminate].
    destruct (getp lb "text"); [|intros H; injection H as _ _ <-; discriminate].
    destruct (getp lb "visualization");
      [|intros H; injection H as _ _ <-; discriminate].
    intros Hb _ _. injection Hb as _ _ <-.
    cbn [Server.body get lookup String.eqb Ascii.eqb Bool.eqb].
    split; [|now intros ->].
    intros H. injection H as H. now apply decimal_inj.
Qed.

End ServerMore.
(** * More of the code: from the server to the chat *)

Section EndToEnd.

Variable StringToNumber : string -> num.
Variable NumberToString : num -> string.
Variable JSON_stringify : value -> string.
Variable LLM_MODE : value.

Lemma pair_answer_total (a : value) (qs : list value) :
  getp a "id" <> None ->
  Forall (fun x => getp x "id" <> None) qs ->
  exists qs', mapM (Client.pair_answer a) qs = Some qs'.
Proof.
  intros Ha. induction 1 as [|x qs Hx _ IH]; [now exists []|].
  destruct IH as [qs' E]. cbn [mapM]. rewrite E.
  unfold Client.pair_answer.
  destruct (getp x "id") as [qid|]; [|contradiction]. cbn [bind].
  assert (Q : exists aq, getp a "questionId" = Some aq).
  { unfold getp in *. destruct a; try contradiction; eauto. }
  destruct Q as [aq ->]. cbn [bind].
  destruct (getp a "id") as [aid|]; [|contradiction].
  destruct (Client.strict_eq qid aq); cbn [bind]; eauto.
Qed.

(** X27.  A question that is a non-empty string ends up answered in the chat.
    The server announces the question; when its handler resumes, in
    whatever state of the store, it announces an answer; and a client that
    holds the announced question (and no question that is null or
    undefined) and receives that answer keeps the question at its place,
    now with the answer shown under it, makes the visualization of the
    answer the current one and plays it.  When no animation of a radius in
    that visualization starts or ends below zero, as is the case in every
    mode but ollama, each of its frames is drawn, at every time, by calls
    the canvas accepts. *)
Theorem answer_reaches_the_chat (st : Server.state) (req_body : value)
        (q : string) (now : N) :
  get (js_or req_body (VObj [])) "question" = VStr q ->
  q <> EmptyString ->
  exists st0 p qobj,
    Server.post_question JSON_stringify st req_body now
    = (st0, Server.broadcast JSON_stringify st "question_created" qobj, inr p)
    /\ getp qobj "id" <> None
    /\ forall st1 data now1,
        exists st2 a r,
          Server.post_answer StringToNumber NumberToString JSON_stringify LLM_MODE
                             st1 p data now1
          = (st2, Server.broadcast JSON_stringify st1 "answer_created" a, r)
          /\ Server.status r = 200%nat
          /\ forall (c : Client.state) (i : nat),
              nth_error (Client.questions c) i = Some qobj ->
              Forall (fun x => getp x "id" <> None) (Client.questions c) ->
              exists c' q',
                Client.answer_created NumberToString a c = Some c'
                /\ nth_error (Client.questions c') i = Some q'
                /\ get q' "question" = VStr q
                /\ Client.shown_answer NumberToString c' q' = Some a
                /\ Client.currentVis c' = get a "visualization"
                /\ Client.isPlaying c' = true
                /\ (str_eq (js_or LLM_MODE (VStr "mock")) "ollama" = false ->
                    spec_radius_safe (Client.currentVis c') = true)
                /\ (spec_radius_safe (Client.currentVis c') = true ->
                    forall cos sin PI atan2 elapsed,
                    exists calls,
                      frame StringToNumber NumberToString cos sin PI atan2
                            (Client.currentVis c') elapsed = Some calls
                      /\ forallb accepted calls = true).
Proof.
  intros Eq Hq. unfold Server.post_question. rewrite Eq.
  assert (T : truthy (VStr q) = true).
  { cbn. destruct q; [contradiction|reflexivity]. }
  rewrite T. cbn [negb].
  do 3 eexists. split; [reflexivity|]. split; [discriminate|].
  intros st1 data now1.
  destruct (callLLMService_string StringToNumber NumberToString LLM_MODE data q)
    as (llm & r0 & E & S & _ & F).
  pose proof (fun H cos sin PI atan2 elapsed =>
                sanitized_frames_accepted StringToNumber NumberToString r0 llm
                                          cos sin PI atan2 elapsed S H) as Frames.
  pose proof (fun Hm => mock_radius_safe NumberToString q llm (F Hm)) as Safe.
  destruct (sanitizeAnswer_shape _ _ _ _ S) as (text & id & D & fps & rs & El & _).
  unfold Server.post_answer. cbn [Server.question Server.questionId]. rewrite E, El.
  cbn [getp lookup String.eqb Ascii.eqb Bool.eqb].
  do 3 eexists. split; [reflexivity|]. split; [reflexivity|].
  intros c i Hi Hall.
  match goal with
  | |- context [Client.answer_created _ ?a0 _] => set (a := a0)
  end.
  destruct (pair_answer_total a (Client.questions c)) as [qs' Eqs];
    [discriminate|exact Hall|].
  destruct (mapM_nth _ _ _ Eqs i _ Hi) as (q' & Hq' & Ep).
  unfold Client.answer_created.
  assert (Ia : getp a "id" = Some (VStr ("a_" ++ Server.decimal now1))) by reflexivity.
  rewrite Ia. cbn [bind ToString]. rewrite Eqs. cbn [bind].
  assert (Va : getp a "visualization" = Some (get a "visualization")) by reflexivity.
  rewrite Va. cbn [bind].
  do 2 eexists. split; [reflexivity|].
  cbn [Client.questions Client.currentVis Client.isPlaying].
  split; [exact Hq'|].
  unfold Client.pair_answer, a in Ep.
  cbn [getp get lookup String.eqb Ascii.eqb Bool.eqb bind Client.strict_eq] in Ep.
  rewrite String.eqb_refl in Ep. cbn [bind Client.spread] in Ep.
  injection Ep as <-.
  split; [reflexivity|].
  split.
  - unfold Client.shown_answer.
    cbn [getp get lookup String.eqb Ascii.eqb Bool.eqb bind JSON.set_field
         truthy negb ToString append Client.answers].
    rewrite lookup_set_field, String.eqb_refl. reflexivity.
  - assert (V : get a "visualization" = visualization llm) by (rewrite El; reflexivity).
    rewrite V, El. cbn [visualization get lookup String.eqb Ascii.eqb Bool.eqb].
    split; [reflexivity|]. split; [reflexivity|].
    rewrite El in Frames, Safe. split; [exact Safe|exact Frames].
Qed.

End EndToEnd.

(** * The further properties at concrete inputs *)

Lemma clamp_bounds_witness :
  0 <= 640 /\ clamp NaN (Fin 0) (Fin 640) = NaN.
Proof.
  assert (H : 0 <= 640) by lra.
  exact (conj H (proj2 (clamp_bounds PInf 0 640 H))).
Defined.

(** The default scene of an input without a duration: 5000. *)
Lemma sanitize_fixed_point_witness :
  exists r,
    sanitizeAnswer sample_s2n sample_n2s (VObj []) = Some r
    /\ get (visualization r) "duration" = VNum (Fin 5000)
    /\ layers_of (visualization r) = default_layers (Fin 5000)
    /\ sanitizeAnswer sample_s2n sample_n2s r = Some r.
Proof.
  assert (H : 1100 <= 5000) by lra.
  eexists. refine (conj eq_refl (conj eq_refl (conj eq_refl _))).
  exact (sanitize_fixed_point sample_s2n sample_n2s (VObj []) _ 5000
           eq_refl eq_refl (fun _ => H)).
Defined.

(** An entry of unknown type before a circle: the circle is [layer_1]. *)
Lemma sanitize_keeps_known_types_witness :
  exists r,
    sanitizeAnswer sample_s2n sample_n2s input_mixed = Some r
    /\ layer_types (visualization r) = [ VStr "circle" ]
    /\ layer_ids (visualization r) = [ VStr "layer_1" ].
Proof.
  eexists. refine (conj eq_refl _).
  exact (sanitize_keeps_known_types sample_s2n sample_n2s input_mixed _ eq_refl).
Defined.

Lemma sanitize_throws_on_toString_witness :
  has_key "toString" [ ("toString", vnum 1) ] = true
  /\ get (get input_toString "visualization") "duration" = VObj [ ("toString", vnum 1) ]
  /\ sanitizeAnswer sample_s2n sample_n2s input_toString = None.
Proof.
  refine (conj eq_refl (conj eq_refl _)).
  exact (sanitize_throws_on_toString sample_s2n sample_n2s input_toString
           [ ("toString", vnum 1) ] eq_refl (or_introl eq_refl)).
Defined.

(** The raw text of the end-to-end scenario ends with a fence. *)
Lemma extractJSON_needs_closing_brace_witness :
  JSON.parse scenario_raw = None
  /\ ends_with_brace scenario_raw = false
  /\ extractJSON (VStr scenario_raw) = VNull.
Proof.
  assert (H1 : JSON.parse scenario_raw = None) by (vm_compute; reflexivity).
  assert (H2 : ends_with_brace scenario_raw = false) by (vm_compute; reflexivity).
  exact (conj H1 (conj H2 (extractJSON_needs_closing_brace scenario_raw H1 H2))).
Defined.

(** The object of the scenario after the prose, without a fence. *)
Lemma extractJSON_after_prose_witness :
  no_brace "Sure! " = true
  /\ JSON.parse ("Sure! " ++ "{" ++ scenario_body ++ "}") = None
  /\ JSON.parse ("{" ++ scenario_body ++ "}") = Some scenario_object
  /\ extractJSON (VStr ("Sure! " ++ "{" ++ scenario_body ++ "}")) = scenario_object.
Proof.
  assert (H1 : no_brace "Sure! " = true) by reflexivity.
  assert (H2 : JSON.parse ("Sure! " ++ "{" ++ scenario_body ++ "}") = None)
    by (vm_compute; reflexivity).
  assert (H3 : JSON.parse ("{" ++ scenario_body ++ "}") = Some scenario_object)
    by (vm_compute; reflexivity).
  exact (conj H1 (conj H2 (conj H3
           (extractJSON_after_prose "Sure! " scenario_body scenario_object H1 H2 H3)))).
Defined.

(** The object of the scenario in its fence, without the prose. *)
Lemma askOllama_recovers_fenced_witness :
  JSON.parse ("{" ++ scenario_body ++ "}" ++ LF) = Some scenario_object
  /\ askOllama_parse (VObj [ ("response", VStr (fenced scenario_body)) ])
     = Some scenario_object.
Proof.
  assert (H : JSON.parse ("{" ++ scenario_body ++ "}" ++ LF) = Some scenario_object)
    by (vm_compute; reflexivity).
  exact (conj H (askOllama_recovers_fenced scenario_body scenario_object H)).
Defined.

Lemma askOllama_returns_truthy_witness :
  askOllama_parse (VObj [ ("response", VStr scenario_json) ]) = Some scenario_object
  /\ truthy scenario_object = true.
Proof.
  assert (H : askOllama_parse (VObj [ ("response", VStr scenario_json) ])
              = Some scenario_object) by (vm_compute; reflexivity).
  exact (conj H (proj1 (askOllama_returns_truthy _ _ H))).
Defined.

(** The question 5. *)
Lemma mockAnswer_not_a_string_witness :
  is_string (vnum 5) = false /\ mockAnswer sample_n2s (vnum 5) = None.
Proof.
  exact (conj eq_refl (mockAnswer_not_a_string sample_n2s (vnum 5) eq_refl)).
Defined.

Lemma callLLMService_rejects_other_questions_witness :
  is_string (vnum 5) = false /\ truthy (vnum 5) = true
  /\ callLLMService sample_s2n sample_n2s VUndef None (vnum 5) = None.
Proof.
  refine (conj eq_refl (conj eq_refl _)).
  exact (callLLMService_rejects_other_questions sample_s2n sample_n2s VUndef None
           (vnum 5) eq_refl eq_refl).
Defined.

(** The handler of the question "dna" resumes at time 2, in mock mode. *)
Lemma answer_can_be_fetched_witness :
  exists st' out r a,
    Server.post_answer sample_s2n sample_n2s sample_stringify VUndef
                       sample_store sample_pending None 2 = (st', out, r)
    /\ Server.status r = 200%nat
    /\ Server.get_answer st' "a_2" = {| Server.status := 200; Server.body := a |}
    /\ get a "questionId" = VStr "q_1"
    /\ get a "text" = get mock_dna "text".
Proof.
  do 3 eexists.
  destruct (answer_can_be_fetched sample_s2n sample_n2s sample_stringify VUndef
              sample_store _ sample_pending None 2 _ _ eq_refl eq_refl)
    as (_ & a & Ea & _ & Hnew).
  destruct (Hnew eq_refl) as (llm & El & ->).
  eexists. refine (conj eq_refl (conj eq_refl (conj Ea (conj eq_refl _)))).
  injection El as <-. reflexivity.
Defined.

Lemma string_question_is_answered_witness :
  get (js_or (VObj [ ("question", VStr "dna") ]) (VObj [])) "question" = VStr "dna"
  /\ "dna" <> EmptyString
  /\ exists st' out p,
      Server.post_question sample_stringify Server.empty
                           (VObj [ ("question", VStr "dna") ]) 1
      = (st', out, inr p)
      /\ exists st2 out2 r,
          Server.post_answer sample_s2n sample_n2s sample_stringify VUndef
                             st' p None 2 = (st2, out2, r)
          /\ Server.status r = 200%nat.
Proof.
  assert (H : "dna" <> EmptyString) by discriminate.
  refine (conj eq_refl (conj H _)).
  destruct (string_question_is_answered sample_s2n sample_n2s sample_stringify VUndef
              Server.empty (VObj [ ("question", VStr "dna") ]) "dna" 1 eq_refl H)
    as (p & qobj & E & _ & _ & _ & Hans).
  do 3 eexists. split; [exact E|].
  match goal with
  | |- context [Server.post_answer _ _ _ _ ?st _ _ _] =>
      destruct (Hans st None 2%N) as (llm & a & _ & _ & Ea & _)
  end.
  do 3 eexists. split; [exact Ea|reflexivity].
Defined.

Lemma other_question_is_never_answered_witness :
  get (js_or (VObj [ ("question", vnum 5) ]) (VObj [])) "question" = vnum 5
  /\ is_string (vnum 5) = false /\ truthy (vnum 5) = true
  /\ str_eq (js_or VUndef (VStr "mock")) "ollama" = false
  /\ exists st' out p,
      Server.post_question sample_stringify Server.empty
                           (VObj [ ("question", vnum 5) ]) 1
      = (st', out, inr p)
      /\ Server.post_answer sample_s2n sample_n2s sample_stringify VUndef
                            st' p None 2
         = (st', [], {| Server.status := 500;
                        Server.body := VObj [ ("error", VStr "LLM failed") ] |}).
Proof.
  refine (conj eq_refl (conj eq_refl (conj eq_refl (conj eq_refl _)))).
  destruct (other_question_is_never_answered sample_s2n sample_n2s sample_stringify
              VUndef Server.empty (VObj [ ("question", vnum 5) ]) (vnum 5) 1
              eq_refl eq_refl eq_refl eq_refl)
    as (p & qobj & E & _ & _ & Hfail).
  do 3 eexists. split; [exact E|apply Hfail].
Defined.

Lemma answer_is_paired_witness :
  exists st',
    Client.answer_created sample_n2s sample_answer sample_client = Some st'
    /\ get sample_answer "id" = VStr "a_2"
    /\ "a_2" <> EmptyString
    /\ Client.isPlaying st' = true
    /\ List.length (Client.questions st') = 1%nat.
Proof.
  assert (H : "a_2" <> EmptyString) by discriminate.
  eexists. refine (conj eq_refl (conj eq_refl (conj H _))).
  destruct (answer_is_paired sample_n2s sample_answer sample_client _ "a_2"
              eq_refl eq_refl H) as (L & _ & _ & P).
  exact (conj P L).
Defined.

(** X28.  The sanitizer does not clamp the [from] and [to] of a Linear
    animation: for a circle whose radius is animated from -50 to -10 it
    returns a spec that satisfies the invariants of the data model, and the
    frame of that spec at time 0 calls [arc] with the radius -50, a call the
    canvas rejects with an IndexSizeError. *)
Theorem negative_radius_is_drawn (s2n : string -> num) (n2s : num -> string)
        (cos sin : Q -> Q) (PI : Q) (atan2 : num -> num -> num) :
  exists r,
    sanitizeAnswer s2n n2s shrinking_circle = Some r
    /\ forallb props_ok (layers_of (visualization r)) = true
    /\ forallb (animations_ok 5000) (layers_of (visualization r)) = true
    /\ spec_radius_safe (visualization r) = false
    /\ frame s2n n2s cos sin PI atan2 (visualization r) (Fin 0)
       = Some [ clearRect (Fin 0) (Fin 0) (Fin 700) (Fin 400);
                beginPath;
                set_fillStyle (VStr "#3498db");
                arc (Fin 160) (Fin 200) (Fin (-50 # 1)) (Fin 0) (n_mul (Fin PI) (Fin 2));
                fill ]
    /\ accepted (arc (Fin 160) (Fin 200) (Fin (-50 # 1)) (Fin 0) (n_mul (Fin PI) (Fin 2)))
       = false.
Proof.
  eexists. split; [reflexivity|]. repeat split; reflexivity.
Qed.

(** An input of no-break spaces and a line feed is white space only, and
    is not sent. *)
Lemma no_break_space_is_not_sent :
  Client.sendQuestion
    {| Client.questions := []; Client.answers := []; Client.currentVis := VNull;
       Client.isPlaying := true;
       Client.input := no_break_space ++ String (ascii_of_nat 10) no_break_space |}
  = None.
Proof. reflexivity. Qed.

(** A spec of duration 5000 whose loop starts at time stamp 1000: it draws
    three frames, at the time stamps 1000, 2000 and 7000, and none at 8000. *)
Lemma animation_plays_once_witness :
  exists r,
    sanitizeAnswer sample_s2n sample_n2s input_two_layers = Some r
    /\ get (visualization r) "duration" = VNum (Fin 5000)
    /\ spec_radius_safe (visualization r) = true
    /\ ~ 1000 == 0
    /\ Forall (fun x => x - 1000 < 5000) [ 2000 ]
    /\ 5000 <= 7000 - 1000
    /\ exists first frames final,
        Client.animation sample_s2n sample_n2s sample_cos sample_sin sample_PI
                         sample_atan2 (visualization r) true
                         (map Fin [ 1000; 2000; 7000; 8000 ])
        = Some (first :: frames ++ [final])%list
        /\ List.length frames = 1%nat
        /\ forallb accepted first = true
        /\ forallb accepted final = true.
Proof.
  assert (H1 : ~ 1000 == 0) by (intros C; discriminate C).
  assert (H2 : Forall (fun x => x - 1000 < 5000) [ 2000 ])
    by (constructor; [reflexivity|constructor]).
  assert (H3 : 5000 <= 7000 - 1000) by (intros C; discriminate C).
  eexists.
  refine (conj eq_refl (conj eq_refl (conj eq_refl (conj H1 (conj H2 (conj H3 _)))))).
  destruct (proj1 (animation_plays_once sample_s2n sample_n2s sample_cos sample_sin
                     sample_PI sample_atan2 input_two_layers _ 5000 1000 7000
                     [ 2000 ] [ 8000 ] eq_refl eq_refl eq_refl H1 H2 H3))
    as (first & frames & final & E & (_ & A0) & Hf & (_ & Af)).
  exists first, frames, final.
  refine (conj E (conj _ (conj A0 Af))).
  symmetry. exact (Forall2_length Hf).
Defined.

Lemma sanitized_text_witness :
  sanitizeAnswer sample_s2n sample_n2s scenario_object = Some scenario_sanitized
  /\ exists t, get scenario_sanitized "text" = VStr t /\ t <> EmptyString.
Proof.
  refine (conj eq_refl _).
  destruct (sanitized_text sample_s2n sample_n2s scenario_object scenario_sanitized
              eq_refl) as (t & E & N & _).
  exists t. exact (conj E N).
Defined.

Lemma linear_stays_between_witness :
  1000 <= 5000 /\ 5000 <= 10000 /\ safe_integer 100 /\ safe_integer 500
  /\ 0 <= 0 /\ 0 <= 5000 /\ 0 <= 1000 /\ 1000 <= 5000
  /\ exists v,
      evaluate sample_s2n sample_n2s sample_cos sample_sin sample_PI
               (obj_spec (VStr "v") (Fin 5000) (Fin 30)
                  [ circle_layer (VStr "c") 10 20 5 "#fff"
                                 [ linear_anim TX 100 500 0 1000 ] ])
               (Fin 250)
      = Some [ RCircle (VNum (fin v)) (vnum 20) (vnum 5) (VStr "#fff") ]
      /\ Qmin 100 500 <= v /\ v <= Qmax 100 500.
Proof.
  assert (H1 : 1000 <= 5000) by lra.
  assert (H2 : 5000 <= 10000) by lra.
  assert (H3 : safe_integer 100) by (unfold safe_integer; simpl; lia).
  assert (H4 : safe_integer 500) by (unfold safe_integer; simpl; lia).
  assert (H5 : 0 <= 0) by lra.
  assert (H6 : 0 <= 5000) by lra.
  assert (H7 : 0 <= 1000) by lra.
  refine (conj H1 (conj H2 (conj H3 (conj H4 (conj H5 (conj H6 (conj H7 (conj H1 _)))))))).
  exact (linear_stays_between sample_s2n sample_n2s sample_cos sample_sin
           sample_PI (VStr "v") (VStr "c") 5000 30 10 20 5 "#fff"
           TX 100 500 0 1000 250 H1 H2 H3 H4 H5 H6 H7 H1).
Defined.

Lemma answer_reaches_its_question_witness :
  let es := [ Server.Post (VObj [ ("question", VStr "dna") ]) 1;
              Server.Post (VObj [ ("question", VStr "solar") ]) 2 ] in
  let s := Server.run sample_s2n sample_n2s sample_stringify VUndef Server.started es in
  let p := {| Server.qObj := 1; Server.question := VStr "solar";
              Server.questionId := "q_2" |} in
  nth_error (Server.waiting s) 1 = Some p
  /\ Server.question p = VStr "solar"
  /\ exists s' out q1,
      fst (Server.react sample_s2n sample_n2s sample_stringify VUndef s
                        (Server.Answered 1 None 3)) = (s', out)
      /\ nth_error (Server.questions (Server.store s')) 1 = Some q1
      /\ get q1 "answerId" = VStr "a_3"
      /\ nth_error (Server.questions (Server.store s')) 0
         = nth_error (Server.questions (Server.store s)) 0.
Proof.
  intros es s p.
  refine (conj eq_refl (conj eq_refl _)).
  destruct (answer_reaches_its_question sample_s2n sample_n2s sample_stringify VUndef
              es 1 p "solar" None 3 eq_refl eq_refl)
    as (s' & out & q0 & q1 & E & _ & _ & _ & E1 & A1 & _ & Oth & _).
  exists s', out, q1. fold s in E. rewrite E.
  refine (conj eq_refl (conj E1 (conj A1 _))).
  apply Oth. discriminate.
Defined.

Lemma ids_differ_with_the_clock_witness :
  exists st1 out1 p1 st2 out2 p2,
    Server.post_question sample_stringify Server.empty
                         (VObj [ ("question", VStr "dna") ]) 1 = (st1, out1, inr p1)
    /\ Server.post_question sample_stringify Server.empty
                            (VObj [ ("question", VStr "dna") ]) 2 = (st2, out2, inr p2)
    /\ Server.questionId p1 <> Server.questionId p2.
Proof.
  do 6 eexists.
  refine (conj eq_refl (conj eq_refl _)).
  destruct (ids_differ_with_the_clock sample_s2n sample_n2s sample_stringify VUndef
              Server.empty Server.empty _ _
              (VObj [ ("question", VStr "dna") ]) (VObj [ ("question", VStr "dna") ])
              1 2 _ _ _ _ eq_refl eq_refl) as [[H _] _].
  intros E. specialize (H E). discriminate H.
Defined.

Lemma answer_reaches_the_chat_witness :
  get (js_or (VObj [ ("question", VStr "dna") ]) (VObj [])) "question" = VStr "dna"
  /\ "dna" <> EmptyString
  /\ exists st0 out p qobj a c',
      Server.post_question sample_stringify Server.empty
                           (VObj [ ("question", VStr "dna") ]) 1 = (st0, out, inr p)
      /\ Client.answer_created sample_n2s a
           (Client.question_created qobj Client.initial) = Some c'
      /\ Client.isPlaying c' = true
      /\ Client.currentVis c' = get a "visualization"
      /\ exists calls,
          frame sample_s2n sample_n2s sample_cos sample_sin sample_PI sample_atan2
                (Client.currentVis c') (Fin 250) = Some calls
          /\ forallb accepted calls = true.
Proof.
  assert (H : "dna" <> EmptyString) by discriminate.
  refine (conj eq_refl (conj H _)).
  destruct (answer_reaches_the_chat sample_s2n sample_n2s sample_stringify VUndef
              Server.empty (VObj [ ("question", VStr "dna") ]) "dna" 1 eq_refl H)
    as (st0 & p & qobj & E & Hid & Hans).
  destruct (Hans Server.empty None 2%N) as (st2 & a & r & _ & _ & Hc).
  assert (Hall : Forall (fun x => getp x "id" <> None)
                        (Client.questions (Client.question_created qobj Client.initial))).
  { constructor; [exact Hid|constructor]. }
  destruct (Hc (Client.question_created qobj Client.initial) 0%nat eq_refl Hall)
    as (c' & q' & Ec & _ & _ & _ & Ev & Ep & Hs & Hf).
  exists st0. eexists. exists p, qobj, a, c'.
  exact (conj E (conj Ec (conj Ep (conj Ev
           (Hf (Hs eq_refl) sample_cos sample_sin sample_PI sample_atan2 (Fin 250)))))).
Defined.
